(** * Parkmaster: the two HTTP services over the PostgreSQL store

    The repository holds two Express applications over the same
    relational schema:

    - [Server]  : [server.js], written against node-postgres ([pool.query]
                  with positional parameters);
    - [Service] : the pg-promise service ([db.one], [db.oneOrNone] with
                  named parameters taken from [req.body] / [req.params]).

    Both are embedded as pure functions [env -> store -> input ->
    response * store].  The store is the content of the tables the
    handlers touch together with their [SERIAL] sequences; the constraints
    are those of the schema files ([NOT NULL], [CHECK], [UNIQUE],
    [REFERENCES], column widths, the [updated_at] trigger).

    Request values are typed by the column they are bound to: a body field
    is absent, [null], or a value of the column's type.  Values PostgreSQL
    would refuse to read as that type are outside this model.  A field
    bound to a [JSONB] column holds any JSON value; what reaches the
    column is worked out where the value is sent.  Times are
    minutes after midnight, dates are days and timestamps minutes since
    1 January 1970.  The tables [vehicles] and [issues], which no
    statement below reads or writes, are left out of the store. *)

From Stdlib Require Import ZArith NArith List String Ascii Bool Lia Btauto.
From Stdlib Require Import DecimalString Sorted Permutation.
Import ListNotations.

#[local] Set Warnings "-register-all".
Local Open Scope string_scope.
Local Open Scope Z_scope.

(* ================================================================== *)
(** * JavaScript values of a request *)
(* ================================================================== *)

Module Js.

(** A property of [req.body]: missing from the object ([undefined] after
    destructuring), present with value [null], or present with a value. *)
Inductive field (A : Type) : Type :=
| Absent : field A
| Null : field A
| Val (a : A) : field A.
Arguments Absent {A}.
Arguments Null {A}.
Arguments Val {A} a.

(** JSON documents, for the [JSONB] columns. *)
Inductive json : Type :=
| JNull
| JBool (b : bool)
| JNum (n : Z)
| JStr (s : string)
| JArr (items : list json)
| JObj (props : list (string * json)).

(** [obj.hasOwnProperty(name)] *)
Definition present {A} (f : field A) : bool :=
  match f with Absent => false | _ => true end.

(** What the driver sends for a property: [undefined] and [null] both
    become SQL [NULL]. *)
Definition to_sql {A} (f : field A) : option A :=
  match f with Val a => Some a | _ => None end.

(** [!!x], type by type. *)
Definition truthy_string (f : field string) : bool :=
  match f with Val s => negb (String.eqb s "") | _ => false end.

Definition truthy_number (f : field Z) : bool :=
  match f with Val n => negb (n =? 0)%Z | _ => false end.

Definition truthy_json (f : field json) : bool :=
  match f with
  | Val JNull => false
  | Val (JBool b) => b
  | Val (JNum n) => negb (n =? 0)%Z
  | Val (JStr s) => negb (String.eqb s "")
  | Val (JArr _) => true
  | Val (JObj _) => true
  | _ => false
  end.

(** [x || d] on strings and on JSON values. *)
Definition or_string (f : field string) (d : option string) : option string :=
  if truthy_string f then to_sql f else d.

Definition or_json (f : field json) (d : json) : json :=
  match f with
  | Val j => if truthy_json f then j else d
  | _ => d
  end.

(** [String.prototype.toLowerCase], on the ASCII letters. *)
Definition lower_ascii (c : ascii) : ascii :=
  let n := nat_of_ascii c in
  if ((65 <=? n) && (n <=? 90))%nat then ascii_of_nat (n + 32) else c.

Fixpoint toLowerCase (s : string) : string :=
  match s with
  | EmptyString => EmptyString
  | String c r => String (lower_ascii c) (toLowerCase r)
  end.

End Js.
Import Js.

(* ================================================================== *)
(** * The relational store *)
(* ================================================================== *)

(** Errors a statement can raise; the first ten are PostgreSQL's
    condition names, the last two are raised by pg-promise itself. *)
Inductive db_error : Type :=
| not_null_violation (column : string)
| check_violation (constraint : string)
| foreign_key_violation (constraint : string)
| unique_violation (constraint : string)
| numeric_value_out_of_range
| string_data_right_truncation
| datetime_field_overflow
| syntax_error
| datatype_mismatch
| invalid_text_representation
| property_missing (name : string)
| query_result_error.

(** Statements either produce a value or raise. *)
Inductive result (A : Type) : Type :=
| Done (a : A)
| Raise (e : db_error).
Arguments Done {A} a.
Arguments Raise {A} e.

Definition bind {A B} (m : result A) (k : A -> result B) : result B :=
  match m with
  | Done a => k a
  | Raise e => Raise e
  end.

Notation "x <- m ;; k" := (bind m (fun x => k))
  (at level 61, m at next level, right associativity).
Notation "m ;;; k" := (bind m (fun _ => k))
  (at level 61, right associativity).

Definition guard (b : bool) (e : db_error) : result unit :=
  if b then Done tt else Raise e.

Module Jsonb.

(** [JSONB] input: the document a text denotes, if it is one.  The
    grammar is JSON's, with PostgreSQL's two additions for [jsonb]: the
    escape [\u0000] is refused, and of several members with one key the
    last is kept.  Members stay in the order of the text.  [json] holds
    whole numbers only, and so does the reader: a numeral with a
    fraction or an exponent is not read, documents with such numbers
    being outside this model. *)
Definition is_ws (c : ascii) : bool :=
  let n := nat_of_ascii c in
  ((n =? 32) || (n =? 9) || (n =? 10) || (n =? 13))%nat.

Fixpoint skip_ws (s : string) : string :=
  match s with
  | String c r => if is_ws c then skip_ws r else s
  | EmptyString => s
  end.

Definition hex (c : ascii) : option N :=
  let n := N_of_ascii c in
  if ((48 <=? n) && (n <=? 57))%N then Some (n - 48)%N
  else if ((97 <=? n) && (n <=? 102))%N then Some (n - 87)%N
  else if ((65 <=? n) && (n <=? 70))%N then Some (n - 55)%N
  else None.

Definition hex4 (a b c d : ascii) : option N :=
  match hex a, hex b, hex c, hex d with
  | Some w, Some x, Some y, Some z => Some (((w * 16 + x) * 16 + y) * 16 + z)%N
  | _, _, _, _ => None
  end.

(** The UTF-8 bytes of a code point. *)
Definition byte (n : N) (r : string) : string := String (ascii_of_N n) r.

Definition continuation (n : N) : N := 128 + n mod 64.

Definition utf8 (cp : N) : string :=
  if (cp <? 128)%N then byte cp ""
  else if (cp <? 2048)%N then byte (192 + cp / 64) (byte (continuation cp) "")
  else if (cp <? 65536)%N
  then byte (224 + cp / 4096)
         (byte (continuation (cp / 64)) (byte (continuation cp) ""))
  else byte (240 + cp / 262144)
         (byte (continuation (cp / 4096))
            (byte (continuation (cp / 64)) (byte (continuation cp) ""))).

Definition quote : ascii := "034"%char.
Definition backslash : ascii := "092"%char.

(** What a one-letter escape stands for. *)
Definition escape (c : ascii) : option ascii :=
  if Ascii.eqb c quote then Some quote
  else if Ascii.eqb c backslash then Some backslash
  else if Ascii.eqb c "/" then Some "/"%char
  else if Ascii.eqb c "b" then Some "008"%char
  else if Ascii.eqb c "f" then Some "012"%char
  else if Ascii.eqb c "n" then Some "010"%char
  else if Ascii.eqb c "r" then Some "013"%char
  else if Ascii.eqb c "t" then Some "009"%char
  else None.

Definition prepend (p : string) (r : option (string * string))
    : option (string * string) :=
  match r with
  | Some (t, rest) => Some (p ++ t, rest)
  | None => None
  end.

(** The characters of a string, after its opening quote, and what
    follows the closing one. *)
Fixpoint text (s : string) : option (string * string) :=
  match s with
  | EmptyString => None
  | String c r =>
      if Ascii.eqb c quote then Some ("", r)
      else if Ascii.eqb c backslash then
        match r with
        | EmptyString => None
        | String d r1 =>
            match escape d with
            | Some x => prepend (String x "") (text r1)
            | None =>
                if Ascii.eqb d "u" then
                  match r1 with
                  | String h1 (String h2 (String h3 (String h4 r2))) =>
                      match hex4 h1 h2 h3 h4 with
                      | None => None
                      | Some u =>
                          if (u =? 0)%N then None
                          else if ((55296 <=? u) && (u <=? 56319))%N then
                            match r2 with
                            | String b (String v (String l1 (String l2
                                (String l3 (String l4 r3))))) =>
                                if Ascii.eqb b backslash && Ascii.eqb v "u" then
                                  match hex4 l1 l2 l3 l4 with
                                  | Some lo =>
                                      if ((56320 <=? lo) && (lo <=? 57343))%N
                                      then prepend
                                             (utf8 (65536 + (u - 55296) * 1024
                                                    + (lo - 56320))%N)
                                             (text r3)
                                      else None
                                  | None => None
                                  end
                                else None
                            | _ => None
                            end
                          else if ((56320 <=? u) && (u <=? 57343))%N then None
                          else prepend (utf8 u) (text r2)
                      end
                  | _ => None
                  end
                else None
            end
        end
      else if (nat_of_ascii c <? 32)%nat then None
      else prepend (String c "") (text r)
  end.

Definition digit (c : ascii) : option Z :=
  let n := Z.of_nat (nat_of_ascii c) in
  if (48 <=? n) && (n <=? 57) then Some (n - 48) else None.

(** The leading digits of a text: how many, their value, and the rest. *)
Fixpoint digits (count : nat) (acc : Z) (s : string) : nat * Z * string :=
  match s with
  | String c r =>
      match digit c with
      | Some d => digits (S count) (acc * 10 + d) r
      | None => (count, acc, s)
      end
  | EmptyString => (count, acc, s)
  end.

Definition unsigned (s : string) : option (Z * string) :=
  match s with
  | String c r =>
      match digit c with
      | None => None
      | Some d =>
          let '(count, n, rest) := digits 0 0 s in
          let whole :=
            match rest with
            | String x _ =>
                negb (Ascii.eqb x "." || Ascii.eqb x "e" || Ascii.eqb x "E")
            | EmptyString => true
            end in
          if ((d =? 0) && negb (count =? 1)%nat) || negb whole then None
          else Some (n, rest)
      end
  | EmptyString => None
  end.

Definition number (s : string) : option (json * string) :=
  match s with
  | String c r =>
      if Ascii.eqb c "-"
      then option_map (fun p => (JNum (- fst p), snd p)) (unsigned r)
      else option_map (fun p => (JNum (fst p), snd p)) (unsigned s)
  | EmptyString => None
  end.

Fixpoint after (word s : string) : option string :=
  match word, s with
  | EmptyString, _ => Some s
  | String a w, String b r => if Ascii.eqb a b then after w r else None
  | String _ _, EmptyString => None
  end.

Definition has_member (k : string) (ms : list (string * json)) : bool :=
  existsb (fun m => String.eqb (fst m) k) ms.

Fixpoint value (fuel : nat) (s : string) {struct fuel} : option (json * string) :=
  match fuel with
  | O => None
  | S f =>
      match skip_ws s with
      | EmptyString => None
      | String c r =>
          if Ascii.eqb c "[" then
            match skip_ws r with
            | EmptyString => None
            | String d r' =>
                if Ascii.eqb d "]" then Some (JArr [], r')
                else option_map (fun p => (JArr (fst p), snd p)) (elements f r)
            end
          else if Ascii.eqb c "{" then
            match skip_ws r with
            | EmptyString => None
            | String d r' =>
                if Ascii.eqb d "}" then Some (JObj [], r')
                else option_map (fun p => (JObj (fst p), snd p)) (members f r)
            end
          else if Ascii.eqb c quote
          then option_map (fun p => (JStr (fst p), snd p)) (text r)
          else
            match after "null" (String c r), after "true" (String c r),
                  after "false" (String c r) with
            | Some rest, _, _ => Some (JNull, rest)
            | _, Some rest, _ => Some (JBool true, rest)
            | _, _, Some rest => Some (JBool false, rest)
            | None, None, None => number (String c r)
            end
      end
  end
with elements (fuel : nat) (s : string) {struct fuel}
    : option (list json * string) :=
  match fuel with
  | O => None
  | S f =>
      match value f s with
      | None => None
      | Some (v, r) =>
          match skip_ws r with
          | EmptyString => None
          | String c r' =>
              if Ascii.eqb c "," then
                option_map (fun p => (v :: fst p, snd p)) (elements f r')
              else if Ascii.eqb c "]" then Some ([v], r')
              else None
          end
      end
  end
with members (fuel : nat) (s : string) {struct fuel}
    : option (list (string * json) * string) :=
  match fuel with
  | O => None
  | S f =>
      match skip_ws s with
      | EmptyString => None
      | String q r =>
          if negb (Ascii.eqb q quote) then None
          else
            match text r with
            | None => None
            | Some (k, r1) =>
                match skip_ws r1 with
                | EmptyString => None
                | String c r2 =>
                    if negb (Ascii.eqb c ":") then None
                    else
                      match value f r2 with
                      | None => None
                      | Some (v, r3) =>
                          match skip_ws r3 with
                          | EmptyString => None
                          | String d r4 =>
                              if Ascii.eqb d "," then
                                option_map
                                  (fun p =>
                                     (if has_member k (fst p) then fst p
                                      else (k, v) :: fst p, snd p))
                                  (members f r4)
                              else if Ascii.eqb d "}" then Some ([(k, v)], r4)
                              else None
                          end
                      end
                end
            end
      end
  end.

Definition jsonb_in (s : string) : option json :=
  match value (2 * String.length s + 2) s with
  | Some (j, rest) =>
      match skip_ws rest with
      | EmptyString => Some j
      | String _ _ => None
      end
  | None => None
  end.

End Jsonb.

Module Pg.

(** [INTEGER]: 32-bit signed. *)
Definition int4_ok (n : Z) : bool := (-2147483648 <=? n) && (n <=? 2147483647).

Definition int4 (v : option Z) : result (option Z) :=
  match v with
  | Some n => if int4_ok n then Done v else Raise numeric_value_out_of_range
  | None => Done None
  end.

(** [VARCHAR(n)] *)
Definition varchar (n : nat) (v : option string) : result (option string) :=
  match v with
  | Some s => if (String.length s <=? n)%nat then Done v
              else Raise string_data_right_truncation
  | None => Done None
  end.

(** [TIME]: minutes after midnight, [00:00] to [24:00]. *)
Definition time_ok (t : Z) : bool := (0 <=? t) && (t <=? 1440).

Definition time (v : option Z) : result (option Z) :=
  match v with
  | Some t => if time_ok t then Done v else Raise datetime_field_overflow
  | None => Done None
  end.

Definition not_null {A} (column : string) (v : option A) : result A :=
  match v with
  | Some a => Done a
  | None => Raise (not_null_violation column)
  end.

(** A [CHECK (col IN (...))] constraint: satisfied by [NULL]. *)
Definition check_in (allowed : list string) (v : option string) : bool :=
  match v with
  | Some s => existsb (String.eqb s) allowed
  | None => true
  end.

End Pg.

(** Clock time [hh:mm] as minutes after midnight. *)
Definition hm (h m : Z) : Z := h * 60 + m.

(** ** Rows *)

Record user : Type := mk_user {
  u_id : Z;
  u_name : string;
  u_email : string;
  u_phone : option string;
  u_password_hash : string;
  u_role : string;
  u_department : option string;
  u_status : option string;
  u_avatar : option string;
  u_created_at : Z;
  u_updated_at : Z
}.

Record parking_lot : Type := mk_lot {
  l_id : Z;
  l_name : string;
  l_rows : Z;
  l_cols : Z;
  l_spaces : option json;
  l_merged_aisles : option json;
  l_created_at : Z;
  l_updated_at : Z
}.

Record spot : Type := mk_spot {
  sp_id : Z;
  sp_parking_lot_id : option Z;
  sp_spot_number : string;
  sp_row_number : option Z;
  sp_col_number : option Z;
  sp_status : option string
}.

Record schedule : Type := mk_schedule {
  s_id : Z;
  s_user_id : option Z;
  s_parking_lot_id : option Z;
  s_spot_number : option string;
  s_start_time : Z;
  s_end_time : Z;
  s_date : Z;
  s_is_recurring : option bool;
  s_recurring_days : option json;
  s_location : option string;
  s_parking_lot : option string;
  s_status : option string;
  s_created_at : Z;
  s_updated_at : Z
}.

(** ** Tables and sequences *)

Record store : Type := mk_store {
  users : list user;
  parking_lots : list parking_lot;
  spots : list spot;
  schedules : list schedule;
  users_id_seq : Z;
  parking_lots_id_seq : Z;
  schedules_id_seq : Z
}.

Definition empty_store : store := mk_store [] [] [] [] 1 1 1.

(** What a request sees of its surroundings: [CURRENT_TIMESTAMP], and
    [bcrypt.hash(_, 10)] with the salt it draws. *)
Record env : Type := mk_env {
  now : Z;
  bcrypt_hash : string -> string
}.

Definition set_users (s : store) (us : list user) (next : Z) : store :=
  mk_store us (parking_lots s) (spots s) (schedules s)
           next (parking_lots_id_seq s) (schedules_id_seq s).

Definition set_parking_lots (s : store) (ls : list parking_lot) (next : Z) : store :=
  mk_store (users s) ls (spots s) (schedules s)
           (users_id_seq s) next (schedules_id_seq s).

Definition set_schedules (s : store) (ss : list schedule) (next : Z) : store :=
  mk_store (users s) (parking_lots s) (spots s) ss
           (users_id_seq s) (parking_lots_id_seq s) next.

(** The [CHECK (... IN (...))] lists of the schema: [schedules.status],
    [users.status], and [users.role] as the schema with a [password_hash]
    column (the one the pg-promise service writes to) has it. *)
Definition status_values : list string := ["pending"; "active"; "completed"; "cancelled"].
Definition user_status_values : list string := ["active"; "inactive"].
Definition role_values : list string := ["admin"; "user"].

(** [REFERENCES t(id)]: [NULL] or the key of a row. *)
Definition references {R} (key : R -> Z) (table : list R) (v : option Z) : bool :=
  match v with
  | Some k => existsb (fun r => key r =? k) table
  | None => true
  end.

Definition has_key {R} (key : R -> Z) (table : list R) (k : Z) : bool :=
  existsb (fun r => key r =? k) table.

(* ================================================================== *)
(** * pg-promise: named parameters of a query text *)
(* ================================================================== *)

(** [db.one(query, values)] with an object for [values] rewrites the query
    text before it is sent: every occurrence of [$*name*], where [* *] is
    one of the pairs [{}], [()], [<>], [[]], [//] and [name] is made of
    letters, digits, [$], [_] and [.], is replaced by the formatted
    property [values.name]; a name that is not a property of [values]
    makes the call throw.  Text that is not of that shape is left as it
    is and reaches the server.  Formatting filters ([:json], [^], ...) are
    not used by the service and are not modelled. *)
Module PgPromise.

Inductive segment : Type :=
| Text (c : ascii)
| Named (name : string).

Definition closing (o : ascii) : option ascii :=
  if Ascii.eqb o "{" then Some "}"%char
  else if Ascii.eqb o "(" then Some ")"%char
  else if Ascii.eqb o "<" then Some ">"%char
  else if Ascii.eqb o "[" then Some "]"%char
  else if Ascii.eqb o "/" then Some "/"%char
  else None.

Definition is_digit (c : ascii) : bool :=
  let n := nat_of_ascii c in ((48 <=? n) && (n <=? 57))%nat.

Definition is_name_char (c : ascii) : bool :=
  let n := nat_of_ascii c in
  (((97 <=? n) && (n <=? 122)) || ((65 <=? n) && (n <=? 90))
   || ((48 <=? n) && (n <=? 57)))%nat
  || Ascii.eqb c "$" || Ascii.eqb c "_" || Ascii.eqb c ".".

Definition is_space (c : ascii) : bool :=
  let n := nat_of_ascii c in
  ((n =? 32) || ((9 <=? n) && (n <=? 13)))%nat.

(** Longest prefix of characters satisfying [p], and what follows it. *)
Fixpoint span (p : ascii -> bool) (l : list ascii) : list ascii * list ascii :=
  match l with
  | c :: r => if p c then let (a, b) := span p r in (c :: a, b) else ([], l)
  | [] => ([], [])
  end.

(** A placeholder at the head of [l]: its name and the number of
    characters it spans. *)
Definition placeholder (l : list ascii) : option (string * nat) :=
  match l with
  | d :: o :: r =>
      if Ascii.eqb d "$" then
        match closing o with
        | Some cl =>
            let (w1, r1) := span is_space r in
            let (nm, r2) := span is_name_char r1 in
            let (w2, r3) := span is_space r2 in
            match nm, r3 with
            | _ :: _, c :: _ =>
                if Ascii.eqb c cl
                then Some (string_of_list_ascii nm,
                           (3 + List.length w1 + List.length nm + List.length w2)%nat)
                else None
            | _, _ => None
            end
        | None => None
        end
      else None
  | _ => None
  end.

(** Left-to-right scan; [skip] counts the characters of a placeholder
    still to be passed over. *)
Fixpoint scan (skip : nat) (l : list ascii) : list segment :=
  match l with
  | [] => []
  | c :: r =>
      match skip with
      | S k => scan k r
      | O =>
          match placeholder l with
          | Some (name, len) => Named name :: scan (len - 1) r
          | None => Text c :: scan 0 r
          end
      end
  end.

Definition namedParameters (query : string) : list segment :=
  scan 0 (list_ascii_of_string query).

Fixpoint names (l : list segment) : list string :=
  match l with
  | Named n :: r => n :: names r
  | Text _ :: r => names r
  | [] => []
  end.

(** What the server's lexer makes of the text that is left: outside a
    quoted literal a [$] must start a positional parameter [$n] (the
    service's queries contain no dollar-quoted strings). *)
Fixpoint stray_dollar (quoted : bool) (l : list segment) : bool :=
  match l with
  | [] => false
  | Named _ :: r => stray_dollar quoted r
  | Text c :: r =>
      if Ascii.eqb c "'" then stray_dollar (negb quoted) r
      else if Ascii.eqb c "$" && negb quoted then
        match r with
        | Text d :: _ => if is_digit d then stray_dollar quoted r else true
        | _ => true
        end
      else stray_dollar quoted r
  end.

(** The properties of the object given for [values], as a table from
    names to [true] (own property) or [false] (absent). *)
Definition has_own (props : list (string * bool)) (name : string) : bool :=
  match find (fun p => String.eqb (fst p) name) props with
  | Some p => snd p
  | None => false
  end.

(** [{ prop: obj }]: the name [prop.x] resolves when [x] does in [obj]. *)
Definition nested (prop : string) (has : string -> bool) (name : string) : bool :=
  let p := prop ++ "." in
  prefix p name
  && has (substring (String.length p) (String.length name - String.length p) name).

(** Formatting [query] with an object whose properties are told by [has],
    then parsing it on the server. *)
Definition prepare (query : string) (has : string -> bool) : result unit :=
  let segs := namedParameters query in
  match find (fun n => negb (has n)) (names segs) with
  | Some n => Raise (property_missing n)
  | None => guard (negb (stray_dollar false segs)) syntax_error
  end.

(** [db.oneOrNone]: no row gives [null], one row gives the row, more
    rows make the call throw. *)
Definition oneOrNone {A} (rows : list A) : result (option A) :=
  match rows with
  | [] => Done None
  | [r] => Done (Some r)
  | _ => Raise query_result_error
  end.

(** [db.one]: exactly one row. *)
Definition one {A} (rows : list A) : result A :=
  match rows with
  | [r] => Done r
  | _ => Raise query_result_error
  end.

(** ** A property in the place of a [JSONB] column

    pg-promise writes a property into the query text by its JavaScript
    type, and PostgreSQL types the expression it finds there:
    - [null] and [undefined] are written [null];
    - a number or a boolean is written bare, an expression of type
      [integer], [numeric] or [boolean], which the column does not take;
    - a string is written as a quoted literal, which the server reads as
      the text of a document;
    - an array is written [array[...]], an expression of an array type,
      which the column does not take; the empty array is written ['{}'],
      the text of the empty object;
    - any other object is written as the quoted text of
      [JSON.stringify], which denotes the object itself.
    The statement is refused before it runs when the expression does not
    fit the column. *)
Definition as_jsonb (v : option json) : result (option json) :=
  match v with
  | None => Done None
  | Some JNull => Done None
  | Some (JBool _) => Raise datatype_mismatch
  | Some (JNum _) => Raise datatype_mismatch
  | Some (JStr s) =>
      match Jsonb.jsonb_in s with
      | Some document => Done (Some document)
      | None => Raise invalid_text_representation
      end
  | Some (JArr []) => Done (Some (JObj []))
  | Some (JArr (_ :: _)) => Raise datatype_mismatch
  | Some (JObj props) => Done (Some (JObj props))
  end.

End PgPromise.

(* ================================================================== *)
(** * Requests and responses *)
(* ================================================================== *)

Record lot_body : Type := mk_lot_body {
  lb_name : field string;
  lb_rows : field Z;
  lb_cols : field Z;
  lb_spaces : field json;
  lb_mergedAisles : field json;      (* the key [server.js] reads *)
  lb_merged_aisles : field json      (* the key the pg-promise service reads *)
}.

Record schedule_body : Type := mk_schedule_body {
  sb_user_id : field Z;
  sb_parking_lot_id : field Z;
  sb_spot_number : field string;
  sb_start_time : field Z;
  sb_end_time : field Z;
  sb_date : field Z;
  sb_location : field string;
  sb_parking_lot : field string;
  sb_is_recurring : field bool;
  sb_recurring_days : field json;
  sb_status : field string
}.

Record user_body : Type := mk_user_body {
  ub_name : field string;
  ub_email : field string;
  ub_phone : field string;
  ub_password : field string;
  ub_role : field string;
  ub_department : field string;
  ub_status : field string;
  ub_avatar : field string
}.

(** The columns the user queries of the pg-promise service return. *)
Record user_view : Type := mk_user_view {
  v_id : Z;
  v_name : string;
  v_email : string;
  v_phone : option string;
  v_role : string;
  v_department : option string;
  v_status : option string;
  v_avatar : option string;
  v_created_at : Z
}.

Definition view (u : user) : user_view :=
  mk_user_view (u_id u) (u_name u) (u_email u) (u_phone u) (u_role u)
               (u_department u) (u_status u) (u_avatar u) (u_created_at u).

Inductive payload : Type :=
| RowId (id : Z)
| LotRow (row : parking_lot)
| ScheduleRow (row : schedule)
| UserRow (row : user_view).

Inductive response : Type :=
| Reply (status : Z) (data : payload)
| Fail (status : Z) (message : string) (details : option db_error)
| SendStatus (status : Z).

Definition code (r : response) : Z :=
  match r with
  | Reply c _ => c
  | Fail c _ _ => c
  | SendStatus c => c
  end.

(** The decision a caller observes: the status code and, when the request
    is refused, the message and the error the response carries. *)
Definition decision (r : response) : Z * option (string * option db_error) :=
  match r with
  | Reply c _ => (c, None)
  | Fail c m d => (c, Some (m, d))
  | SendStatus c => (c, None)
  end.

(* ================================================================== *)
(** * The SQL statements *)
(* ================================================================== *)

(** A statement runs in three stages.  Its arguments are first read as
    values of the column types; a failure there leaves everything as it
    was.  An [INSERT] then draws the row's id from the sequence, which
    stays advanced even if the row is refused.  Last come the row's
    constraints. *)

(** [INSERT INTO parking_lots (name, rows, cols, spaces, merged_aisles)
     VALUES (...) RETURNING ...] *)
Definition insert_into_parking_lots (e : env) (s : store)
    (name : option string) (rows cols : option Z)
    (spaces merged_aisles : option json) : result parking_lot * store :=
  match (Pg.varchar 255 name ;;; Pg.int4 rows ;;; Pg.int4 cols ;;; Done tt) with
  | Raise err => (Raise err, s)
  | Done _ =>
      let id := parking_lots_id_seq s in
      let s1 := set_parking_lots s (parking_lots s) (id + 1) in
      match (n <- Pg.not_null "name" name ;;
             r <- Pg.not_null "rows" rows ;;
             c <- Pg.not_null "cols" cols ;;
             guard (negb (has_key l_id (parking_lots s) id))
                   (unique_violation "parking_lots_pkey") ;;;
             Done (mk_lot id n r c spaces merged_aisles (now e) (now e))) with
      | Raise err => (Raise err, s1)
      | Done row => (Done row, set_parking_lots s (parking_lots s ++ [row]) (id + 1))
      end
  end.

(** [UPDATE parking_lots SET name, rows, cols, spaces, merged_aisles
     WHERE id = ... RETURNING ...]; [updated_at] is refreshed (by the
    statement itself in [server.js], by the table's trigger otherwise). *)
Definition update_parking_lots (e : env) (s : store) (id : Z)
    (name : option string) (rows cols : option Z)
    (spaces merged_aisles : option json) : result (list parking_lot) * store :=
  match (Pg.int4 (Some id) ;;; Pg.varchar 255 name ;;;
         Pg.int4 rows ;;; Pg.int4 cols ;;; Done tt) with
  | Raise err => (Raise err, s)
  | Done _ =>
      if negb (has_key l_id (parking_lots s) id) then (Done [], s)
      else
        match (n <- Pg.not_null "name" name ;;
               r <- Pg.not_null "rows" rows ;;
               c <- Pg.not_null "cols" cols ;;
               Done (fun old : parking_lot =>
                       mk_lot (l_id old) n r c spaces merged_aisles
                              (l_created_at old) (now e))) with
        | Raise err => (Raise err, s)
        | Done upd =>
            let table :=
              map (fun l => if l_id l =? id then upd l else l) (parking_lots s) in
            (Done (filter (fun l => l_id l =? id) table),
             set_parking_lots s table (parking_lots_id_seq s))
        end
  end.

(** [INSERT INTO schedules (user_id, parking_lot_id, spot_number,
     start_time, end_time, date, location, parking_lot, is_recurring,
     recurring_days, status) VALUES (...) RETURNING ...] *)
Definition insert_into_schedules (e : env) (s : store)
    (user_id parking_lot_id : option Z) (spot_number : option string)
    (start_time end_time date : option Z)
    (location parking_lot : option string)
    (is_recurring : option bool) (recurring_days : option json)
    (status : option string) : result schedule * store :=
  match (Pg.int4 user_id ;;; Pg.int4 parking_lot_id ;;;
         Pg.varchar 50 spot_number ;;;
         Pg.time start_time ;;; Pg.time end_time ;;;
         Pg.varchar 255 location ;;; Pg.varchar 100 parking_lot ;;;
         Pg.varchar 50 status ;;; Done tt) with
  | Raise err => (Raise err, s)
  | Done _ =>
      let id := schedules_id_seq s in
      let s1 := set_schedules s (schedules s) (id + 1) in
      match (st <- Pg.not_null "start_time" start_time ;;
             en <- Pg.not_null "end_time" end_time ;;
             d <- Pg.not_null "date" date ;;
             guard (Pg.check_in status_values status)
                   (check_violation "schedules_status_check") ;;;
             guard (negb (has_key s_id (schedules s) id))
                   (unique_violation "schedules_pkey") ;;;
             guard (references u_id (users s) user_id)
                   (foreign_key_violation "schedules_user_id_fkey") ;;;
             guard (references l_id (parking_lots s) parking_lot_id)
                   (foreign_key_violation "schedules_parking_lot_id_fkey") ;;;
             Done (mk_schedule id user_id parking_lot_id spot_number st en d
                               is_recurring recurring_days location parking_lot
                               status (now e) (now e))) with
      | Raise err => (Raise err, s1)
      | Done row => (Done row, set_schedules s (schedules s ++ [row]) (id + 1))
      end
  end.

(** [DELETE FROM schedules WHERE id = ... RETURNING id] *)
Definition delete_from_schedules (s : store) (id : Z) : result (list Z) * store :=
  match Pg.int4 (Some id) with
  | Raise err => (Raise err, s)
  | Done _ =>
      (Done (map s_id (filter (fun r => s_id r =? id) (schedules s))),
       set_schedules s (filter (fun r => negb (s_id r =? id)) (schedules s))
                     (schedules_id_seq s))
  end.

(** [SELECT id, name, email, phone, role, department, status, avatar,
     created_at FROM users WHERE id = ...] *)
Definition select_users_by_id (s : store) (id : Z) : result (list user_view) :=
  Pg.int4 (Some id) ;;;
  Done (map view (filter (fun u => u_id u =? id) (users s))).

(** [SELECT id FROM users WHERE email = $1] *)
Definition select_id_by_email (s : store) (email : option string) : result (list Z) :=
  match email with
  | Some m => Done (map u_id (filter (fun u => String.eqb (u_email u) m) (users s)))
  | None => Done []
  end.

(** [INSERT INTO users(name, email, phone, password_hash, role, department,
     status, avatar) VALUES (...) RETURNING ...] *)
Definition insert_into_users (e : env) (s : store)
    (name email phone password_hash role department status avatar : option string)
    : result user * store :=
  match (Pg.varchar 255 name ;;; Pg.varchar 255 email ;;; Pg.varchar 50 phone ;;;
         Pg.varchar 50 role ;;; Pg.varchar 100 department ;;;
         Pg.varchar 50 status ;;; Done tt) with
  | Raise err => (Raise err, s)
  | Done _ =>
      let id := users_id_seq s in
      let s1 := set_users s (users s) (id + 1) in
      match (n <- Pg.not_null "name" name ;;
             m <- Pg.not_null "email" email ;;
             h <- Pg.not_null "password_hash" password_hash ;;
             r <- Pg.not_null "role" role ;;
             guard (Pg.check_in role_values role)
                   (check_violation "users_role_check") ;;;
             guard (Pg.check_in user_status_values status)
                   (check_violation "users_status_check") ;;;
             guard (negb (has_key u_id (users s) id))
                   (unique_violation "users_pkey") ;;;
             guard (negb (existsb (fun u => String.eqb (u_email u) m) (users s)))
                   (unique_violation "users_email_key") ;;;
             Done (mk_user id n m phone h r department status avatar
                           (now e) (now e))) with
      | Raise err => (Raise err, s1)
      | Done row => (Done row, set_users s (users s ++ [row]) (id + 1))
      end
  end.

(** [UPDATE users SET status = ... WHERE id = ... RETURNING id]; the
    table's trigger refreshes [updated_at]. *)
Definition with_status (e : env) (status : option string) (u : user) : user :=
  mk_user (u_id u) (u_name u) (u_email u) (u_phone u) (u_password_hash u)
          (u_role u) (u_department u) status (u_avatar u)
          (u_created_at u) (now e).

Definition update_users_status (e : env) (s : store) (id : Z)
    (status : option string) : result (list Z) * store :=
  match (Pg.int4 (Some id) ;;; Pg.varchar 50 status ;;; Done tt) with
  | Raise err => (Raise err, s)
  | Done _ =>
      if negb (has_key u_id (users s) id) then (Done [], s)
      else if negb (Pg.check_in user_status_values status)
      then (Raise (check_violation "users_status_check"), s)
      else
        let table :=
          map (fun u => if u_id u =? id then with_status e status u else u)
              (users s) in
        (Done (map u_id (filter (fun u => u_id u =? id) table)),
         set_users s table (users_id_seq s))
  end.

(* ================================================================== *)
(** * Express routing *)
(* ================================================================== *)

Module Router.

Inductive method : Type := GET | POST | PUT | PATCH | DELETE.

Definition method_eqb (a b : method) : bool :=
  match a, b with
  | GET, GET | POST, POST | PUT, PUT | PATCH, PATCH | DELETE, DELETE => true
  | _, _ => false
  end.

(** A path as its non-empty segments: [/api/users/7] is
    [["api"; "users"; "7"]]. *)
Fixpoint split_path (acc : string) (p : string) : list string :=
  match p with
  | EmptyString => if String.eqb acc "" then [] else [acc]
  | String c r =>
      if Ascii.eqb c "/"
      then (if String.eqb acc "" then [] else [acc]) ++ split_path "" r
      else split_path (acc ++ String c EmptyString) r
  end.

Definition is_param (seg : string) : bool :=
  match seg with
  | String c _ => Ascii.eqb c ":"
  | EmptyString => false
  end.

(** One segment of a route against one segment of the request path: a
    [:name] segment takes any non-empty text, a literal is compared
    without regard to case. *)
Definition segment_matches (pat seg : string) : bool :=
  if is_param pat then negb (String.eqb seg "")
  else String.eqb (toLowerCase pat) (toLowerCase seg).

Fixpoint segments_match (pat path : list string) : bool :=
  match pat, path with
  | [], [] => true
  | p :: pat', s :: path' => segment_matches p s && segments_match pat' path'
  | _, _ => false
  end.

Definition route_matches (m : method) (path : list string)
    (r : method * string) : bool :=
  let pat := split_path "" (snd r) in
  method_eqb m (fst r)
  && (List.length pat =? List.length path)%nat
  && segments_match pat path.

(** The first registered route that takes the request, if any. *)
Definition lookup (routes : list (method * string)) (m : method)
    (path : list string) : option (method * string) :=
  find (route_matches m path) routes.

End Router.
Import Router.

(* ================================================================== *)
(** * [server.js]: the node-postgres server *)
(* ================================================================== *)

Module Server.

Definition routes : list (method * string) :=
  [ (GET, "/"); (GET, "/api/health");
    (GET, "/api/parking-lots"); (GET, "/api/parking-lots/:id");
    (POST, "/api/parking-lots"); (PUT, "/api/parking-lots/:id");
    (DELETE, "/api/parking-lots/:id");
    (GET, "/api/users"); (GET, "/api/users/:id"); (POST, "/api/users");
    (PUT, "/api/users/:id");
    (GET, "/api/schedules"); (POST, "/api/schedules");
    (GET, "/api/issues"); (POST, "/api/issues");
    (PATCH, "/api/issues/:id"); (DELETE, "/api/issues/:id") ].

(** [app.use((req, res) => res.status(404).json(...))], reached when no
    route takes the request. *)
Definition notFound (s : store) : response * store :=
  (Fail 404 "Route not found" None, s).

Definition unrouted (m : method) (path : list string) (s : store)
    : option (response * store) :=
  match lookup routes m path with
  | Some _ => None
  | None => Some (notFound s)
  end.

(** [JSON.stringify(x)] as a query argument: [undefined] stays
    [undefined] and is sent as [NULL]; [null] becomes the document
    [null]. *)
Definition stringify (f : field json) : option json :=
  match f with
  | Absent => None
  | Null => Some JNull
  | Val j => Some j
  end.

(** [app.post('/api/parking-lots', ...)] *)
Definition post_parking_lots (e : env) (s : store) (b : lot_body)
    : response * store :=
  if negb (truthy_string (lb_name b)) || negb (truthy_number (lb_rows b))
     || negb (truthy_number (lb_cols b))
  then (Fail 400 "Name, rows, and cols are required" None, s)
  else
    match insert_into_parking_lots e s
            (to_sql (lb_name b)) (to_sql (lb_rows b)) (to_sql (lb_cols b))
            (Some (or_json (lb_spaces b) (JArr [])))
            (Some (or_json (lb_mergedAisles b) (JArr []))) with
    | (Done row, s') => (Reply 201 (LotRow row), s')
    | (Raise err, s') => (Fail 500 "Failed to create parking lot" (Some err), s')
    end.

(** [app.put('/api/parking-lots/:id', ...)] *)
Definition put_parking_lots_id (e : env) (s : store) (id : Z) (b : lot_body)
    : response * store :=
  match update_parking_lots e s id
          (to_sql (lb_name b)) (to_sql (lb_rows b)) (to_sql (lb_cols b))
          (stringify (lb_spaces b)) (stringify (lb_mergedAisles b)) with
  | (Done [], s') => (Fail 404 "Parking lot not found" None, s')
  | (Done (row :: _), s') => (Reply 200 (LotRow row), s')
  | (Raise err, s') => (Fail 500 "Failed to update parking lot" (Some err), s')
  end.

(** [app.post('/api/schedules', ...)] *)
Definition post_schedules (e : env) (s : store) (b : schedule_body)
    : response * store :=
  match insert_into_schedules e s
          (to_sql (sb_user_id b)) (to_sql (sb_parking_lot_id b))
          (to_sql (sb_spot_number b))
          (to_sql (sb_start_time b)) (to_sql (sb_end_time b)) (to_sql (sb_date b))
          (to_sql (sb_location b)) (to_sql (sb_parking_lot b))
          (to_sql (sb_is_recurring b))
          (if truthy_json (sb_recurring_days b)
           then to_sql (sb_recurring_days b) else None)
          (Some "pending") with
  | (Done row, s') => (Reply 201 (ScheduleRow row), s')
  | (Raise err, s') => (Fail 500 "Failed to create schedule" (Some err), s')
  end.

End Server.

(* ================================================================== *)
(** * The pg-promise service *)
(* ================================================================== *)

Module Service.

Definition routes : list (method * string) :=
  [ (GET, "/"); (GET, "/health"); (POST, "/api/login");
    (GET, "/api/users"); (GET, "/api/users/:id");
    (GET, "/api/users/email/:email"); (POST, "/api/users");
    (PUT, "/api/users/:id"); (DELETE, "/api/users/:id");
    (GET, "/api/vehicles"); (GET, "/api/vehicles/user/:userId");
    (GET, "/api/vehicles/:id"); (POST, "/api/vehicles");
    (PUT, "/api/vehicles/:id"); (DELETE, "/api/vehicles/:id");
    (GET, "/api/parking-lots"); (GET, "/api/parking-lots/:id");
    (POST, "/api/parking-lots"); (PUT, "/api/parking-lots/:id");
    (DELETE, "/api/parking-lots/:id");
    (GET, "/api/schedules"); (GET, "/api/schedules/user/:userId");
    (GET, "/api/schedules/lot/:lotId"); (GET, "/api/schedules/:id");
    (POST, "/api/schedules"); (PUT, "/api/schedules/:id");
    (DELETE, "/api/schedules/:id");
    (GET, "/api/issues"); (GET, "/api/issues/unread");
    (GET, "/api/issues/status/:status"); (GET, "/api/issues/:id");
    (POST, "/api/issues"); (PUT, "/api/issues/:id");
    (PATCH, "/api/issues/:id/read"); (DELETE, "/api/issues/:id") ].

Definition notFound (s : store) : response * store :=
  (Fail 404 "Endpoint not found" None, s).

Definition unrouted (m : method) (path : list string) (s : store)
    : option (response * store) :=
  match lookup routes m path with
  | Some _ => None
  | None => Some (notFound s)
  end.

(** ** Utility functions *)

Definition returnDataOr404 (data : option payload) : response :=
  match data with
  | None => SendStatus 404
  | Some d => Reply 200 d
  end.

(** The global error handler, which [next(error)] reaches. *)
Definition globalErrorHandler : response :=
  Fail 500 "Internal server error" None.

Definition handleError (next : bool) : response :=
  if next then globalErrorHandler
  else Fail 500 "Database operation failed" None.

(** The own properties of the objects handed to the queries. *)
Definition params : string -> bool := PgPromise.has_own [("id", true)].

Definition lot_props (b : lot_body) : string -> bool :=
  PgPromise.has_own
    [ ("name", present (lb_name b)); ("rows", present (lb_rows b));
      ("cols", present (lb_cols b)); ("spaces", present (lb_spaces b));
      ("mergedAisles", present (lb_mergedAisles b));
      ("merged_aisles", present (lb_merged_aisles b)) ].

Definition schedule_props (b : schedule_body) : string -> bool :=
  PgPromise.has_own
    [ ("user_id", present (sb_user_id b));
      ("parking_lot_id", present (sb_parking_lot_id b));
      ("spot_number", present (sb_spot_number b));
      ("start_time", present (sb_start_time b));
      ("end_time", present (sb_end_time b));
      ("date", present (sb_date b));
      ("location", present (sb_location b));
      ("parking_lot", present (sb_parking_lot b));
      ("is_recurring", present (sb_is_recurring b));
      ("recurring_days", present (sb_recurring_days b));
      ("status", present (sb_status b)) ].

(** [{ id: req.params.id, body: req.body }] *)
Definition id_and_body (body : string -> bool) (name : string) : bool :=
  String.eqb name "id" || PgPromise.nested "body" body name.

(** The object literal [POST /api/users] builds for its [INSERT]. *)
Definition new_user_props : string -> bool :=
  PgPromise.has_own
    [ ("name", true); ("email", true); ("phone", true);
      ("password_hash", true); ("role", true); ("department", true);
      ("status", true); ("avatar", true) ].

(** ** Query texts *)

Definition double_quote : string := String "034"%char EmptyString.

Definition sql_select_user : string :=
  "SELECT id, name, email, phone, role, department, status, avatar, created_at FROM users WHERE id=${id}".

Definition sql_insert_user : string :=
  "INSERT INTO users(name, email, phone, password_hash, role, department, status, avatar) VALUES ($/name/, $/email/, $/phone/, $/password_hash/, $/role/, $/department/, $/status/, $/avatar/) RETURNING id, name, email, phone, role, department, status, avatar, created_at".

Definition sql_delete_user : string :=
  "UPDATE users SET status=${" ++ double_quote ++ "inactive" ++ double_quote
  ++ "} WHERE id=${id} RETURNING id".

Definition sql_insert_parking_lot : string :=
  "INSERT INTO parking_lots(name, rows, cols, spaces, merged_aisles) VALUES (${name}, ${rows}, ${cols}, ${spaces}, ${merged_aisles}) RETURNING id".

Definition sql_update_parking_lot : string :=
  "UPDATE parking_lots SET name=${body.name}, rows=${body.rows}, cols=${body.cols}, spaces=${body.spaces}, merged_aisles=${body.merged_aisles} WHERE id=${id} RETURNING id".

Definition sql_insert_schedule : string :=
  "INSERT INTO schedules(user_id, parking_lot_id, spot_number, start_time, end_time, date, is_recurring, recurring_days, location, parking_lot, status) VALUES (${user_id}, ${parking_lot_id}, ${spot_number}, ${start_time}, ${end_time}, ${date}, ${is_recurring}, ${recurring_days}, ${location}, ${parking_lot}, ${status}) RETURNING id".

Definition sql_delete_schedule : string :=
  "DELETE FROM schedules WHERE id=${id} RETURNING id".

(** ** User endpoints *)

(** [app.get('/api/users/:id', ...)] *)
Definition get_users_id (s : store) (id : Z) : response * store :=
  match (PgPromise.prepare sql_select_user params ;;;
         rows <- select_users_by_id s id ;;
         PgPromise.oneOrNone rows) with
  | Done data => (returnDataOr404 (option_map UserRow data), s)
  | Raise _ => (handleError true, s)
  end.

(** [app.post('/api/users', ...)] *)
Definition post_users (e : env) (s : store) (b : user_body) : response * store :=
  if negb (truthy_string (ub_name b)) || negb (truthy_string (ub_email b))
     || negb (truthy_string (ub_role b)) || negb (truthy_string (ub_password b))
  then (Fail 400 "Missing required fields: name, email, password, and role are required" None, s)
  else
    match (rows <- select_id_by_email s (to_sql (ub_email b)) ;;
           PgPromise.oneOrNone rows) with
    | Raise _ => (handleError true, s)
    | Done (Some _) => (Fail 409 "A user with this email already exists" None, s)
    | Done None =>
        let passwordHash := option_map (bcrypt_hash e) (to_sql (ub_password b)) in
        match PgPromise.prepare sql_insert_user new_user_props with
        | Raise _ => (handleError true, s)
        | Done _ =>
            match insert_into_users e s
                    (to_sql (ub_name b))
                    (option_map toLowerCase (to_sql (ub_email b)))
                    (or_string (ub_phone b) None)
                    passwordHash
                    (to_sql (ub_role b))
                    (or_string (ub_department b) (Some "General"))
                    (or_string (ub_status b) (Some "active"))
                    (or_string (ub_avatar b) None) with
            | (Done row, s') => (Reply 201 (UserRow (view row)), s')
            | (Raise _, s') => (handleError true, s')
            end
        end
    end.

(** [app.delete('/api/users/:id', ...)] *)
Definition delete_users_id (e : env) (s : store) (id : Z) : response * store :=
  match PgPromise.prepare sql_delete_user params with
  | Raise _ => (handleError true, s)
  | Done _ =>
      match update_users_status e s id (Some "inactive") with
      | (Raise _, s') => (handleError true, s')
      | (Done rows, s') =>
          match PgPromise.oneOrNone rows with
          | Done data => (returnDataOr404 (option_map RowId data), s')
          | Raise _ => (handleError true, s')
          end
      end
  end.

(** ** Parking lot endpoints *)

(** What [${spaces}] and [${merged_aisles}] bring to their columns. *)
Definition json_columns (b : lot_body) : result (option json * option json) :=
  spaces <- PgPromise.as_jsonb (to_sql (lb_spaces b)) ;;
  merged_aisles <- PgPromise.as_jsonb (to_sql (lb_merged_aisles b)) ;;
  Done (spaces, merged_aisles).

(** [app.post('/api/parking-lots', ...)] *)
Definition post_parking_lots (e : env) (s : store) (b : lot_body)
    : response * store :=
  match (PgPromise.prepare sql_insert_parking_lot (lot_props b) ;;;
         json_columns b) with
  | Raise _ => (handleError true, s)
  | Done (spaces, merged_aisles) =>
      match insert_into_parking_lots e s
              (to_sql (lb_name b)) (to_sql (lb_rows b)) (to_sql (lb_cols b))
              spaces merged_aisles with
      | (Done row, s') => (Reply 201 (RowId (l_id row)), s')
      | (Raise _, s') => (handleError true, s')
      end
  end.

(** [app.put('/api/parking-lots/:id', ...)] *)
Definition put_parking_lots_id (e : env) (s : store) (id : Z) (b : lot_body)
    : response * store :=
  match (PgPromise.prepare sql_update_parking_lot
           (id_and_body (lot_props b)) ;;;
         json_columns b) with
  | Raise _ => (handleError true, s)
  | Done (spaces, merged_aisles) =>
      match update_parking_lots e s id
              (to_sql (lb_name b)) (to_sql (lb_rows b)) (to_sql (lb_cols b))
              spaces merged_aisles with
      | (Raise _, s') => (handleError true, s')
      | (Done rows, s') =>
          match PgPromise.oneOrNone rows with
          | Done data =>
              (returnDataOr404 (option_map (fun l => RowId (l_id l)) data), s')
          | Raise _ => (handleError true, s')
          end
      end
  end.

(** ** Schedule endpoints *)

(** [app.post('/api/schedules', ...)] *)
Definition post_schedules (e : env) (s : store) (b : schedule_body)
    : response * store :=
  match (PgPromise.prepare sql_insert_schedule (schedule_props b) ;;;
         PgPromise.as_jsonb (to_sql (sb_recurring_days b))) with
  | Raise _ => (handleError true, s)
  | Done recurring_days =>
      match insert_into_schedules e s
              (to_sql (sb_user_id b)) (to_sql (sb_parking_lot_id b))
              (to_sql (sb_spot_number b))
              (to_sql (sb_start_time b)) (to_sql (sb_end_time b))
              (to_sql (sb_date b))
              (to_sql (sb_location b)) (to_sql (sb_parking_lot b))
              (to_sql (sb_is_recurring b)) recurring_days
              (to_sql (sb_status b)) with
      | (Done row, s') => (Reply 201 (RowId (s_id row)), s')
      | (Raise _, s') => (handleError true, s')
      end
  end.

(** [app.delete('/api/schedules/:id', ...)] *)
Definition delete_schedules_id (s : store) (id : Z) : response * store :=
  match PgPromise.prepare sql_delete_schedule params with
  | Raise _ => (handleError true, s)
  | Done _ =>
      match delete_from_schedules s id with
      | (Raise _, s') => (handleError true, s')
      | (Done rows, s') =>
          match PgPromise.oneOrNone rows with
          | Done data => (returnDataOr404 (option_map RowId data), s')
          | Raise _ => (handleError true, s')
          end
      end
  end.

End Service.

(* ================================================================== *)
(** * The booking rules of the design document *)
(* ================================================================== *)

(** The design document states its safety rule on the rows of
    [schedules]; these definitions follow its words, to be compared with
    what the handlers do. *)
Module Booking.











End Booking.

(* ================================================================== *)
(** * Store invariants *)
(* ================================================================== *)

Fixpoint distinct {K} (eqb : K -> K -> bool) (l : list K) : bool :=
  match l with
  | [] => true
  | k :: r => negb (existsb (eqb k) r) && distinct eqb r
  end.

Definition below (next : Z) (ids : list Z) : bool :=
  forallb (fun i => i <? next) ids.

(** Primary keys are distinct and were drawn from the table's sequence;
    [users.email] is [UNIQUE]. *)
Definition keys_ok (next : Z) (ids : list Z) : bool :=
  distinct Z.eqb ids && below next ids.

Definition wf (s : store) : bool :=
  keys_ok (users_id_seq s) (map u_id (users s))
  && distinct String.eqb (map u_email (users s))
  && keys_ok (parking_lots_id_seq s) (map l_id (parking_lots s))
  && keys_ok (schedules_id_seq s) (map s_id (schedules s)).

(* ================================================================== *)
(** * A small deployment *)
(* ================================================================== *)

Module Sample.

Definition clock : env := mk_env 29000000 (fun p => "$2b$10$" ++ p).

Definition max_wu : user :=
  mk_user 1 "Max Wu" "max.wu@calvin.edu" (Some "+1-616-555-1234") "$2b$10$h"
          "user" (Some "Operations") (Some "active") None 28000000 28000000.

Definition north_lot : parking_lot :=
  mk_lot 1 "North Lot" 4 10 (Some (JArr [])) (Some (JArr [])) 28000000 28000000.

(** Spot [A40] of the North Lot sits at row 3, column 9. *)
Definition a40 (status : string) : spot :=
  mk_spot 40 (Some 1) "A40" (Some 3) (Some 9) (Some status).

Definition base : store :=
  mk_store [max_wu] [north_lot] [a40 "available"] [] 2 2 1.

(** A booking of [A40] by Max Wu on day 20120. *)
Definition booking (start_time end_time : Z) (status : field string)
    : schedule_body :=
  mk_schedule_body (Val 1) (Val 1) (Val "A40") (Val start_time) (Val end_time)
                   (Val 20120) (Val "North Campus") (Val "North Lot")
                   (Val false) Null status.

(** The same deployment with one stored schedule: spot [A40] is booked
    from 09:00 to 10:30 on day 20120, and the booking is active. *)
Definition booked : store :=
  mk_store [max_wu] [north_lot] [a40 "available"]
    [mk_schedule 1 (Some 1) (Some 1) (Some "A40") (hm 9 0) (hm 10 30) 20120
                 (Some false) None (Some "North Campus") (Some "North Lot")
                 (Some "active") 28900000 28900000]
    2 2 2.

(** Spot [A40] disabled by hand while schedule 1 on it is active. *)
Definition disabled_while_booked : store :=
  mk_store (users booked) (parking_lots booked) [a40 "disabled"]
           (schedules booked) 2 2 2.

(** A sign-up with the required fields and nothing else. *)
Definition new_user (name email : string) : user_body :=
  mk_user_body (Val name) (Val email) Absent (Val "secret") (Val "user")
               Absent Absent Absent.


End Sample.
Import Sample.

(* ================================================================== *)
(** * Auxiliary notions of the statements below *)
(* ================================================================== *)

(** The two 400 messages. *)
Definition missing_fields : string :=
  "Missing required fields: name, email, password, and role are required".

Definition required_message : string := "Name, rows, and cols are required".

(** [name && rows && cols], the guard of [server.js] on a new lot. *)
Definition lot_required (b : lot_body) : bool :=
  truthy_string (lb_name b) && truthy_number (lb_rows b)
  && truthy_number (lb_cols b).

(** The body has every property the service's [INSERT INTO schedules]
    names. *)
Definition schedule_complete (b : schedule_body) : bool :=
  present (sb_user_id b) && present (sb_parking_lot_id b)
  && present (sb_spot_number b) && present (sb_start_time b)
  && present (sb_end_time b) && present (sb_date b)
  && present (sb_is_recurring b) && present (sb_recurring_days b)
  && present (sb_location b) && present (sb_parking_lot b)
  && present (sb_status b).

(** The request with its start and end time exchanged. *)
Definition exchange_times (b : schedule_body) : schedule_body :=
  mk_schedule_body (sb_user_id b) (sb_parking_lot_id b) (sb_spot_number b)
                   (sb_end_time b) (sb_start_time b) (sb_date b)
                   (sb_location b) (sb_parking_lot b) (sb_is_recurring b)
                   (sb_recurring_days b) (sb_status b).

(** What an accepted request of the pg-promise service leaves in a
    [JSONB] column, by the value [f] the body has for it: [NULL] for a
    missing property and for [null], the empty object for the empty
    array, an object as it is, some document for a string.  For a
    number, a boolean or an array with elements there is no such
    request. *)
Definition jsonb_written (f : field json) (column : option json) : Prop :=
  match f with
  | Absent | Null | Val JNull => column = None
  | Val (JArr []) => column = Some (JObj [])
  | Val (JObj props) => column = Some (JObj props)
  | Val (JStr _) => exists document, column = Some document
  | Val (JBool _) | Val (JNum _) | Val (JArr (_ :: _)) => False
  end.


(** Some user has the address [m], letter for letter. *)
Definition stored_email (s : store) (m : string) : bool :=
  existsb (fun u => String.eqb (u_email u) m) (users s).

(** A user row after a soft delete at time [now e]. *)
Definition deactivated (e : env) (u : user) : user :=
  with_status e (Some "inactive") u.

(* ================================================================== *)
(** * Reachable stores *)
(* ================================================================== *)

(** The requests the two applications are modelled for. *)
Inductive request : Type :=
| ServerPostParkingLots (b : lot_body)
| ServerPutParkingLotsId (id : Z) (b : lot_body)
| ServerPostSchedules (b : schedule_body)
| GetUsersId (id : Z)
| PostUsers (b : user_body)
| DeleteUsersId (id : Z)
| PostParkingLots (b : lot_body)
| PutParkingLotsId (id : Z) (b : lot_body)
| PostSchedules (b : schedule_body)
| DeleteSchedulesId (id : Z).

Definition handle (e : env) (s : store) (r : request) : response * store :=
  match r with
  | ServerPostParkingLots b => Server.post_parking_lots e s b
  | ServerPutParkingLotsId id b => Server.put_parking_lots_id e s id b
  | ServerPostSchedules b => Server.post_schedules e s b
  | GetUsersId id => Service.get_users_id s id
  | PostUsers b => Service.post_users e s b
  | DeleteUsersId id => Service.delete_users_id e s id
  | PostParkingLots b => Service.post_parking_lots e s b
  | PutParkingLotsId id b => Service.put_parking_lots_id e s id b
  | PostSchedules b => Service.post_schedules e s b
  | DeleteSchedulesId id => Service.delete_schedules_id s id
  end.

Inductive reachable : store -> Prop :=
| reachable_empty : reachable empty_store
| reachable_step (e : env) (s : store) (r : request) :
    reachable s -> reachable (snd (handle e s r)).

(* ================================================================== *)
(** * Proof automation *)
(* ================================================================== *)

(** Case analysis on the innermost scrutinee of a hypothesis. *)
Ltac break_match_in H :=
  match type of H with
  | context [match ?x with _ => _ end] =>
      lazymatch x with
      | context [match _ with _ => _ end] => fail
      | _ => destruct x eqn:?; cbv beta iota in H
      end
  end.

(** The same on the goal. *)
Ltac break_match :=
  match goal with
  | |- context [match ?x with _ => _ end] =>
      lazymatch x with
      | context [match _ with _ => _ end] => fail
      | _ => destruct x eqn:?; cbv beta iota
      end
  end.

(** Case analysis on the outcome of a statement. *)
Ltac case_insert_schedule r err s1 X :=
  match goal with
  | |- context [insert_into_schedules ?e ?s ?a ?b ?c ?d ?f ?g ?h ?i ?j ?k ?l] =>
      destruct (insert_into_schedules e s a b c d f g h i j k l)
        as [[r|err] s1] eqn:X
  | H : context [insert_into_schedules ?e ?s ?a ?b ?c ?d ?f ?g ?h ?i ?j ?k ?l] |- _ =>
      destruct (insert_into_schedules e s a b c d f g h i j k l)
        as [[r|err] s1] eqn:X
  end.


Ltac case_insert_lot r err s1 X :=
  match goal with
  | |- context [insert_into_parking_lots ?e ?s ?a ?b ?c ?d ?f] =>
      destruct (insert_into_parking_lots e s a b c d f) as [[r|err] s1] eqn:X
  | H : context [insert_into_parking_lots ?e ?s ?a ?b ?c ?d ?f] |- _ =>
      destruct (insert_into_parking_lots e s a b c d f) as [[r|err] s1] eqn:X
  end.

(** Case analysis on what a property brings to a [JSONB] column. *)
Ltac case_as_jsonb v J :=
  match goal with
  | |- context [PgPromise.as_jsonb ?x] =>
      destruct (PgPromise.as_jsonb x) as [v|] eqn:J
  | H : context [PgPromise.as_jsonb ?x] |- _ =>
      destruct (PgPromise.as_jsonb x) as [v|] eqn:J
  end.

Ltac case_json_columns spaces merged_aisles J :=
  match goal with
  | |- context [Service.json_columns ?b] =>
      destruct (Service.json_columns b) as [[spaces merged_aisles]|] eqn:J
  | H : context [Service.json_columns ?b] |- _ =>
      destruct (Service.json_columns b) as [[spaces merged_aisles]|] eqn:J
  end.

Ltac case_update_lot rows err s1 X :=
  match goal with
  | |- context [update_parking_lots ?e ?s ?i ?a ?b ?c ?d ?f] =>
      destruct (update_parking_lots e s i a b c d f) as [[rows|err] s1] eqn:X
  end.

(* ================================================================== *)
(** * The remaining statements *)
(* ================================================================== *)

(** A typed answer, for the endpoints whose data is not one of the
    [payload]s above. *)
Inductive answer (A : Type) : Type :=
| Answer (status : Z) (data : A)
| Refusal (r : response).
Arguments Answer {A} status data.
Arguments Refusal {A} r.

Definition answer_code {A} (a : answer A) : Z :=
  match a with
  | Answer c _ => c
  | Refusal r => code r
  end.

(** [SELECT * FROM parking_lots WHERE id = ...] *)
Definition select_parking_lots_by_id (s : store) (id : Z)
    : result (list parking_lot) :=
  Pg.int4 (Some id) ;;;
  Done (filter (fun l => l_id l =? id) (parking_lots s)).

(** What [ON DELETE SET NULL] does to a schedule of a deleted lot; the
    update fires the table's [updated_at] trigger. *)
Definition detach_lot (e : env) (id : Z) (r : schedule) : schedule :=
  match s_parking_lot_id r with
  | Some k =>
      if k =? id
      then mk_schedule (s_id r) (s_user_id r) None (s_spot_number r)
                       (s_start_time r) (s_end_time r) (s_date r)
                       (s_is_recurring r) (s_recurring_days r) (s_location r)
                       (s_parking_lot r) (s_status r) (s_created_at r) (now e)
      else r
  | None => r
  end.

Definition spot_of_lot (id : Z) (p : spot) : bool :=
  match sp_parking_lot_id p with
  | Some k => k =? id
  | None => false
  end.

(** The store without the lot [id]: the spots of the lot go with it
    ([ON DELETE CASCADE]), its schedules stay and lose their reference
    ([ON DELETE SET NULL]). *)
Definition without_lot (e : env) (s : store) (id : Z) : store :=
  mk_store (users s)
           (filter (fun l => negb (l_id l =? id)) (parking_lots s))
           (filter (fun p => negb (spot_of_lot id p)) (spots s))
           (map (detach_lot e id) (schedules s))
           (users_id_seq s) (parking_lots_id_seq s) (schedules_id_seq s).

(** [DELETE FROM parking_lots WHERE id = ... RETURNING ...] *)
Definition delete_from_parking_lots (e : env) (s : store) (id : Z)
    : result (list parking_lot) * store :=
  match Pg.int4 (Some id) with
  | Raise err => (Raise err, s)
  | Done _ =>
      if negb (has_key l_id (parking_lots s) id) then (Done [], s)
      else (Done (filter (fun l => l_id l =? id) (parking_lots s)),
            without_lot e s id)
  end.

(** [ORDER BY]: the rows sorted by insertion, [first a b] telling that
    [a] may stand before [b] (rows that agree on the sort columns come in
    the order of the table). *)
Fixpoint insert_ordered {A} (first : A -> A -> bool) (r : A) (l : list A)
    : list A :=
  match l with
  | [] => [r]
  | a :: l' => if first r a then r :: l else a :: insert_ordered first r l'
  end.

Fixpoint order_by {A} (first : A -> A -> bool) (l : list A) : list A :=
  match l with
  | [] => []
  | r :: l' => insert_ordered first r (order_by first l')
  end.

(** [ORDER BY date DESC, start_time DESC]: [a] may stand before [b]. *)
Definition later_first (a b : schedule) : bool :=
  (s_date b <? s_date a)
  || ((s_date b =? s_date a) && (s_start_time b <=? s_start_time a)).

Definition order_by_date_time (l : list schedule) : list schedule :=
  order_by later_first l.

(** [SELECT * FROM schedules ORDER BY date DESC, start_time DESC] *)
Definition select_schedules (s : store) : list schedule :=
  order_by_date_time (schedules s).

(** [WHERE user_id = ...] and [WHERE parking_lot_id = ...]: a [NULL]
    column matches no value. *)
Definition of_user (user_id : Z) (r : schedule) : bool :=
  match s_user_id r with
  | Some k => k =? user_id
  | None => false
  end.

Definition of_lot (lot_id : Z) (r : schedule) : bool :=
  match s_parking_lot_id r with
  | Some k => k =? lot_id
  | None => false
  end.

(** [SELECT * FROM schedules WHERE user_id = ... ORDER BY date DESC,
     start_time DESC] *)
Definition select_schedules_by_user (s : store) (user_id : Z)
    : result (list schedule) :=
  Pg.int4 (Some user_id) ;;;
  Done (order_by_date_time
          (filter (of_user user_id) (schedules s))).

(** [SELECT * FROM schedules WHERE parking_lot_id = ... ORDER BY ...] *)
Definition select_schedules_by_lot (s : store) (lot_id : Z)
    : result (list schedule) :=
  Pg.int4 (Some lot_id) ;;;
  Done (order_by_date_time
          (filter (of_lot lot_id) (schedules s))).

(** [SELECT * FROM schedules WHERE id = ...] *)
Definition select_schedules_by_id (s : store) (id : Z) : result (list schedule) :=
  Pg.int4 (Some id) ;;;
  Done (filter (fun r => s_id r =? id) (schedules s)).

(** [UPDATE schedules SET user_id, parking_lot_id, spot_number, start_time,
     end_time, date, is_recurring, recurring_days, location, parking_lot,
     status WHERE id = ... RETURNING id] *)
Definition update_schedules (e : env) (s : store) (id : Z)
    (user_id parking_lot_id : option Z) (spot_number : option string)
    (start_time end_time date : option Z)
    (location parking_lot : option string)
    (is_recurring : option bool) (recurring_days : option json)
    (status : option string) : result (list Z) * store :=
  match (Pg.int4 (Some id) ;;; Pg.int4 user_id ;;; Pg.int4 parking_lot_id ;;;
         Pg.varchar 50 spot_number ;;;
         Pg.time start_time ;;; Pg.time end_time ;;;
         Pg.varchar 255 location ;;; Pg.varchar 100 parking_lot ;;;
         Pg.varchar 50 status ;;; Done tt) with
  | Raise err => (Raise err, s)
  | Done _ =>
      if negb (has_key s_id (schedules s) id) then (Done [], s)
      else
        match (st <- Pg.not_null "start_time" start_time ;;
               en <- Pg.not_null "end_time" end_time ;;
               d <- Pg.not_null "date" date ;;
               guard (Pg.check_in status_values status)
                     (check_violation "schedules_status_check") ;;;
               guard (references u_id (users s) user_id)
                     (foreign_key_violation "schedules_user_id_fkey") ;;;
               guard (references l_id (parking_lots s) parking_lot_id)
                     (foreign_key_violation "schedules_parking_lot_id_fkey") ;;;
               Done (fun old : schedule =>
                       mk_schedule (s_id old) user_id parking_lot_id spot_number
                                   st en d is_recurring recurring_days location
                                   parking_lot status (s_created_at old) (now e)))
        with
        | Raise err => (Raise err, s)
        | Done upd =>
            let table :=
              map (fun r => if s_id r =? id then upd r else r) (schedules s) in
            (Done (map s_id (filter (fun r => s_id r =? id) table)),
             set_schedules s table (schedules_id_seq s))
        end
  end.

(** [SELECT ... FROM users WHERE email = ...] *)
Definition select_users_by_email (s : store) (email : string) : list user :=
  filter (fun u => String.eqb (u_email u) email) (users s).

(** The columns [PUT /api/users/:id] returns. *)
Record user_update : Type := mk_user_update {
  w_id : Z;
  w_name : string;
  w_email : string;
  w_phone : option string;
  w_role : string;
  w_department : option string;
  w_status : option string;
  w_avatar : option string
}.

Definition updated (u : user) : user_update :=
  mk_user_update (u_id u) (u_name u) (u_email u) (u_phone u) (u_role u)
                 (u_department u) (u_status u) (u_avatar u).

(** [UPDATE users SET name, email, phone, role, department, status, avatar
     WHERE id = ... RETURNING ...] *)
Definition update_users (e : env) (s : store) (id : Z)
    (name email phone role department status avatar : option string)
    : result (list user_update) * store :=
  match (Pg.int4 (Some id) ;;; Pg.varchar 255 name ;;; Pg.varchar 255 email ;;;
         Pg.varchar 50 phone ;;; Pg.varchar 50 role ;;;
         Pg.varchar 100 department ;;; Pg.varchar 50 status ;;; Done tt) with
  | Raise err => (Raise err, s)
  | Done _ =>
      if negb (has_key u_id (users s) id) then (Done [], s)
      else
        match (n <- Pg.not_null "name" name ;;
               m <- Pg.not_null "email" email ;;
               r <- Pg.not_null "role" role ;;
               guard (Pg.check_in role_values role)
                     (check_violation "users_role_check") ;;;
               guard (Pg.check_in user_status_values status)
                     (check_violation "users_status_check") ;;;
               guard (negb (existsb (fun u => String.eqb (u_email u) m
                                              && negb (u_id u =? id))
                                    (users s)))
                     (unique_violation "users_email_key") ;;;
               Done (fun old : user =>
                       mk_user (u_id old) n m phone (u_password_hash old) r
                               department status avatar (u_created_at old)
                               (now e))) with
        | Raise err => (Raise err, s)
        | Done upd =>
            let table :=
              map (fun u => if u_id u =? id then upd u else u) (users s) in
            (Done (map updated (filter (fun u => u_id u =? id) table)),
             set_users s table (users_id_seq s))
        end
  end.

(* ================================================================== *)
(** * [server.js]: the remaining parking-lot and schedule routes *)
(* ================================================================== *)

Module ServerRest.

(** [app.get('/api/parking-lots/:id', ...)] *)
Definition get_parking_lots_id (s : store) (id : Z) : response * store :=
  match select_parking_lots_by_id s id with
  | Done [] => (Fail 404 "Parking lot not found" None, s)
  | Done (row :: _) => (Reply 200 (LotRow row), s)
  | Raise err => (Fail 500 "Failed to fetch parking lot" (Some err), s)
  end.

(** [app.delete('/api/parking-lots/:id', ...)] *)
Definition delete_parking_lots_id (e : env) (s : store) (id : Z)
    : response * store :=
  match delete_from_parking_lots e s id with
  | (Done [], s') => (Fail 404 "Parking lot not found" None, s')
  | (Done (row :: _), s') => (Reply 200 (LotRow row), s')
  | (Raise err, s') => (Fail 500 "Failed to delete parking lot" (Some err), s')
  end.

(** [app.get('/api/schedules', ...)]: the rows under [data]. *)
Definition get_schedules (s : store) : answer (list schedule) * store :=
  (Answer 200 (select_schedules s), s).

End ServerRest.

(* ================================================================== *)
(** * The pg-promise service: the remaining user, lot and schedule routes *)
(* ================================================================== *)

Module ServiceRest.

Import Service.

Definition user_props (b : user_body) : string -> bool :=
  PgPromise.has_own
    [ ("name", present (ub_name b)); ("email", present (ub_email b));
      ("phone", present (ub_phone b)); ("password", present (ub_password b));
      ("role", present (ub_role b)); ("department", present (ub_department b));
      ("status", present (ub_status b)); ("avatar", present (ub_avatar b)) ].

(** [req.params] of the routes with [:email], [:userId] and [:lotId], and
    the object [{ email: ... }] of the login query. *)
Definition email_params : string -> bool := PgPromise.has_own [("email", true)].
Definition userId_params : string -> bool := PgPromise.has_own [("userId", true)].
Definition lotId_params : string -> bool := PgPromise.has_own [("lotId", true)].

(** ** Query texts *)

Definition sql_login : string :=
  "SELECT * FROM users WHERE email=${email}".

Definition sql_select_user_by_email : string :=
  "SELECT id, name, email, phone, role, department, status, avatar, created_at FROM users WHERE email=${email}".

Definition sql_update_user : string :=
  "UPDATE users SET name=$/body.name/, email=$/body.email/, phone=$/body.phone/, role=$/body.role/, department=$/body.department/, status=$/body.status/, avatar=$/body.avatar/ WHERE id=$/id/ RETURNING id, name, email, phone, role, department, status, avatar".

Definition sql_select_parking_lot : string :=
  "SELECT * FROM parking_lots WHERE id=${id}".

Definition sql_delete_parking_lot : string :=
  "DELETE FROM parking_lots WHERE id=${id} RETURNING id".

Definition sql_select_schedules_by_user : string :=
  "SELECT * FROM schedules WHERE user_id=${userId} ORDER BY date DESC, start_time DESC".

Definition sql_select_schedules_by_lot : string :=
  "SELECT * FROM schedules WHERE parking_lot_id=${lotId} ORDER BY date DESC, start_time DESC".

Definition sql_select_schedule : string :=
  "SELECT * FROM schedules WHERE id=${id}".

Definition sql_update_schedule : string :=
  "UPDATE schedules SET user_id=${body.user_id}, parking_lot_id=${body.parking_lot_id}, spot_number=${body.spot_number}, start_time=${body.start_time}, end_time=${body.end_time}, date=${body.date}, is_recurring=${body.is_recurring}, recurring_days=${body.recurring_days}, location=${body.location}, parking_lot=${body.parking_lot}, status=${body.status} WHERE id=${id} RETURNING id".

(** ** User endpoints *)

(** What a successful login returns under [user]. *)
Record session : Type := mk_session {
  session_id : Z;
  session_email : string;
  session_role : string
}.

Definition invalid_login : response :=
  Fail 401 "Invalid email or password" None.

(** [app.post('/api/login', ...)]; [compare] is [bcrypt.compare].  A body
    without a string [email] makes [email.toLowerCase()] throw, and
    [bcrypt.compare] rejects a missing password: both end in the global
    error handler. *)
Definition post_login (compare : string -> string -> bool) (s : store)
    (email password : field string) : answer session * store :=
  match email with
  | Val m =>
      match (PgPromise.prepare sql_login email_params ;;;
             PgPromise.oneOrNone (select_users_by_email s (toLowerCase m))) with
      | Raise _ => (Refusal (handleError true), s)
      | Done None => (Refusal invalid_login, s)
      | Done (Some user) =>
          match password with
          | Val p =>
              if compare p (u_password_hash user)
              then (Answer 200 (mk_session (u_id user) (u_email user) (u_role user)), s)
              else (Refusal invalid_login, s)
          | _ => (Refusal (handleError true), s)
          end
      end
  | _ => (Refusal globalErrorHandler, s)
  end.

(** [app.get('/api/users/email/:email', ...)] *)
Definition get_users_email (s : store) (email : string) : response * store :=
  match (PgPromise.prepare sql_select_user_by_email email_params ;;;
         PgPromise.oneOrNone (map view (select_users_by_email s email))) with
  | Done data => (returnDataOr404 (option_map UserRow data), s)
  | Raise _ => (handleError true, s)
  end.

(** [app.put('/api/users/:id', ...)] *)
Definition put_users_id (e : env) (s : store) (id : Z) (b : user_body)
    : answer user_update * store :=
  match PgPromise.prepare sql_update_user (id_and_body (user_props b)) with
  | Raise _ => (Refusal (handleError true), s)
  | Done _ =>
      match update_users e s id
              (to_sql (ub_name b)) (to_sql (ub_email b)) (to_sql (ub_phone b))
              (to_sql (ub_role b)) (to_sql (ub_department b))
              (to_sql (ub_status b)) (to_sql (ub_avatar b)) with
      | (Raise _, s') => (Refusal (handleError true), s')
      | (Done rows, s') =>
          match PgPromise.oneOrNone rows with
          | Done (Some data) => (Answer 200 data, s')
          | Done None => (Refusal (SendStatus 404), s')
          | Raise _ => (Refusal (handleError true), s')
          end
      end
  end.

(** ** Parking lot endpoints *)

(** [app.get('/api/parking-lots/:id', ...)] *)
Definition get_parking_lots_id (s : store) (id : Z) : response * store :=
  match (PgPromise.prepare sql_select_parking_lot params ;;;
         rows <- select_parking_lots_by_id s id ;;
         PgPromise.oneOrNone rows) with
  | Done data => (returnDataOr404 (option_map LotRow data), s)
  | Raise _ => (handleError true, s)
  end.

(** [app.delete('/api/parking-lots/:id', ...)] *)
Definition delete_parking_lots_id (e : env) (s : store) (id : Z)
    : response * store :=
  match PgPromise.prepare sql_delete_parking_lot params with
  | Raise _ => (handleError true, s)
  | Done _ =>
      match delete_from_parking_lots e s id with
      | (Raise _, s') => (handleError true, s')
      | (Done rows, s') =>
          match PgPromise.oneOrNone rows with
          | Done data =>
              (returnDataOr404 (option_map (fun l => RowId (l_id l)) data), s')
          | Raise _ => (handleError true, s')
          end
      end
  end.

(** ** Schedule endpoints *)

(** [app.get('/api/schedules', ...)] *)
Definition get_schedules (s : store) : answer (list schedule) * store :=
  (Answer 200 (select_schedules s), s).

(** [app.get('/api/schedules/user/:userId', ...)] *)
Definition get_schedules_user (s : store) (userId : Z)
    : answer (list schedule) * store :=
  match (PgPromise.prepare sql_select_schedules_by_user userId_params ;;;
         select_schedules_by_user s userId) with
  | Done data => (Answer 200 data, s)
  | Raise _ => (Refusal (handleError true), s)
  end.

(** [app.get('/api/schedules/lot/:lotId', ...)] *)
Definition get_schedules_lot (s : store) (lotId : Z)
    : answer (list schedule) * store :=
  match (PgPromise.prepare sql_select_schedules_by_lot lotId_params ;;;
         select_schedules_by_lot s lotId) with
  | Done data => (Answer 200 data, s)
  | Raise _ => (Refusal (handleError true), s)
  end.

(** [app.get('/api/schedules/:id', ...)] *)
Definition get_schedules_id (s : store) (id : Z) : response * store :=
  match (PgPromise.prepare sql_select_schedule params ;;;
         rows <- select_schedules_by_id s id ;;
         PgPromise.oneOrNone rows) with
  | Done data => (returnDataOr404 (option_map ScheduleRow data), s)
  | Raise _ => (handleError true, s)
  end.

(** [app.put('/api/schedules/:id', ...)] *)
Definition put_schedules_id (e : env) (s : store) (id : Z) (b : schedule_body)
    : response * store :=
  match (PgPromise.prepare sql_update_schedule
           (id_and_body (schedule_props b)) ;;;
         PgPromise.as_jsonb (to_sql (sb_recurring_days b))) with
  | Raise _ => (handleError true, s)
  | Done recurring_days =>
      match update_schedules e s id
              (to_sql (sb_user_id b)) (to_sql (sb_parking_lot_id b))
              (to_sql (sb_spot_number b))
              (to_sql (sb_start_time b)) (to_sql (sb_end_time b))
              (to_sql (sb_date b))
              (to_sql (sb_location b)) (to_sql (sb_parking_lot b))
              (to_sql (sb_is_recurring b)) recurring_days
              (to_sql (sb_status b)) with
      | (Raise _, s') => (handleError true, s')
      | (Done rows, s') =>
          match PgPromise.oneOrNone rows with
          | Done data => (returnDataOr404 (option_map RowId data), s')
          | Raise _ => (handleError true, s')
          end
      end
  end.

End ServiceRest.

(* ================================================================== *)
(** * [server.js]: the issue routes *)
(* ================================================================== *)

(** The issue routes of [server.js] read and write the [issues] table
    alone (they never give a [user_id]), so the table is kept on its
    own. *)
Module Issues.

Record issue : Type := mk_issue {
  i_id : Z;
  i_user_id : option Z;
  i_user_name : string;
  i_message : string;
  i_spot_number : option string;
  i_status : option string;
  i_is_read : option bool;
  i_created_at : Z;
  i_resolved_at : option Z;
  i_updated_at : Z
}.

Record table : Type := mk_table {
  issues : list issue;
  issues_id_seq : Z
}.

Definition issue_status_values : list string :=
  ["open"; "in_progress"; "resolved"; "closed"].

Record issue_body : Type := mk_issue_body {
  ib_user_name : field string;
  ib_message : field string;
  ib_spot_number : field string
}.

Record patch_body : Type := mk_patch_body {
  pb_is_read : field bool;
  pb_status : field string
}.

(** [INSERT INTO issues (user_name, message, spot_number, status, is_read)
     VALUES ($1, $2, $3, 'open', false) RETURNING *] *)
Definition insert_into_issues (e : env) (t : table)
    (user_name message spot_number : option string) : result issue * table :=
  match (Pg.varchar 255 user_name ;;; Pg.varchar 50 spot_number ;;; Done tt) with
  | Raise err => (Raise err, t)
  | Done _ =>
      let id := issues_id_seq t in
      let t1 := mk_table (issues t) (id + 1) in
      match (n <- Pg.not_null "user_name" user_name ;;
             m <- Pg.not_null "message" message ;;
             guard (negb (has_key i_id (issues t) id))
                   (unique_violation "issues_pkey") ;;;
             Done (mk_issue id None n m spot_number (Some "open") (Some false)
                            (now e) None (now e))) with
      | Raise err => (Raise err, t1)
      | Done row => (Done row, mk_table (issues t ++ [row])%list (id + 1))
      end
  end.

(** [DELETE FROM issues WHERE id = $1 RETURNING *] *)
Definition delete_from_issues (t : table) (id : Z) : result (list issue) * table :=
  match Pg.int4 (Some id) with
  | Raise err => (Raise err, t)
  | Done _ =>
      (Done (filter (fun r => i_id r =? id) (issues t)),
       mk_table (filter (fun r => negb (i_id r =? id)) (issues t))
                (issues_id_seq t))
  end.

(** ** The query [PATCH /api/issues/:id] puts together *)

(** An element of the [SET] list: [column = $index] or [column = NOW()]. *)
Inductive assignment : Type :=
| Param (column : string) (index : nat)
| Now (column : string).

(** An element of the [values] array. *)
Inductive sql_value : Type :=
| VBool (b : option bool)
| VText (t : string)
| VInt (n : Z).

(** [UPDATE issues SET <updates> WHERE id = $<where_id> RETURNING *] *)
Record update_query : Type := mk_update_query {
  updates : list assignment;
  where_id : nat
}.

(** The handler's [updates], [values] and [paramCount], statement by
    statement. *)
Definition build_patch (b : patch_body) (id : Z) : update_query * list sql_value :=
  let updates : list assignment := [] in
  let values : list sql_value := [] in
  let paramCount := 1%nat in
  let '(updates, values, paramCount) :=
    if present (pb_is_read b)
    then ((updates ++ [Param "is_read" paramCount])%list,
          (values ++ [VBool (to_sql (pb_is_read b))])%list, S paramCount)
    else (updates, values, paramCount) in
  let '(updates, values, paramCount) :=
    match pb_status b with
    | Val status =>
        if truthy_string (pb_status b)
        then
          let updates := (updates ++ [Param "status" paramCount])%list in
          let values := (values ++ [VText status])%list in
          let updates :=
            if String.eqb status "resolved"
            then (updates ++ [Now "resolved_at"])%list else updates in
          (updates, values, S paramCount)
        else (updates, values, paramCount)
    | _ => (updates, values, paramCount)
    end in
  let updates := (updates ++ [Now "updated_at"])%list in
  (mk_update_query updates paramCount, (values ++ [VInt id])%list).

(** The text of the query. *)
Definition decimal (n : nat) : string :=
  NilEmpty.string_of_uint (Nat.to_uint n).

Definition assignment_text (a : assignment) : string :=
  match a with
  | Param column index => column ++ " = $" ++ decimal index
  | Now column => column ++ " = NOW()"
  end.

Definition query_text (q : update_query) : string :=
  "UPDATE issues SET " ++ String.concat ", " (map assignment_text (updates q))
  ++ " WHERE id = $" ++ decimal (where_id q) ++ " RETURNING *".

(** The parameters a query refers to. *)
Fixpoint indices (l : list assignment) : list nat :=
  match l with
  | Param _ i :: r => i :: indices r
  | Now _ :: r => indices r
  | [] => []
  end.

Definition parameters (q : update_query) : list nat :=
  (indices (updates q) ++ [where_id q])%list.

(** What the server does with an assignment before it looks at a row:
    the column must exist, a parameter must be held by the array and be
    of the type of the column, and a text must fit [VARCHAR(50)]. *)
Definition coerce (values : list sql_value) (a : assignment) : result unit :=
  match a with
  | Now column =>
      if String.eqb column "resolved_at" || String.eqb column "updated_at"
      then Done tt else Raise syntax_error
  | Param column index =>
      match nth_error values (index - 1) with
      | Some (VBool _) =>
          if String.eqb column "is_read" then Done tt else Raise syntax_error
      | Some (VText t) =>
          if String.eqb column "status"
          then Pg.varchar 50 (Some t) ;;; Done tt
          else Raise syntax_error
      | _ => Raise syntax_error
      end
  end.

Fixpoint coerce_all (values : list sql_value) (l : list assignment)
    : result unit :=
  match l with
  | [] => Done tt
  | a :: l' => coerce values a ;;; coerce_all values l'
  end.

(** One assignment on one row (of a statement [coerce] has accepted). *)
Definition assign (e : env) (values : list sql_value) (a : assignment)
    (r : issue) : issue :=
  match a with
  | Now column =>
      if String.eqb column "resolved_at"
      then mk_issue (i_id r) (i_user_id r) (i_user_name r) (i_message r)
                    (i_spot_number r) (i_status r) (i_is_read r)
                    (i_created_at r) (Some (now e)) (i_updated_at r)
      else if String.eqb column "updated_at"
      then mk_issue (i_id r) (i_user_id r) (i_user_name r) (i_message r)
                    (i_spot_number r) (i_status r) (i_is_read r)
                    (i_created_at r) (i_resolved_at r) (now e)
      else r
  | Param column index =>
      match nth_error values (index - 1) with
      | Some (VBool b) =>
          if String.eqb column "is_read"
          then mk_issue (i_id r) (i_user_id r) (i_user_name r) (i_message r)
                        (i_spot_number r) (i_status r) b
                        (i_created_at r) (i_resolved_at r) (i_updated_at r)
          else r
      | Some (VText t) =>
          if String.eqb column "status"
          then mk_issue (i_id r) (i_user_id r) (i_user_name r) (i_message r)
                        (i_spot_number r) (Some t) (i_is_read r)
                        (i_created_at r) (i_resolved_at r) (i_updated_at r)
          else r
      | _ => r
      end
  end.

(** The row as the statement leaves it: the [SET] list, the table's
    [updated_at] trigger, then the [CHECK] on [status]. *)
Definition update_row (e : env) (values : list sql_value) (q : update_query)
    (r : issue) : result issue :=
  let r' := fold_left (fun r a => assign e values a r) (updates q) r in
  let r'' := assign e values (Now "updated_at") r' in
  guard (Pg.check_in issue_status_values (i_status r''))
        (check_violation "issues_status_check") ;;;
  Done r''.

Fixpoint update_rows (e : env) (values : list sql_value) (q : update_query)
    (id : Z) (l : list issue) : result (list issue) :=
  match l with
  | [] => Done []
  | r :: l' =>
      r' <- (if i_id r =? id then update_row e values q r else Done r) ;;
      l'' <- update_rows e values q id l' ;;
      Done (r' :: l'')
  end.

(** Running a built query: the array must hold as many values as the
    query has parameters, and the one for [WHERE id = $n] must be an
    integer. *)
Definition run_update (e : env) (t : table) (q : update_query)
    (values : list sql_value) : result (list issue) * table :=
  if negb (list_max (parameters q) =? List.length values)%nat
  then (Raise syntax_error, t)
  else
    match nth_error values (where_id q - 1) with
    | Some (VInt id) =>
        match (Pg.int4 (Some id) ;;; coerce_all values (updates q) ;;;
               update_rows e values q id (issues t)) with
        | Raise err => (Raise err, t)
        | Done rows =>
            (Done (filter (fun r => i_id r =? id) rows),
             mk_table rows (issues_id_seq t))
        end
    | _ => (Raise syntax_error, t)
    end.

(** ** The handlers *)

(** [app.post('/api/issues', ...)] *)
Definition post_issues (e : env) (t : table) (b : issue_body)
    : answer issue * table :=
  if negb (truthy_string (ib_message b))
  then (Refusal (Fail 400 "Message is required" None), t)
  else
    match insert_into_issues e t (to_sql (ib_user_name b))
            (to_sql (ib_message b)) (to_sql (ib_spot_number b)) with
    | (Done row, t') => (Answer 201 row, t')
    | (Raise err, t') => (Refusal (Fail 500 "Failed to report issue" (Some err)), t')
    end.

(** [app.patch('/api/issues/:id', ...)] *)
Definition patch_issues_id (e : env) (t : table) (id : Z) (b : patch_body)
    : answer issue * table :=
  let (query, values) := build_patch b id in
  match run_update e t query values with
  | (Done [], t') => (Refusal (Fail 404 "Issue not found" None), t')
  | (Done (row :: _), t') => (Answer 200 row, t')
  | (Raise err, t') => (Refusal (Fail 500 "Failed to update issue" (Some err)), t')
  end.

(** [app.delete('/api/issues/:id', ...)] *)
Definition delete_issues_id (t : table) (id : Z) : answer issue * table :=
  match delete_from_issues t id with
  | (Done [], t') => (Refusal (Fail 404 "Issue not found" None), t')
  | (Done (row :: _), t') => (Answer 200 row, t')
  | (Raise err, t') => (Refusal (Fail 500 "Failed to delete issue" (Some err)), t')
  end.

(** Primary keys are distinct and below the sequence. *)
Definition wf_table (t : table) : bool :=
  keys_ok (issues_id_seq t) (map i_id (issues t)).

End Issues.

(* ================================================================== *)
(** * Further notions of the statements below *)
(* ================================================================== *)

(** A [bcrypt.compare] that goes with the [bcrypt.hash] of [Sample.clock]. *)
Definition sample_compare (password hash : string) : bool :=
  String.eqb hash ("$2b$10$" ++ password).

(** [a] stands before [b] under [ORDER BY date DESC, start_time DESC]. *)
Definition before (a b : schedule) : Prop := later_first a b = true.

(** Every schedule refers to a stored user and a stored parking lot, or to
    none. *)
Definition fk_ok (s : store) : bool :=
  forallb (fun r => references u_id (users s) (s_user_id r)
                    && references l_id (parking_lots s) (s_parking_lot_id r))
          (schedules s).

(** The login is answered with a session of the user [id]. *)
Definition logged_in_as (a : answer ServiceRest.session) (id : Z) : bool :=
  match a with
  | Answer _ session => ServiceRest.session_id session =? id
  | Refusal _ => false
  end.

(** The body has the seven properties [PUT /api/users/:id] names. *)
Definition user_update_complete (b : user_body) : bool :=
  present (ub_name b) && present (ub_email b) && present (ub_phone b)
  && present (ub_role b) && present (ub_department b)
  && present (ub_status b) && present (ub_avatar b).

(** The row [PUT /api/users/:id] makes of the row [u]. *)
Definition overwritten (e : env) (b : user_body) (n m r : string) (u : user)
    : user :=
  mk_user (u_id u) n m (to_sql (ub_phone b)) (u_password_hash u) r
          (to_sql (ub_department b)) (to_sql (ub_status b))
          (to_sql (ub_avatar b)) (u_created_at u) (now e).

(** A stored user with a capital in the address, and a change of address
    for user 1. *)
Definition rename (email : string) : user_body :=
  mk_user_body (Val "Max Wu") (Val email) Null Absent (Val "user") Null
               (Val "active") Null.

(** The store after a lot has been inserted as [row]. *)
Definition with_lot (s : store) (row : parking_lot) : store :=
  set_parking_lots s (parking_lots s ++ [row])%list (parking_lots_id_seq s + 1).

(** The row [PUT /api/schedules/:id] makes of the row [old], with [days]
    in the column [recurring_days]. *)
Definition rescheduled (e : env) (b : schedule_body) (st en d : Z)
    (days : option json) (old : schedule) : schedule :=
  mk_schedule (s_id old) (to_sql (sb_user_id b)) (to_sql (sb_parking_lot_id b))
              (to_sql (sb_spot_number b)) st en d
              (to_sql (sb_is_recurring b)) days
              (to_sql (sb_location b)) (to_sql (sb_parking_lot b))
              (to_sql (sb_status b)) (s_created_at old) (now e).

(** Schedule 1 moved to 11:00-10:00 and cancelled, with an empty list of
    recurring days. *)
Definition moved : schedule_body :=
  mk_schedule_body (Val 1) (Val 1) (Val "A40") (Val (hm 11 0)) (Val (hm 10 0))
                   (Val 20120) (Val "North Campus") (Val "North Lot")
                   (Val true) (Val (JArr [])) (Val "cancelled").

(** The status [PATCH /api/issues/:id] writes, if any: [status] of the
    body when it is a non-empty string. *)
Definition patch_status (b : Issues.patch_body) : option string :=
  match Issues.pb_status b with
  | Val st => if String.eqb st "" then None else Some st
  | _ => None
  end.

(** The row [PATCH /api/issues/:id] makes of the row [r]. *)
Definition patched (e : env) (b : Issues.patch_body) (r : Issues.issue)
    : Issues.issue :=
  Issues.mk_issue (Issues.i_id r) (Issues.i_user_id r) (Issues.i_user_name r)
    (Issues.i_message r) (Issues.i_spot_number r)
    (match patch_status b with
     | Some st => Some st
     | None => Issues.i_status r
     end)
    (if present (Issues.pb_is_read b) then to_sql (Issues.pb_is_read b)
     else Issues.i_is_read r)
    (Issues.i_created_at r)
    (match patch_status b with
     | Some st => if String.eqb st "resolved" then Some (now e)
                  else Issues.i_resolved_at r
     | None => Issues.i_resolved_at r
     end)
    (now e).

(** The row [POST /api/issues] stores. *)
Definition reported (e : env) (t : Issues.table) (user_name message : string)
    (spot_number : option string) : Issues.issue :=
  Issues.mk_issue (Issues.issues_id_seq t) None user_name message spot_number
                  (Some "open") (Some false) (now e) None (now e).

(** A table with one open issue. *)
Definition blocked_spot : Issues.issue :=
  Issues.mk_issue 1 None "Max Wu" "Spot A40 is blocked" (Some "A40")
                  (Some "open") (Some false) 28950000 None 28950000.

Definition inbox : Issues.table := Issues.mk_table [blocked_spot] 2.

(** Case analysis on the body of a [PATCH /api/issues/:id]. *)
Ltac case_patch b st :=
  let x := fresh "x" in
  destruct b as [[| |x] [| |st]];
  try (destruct (String.eqb st "") eqn:?;
       destruct (String.eqb st "resolved") eqn:?).


(* ================================================================== *)
(** * Writing requests of both applications *)
(* ================================================================== *)

(** The requests of [handle], and the writing requests among the routes
    added above.  Together they are the routes of the pg-promise service
    that write [users], [parking_lots] or [schedules], and the routes of
    [server.js] that write [parking_lots] or [schedules].  The routes
    [POST /api/users] and [PUT /api/users/:id] of [server.js], written
    for a [users] table without the column [password_hash], are not
    among them. *)
Inductive operation : Type :=
| Routed (r : request)
| PutUsersId (id : Z) (b : user_body)
| ServerDeleteParkingLotsId (id : Z)
| DeleteParkingLotsId (id : Z)
| PutSchedulesId (id : Z) (b : schedule_body).

Definition perform (e : env) (s : store) (o : operation) : store :=
  match o with
  | Routed r => snd (handle e s r)
  | PutUsersId id b => snd (ServiceRest.put_users_id e s id b)
  | ServerDeleteParkingLotsId id => snd (ServerRest.delete_parking_lots_id e s id)
  | DeleteParkingLotsId id => snd (ServiceRest.delete_parking_lots_id e s id)
  | PutSchedulesId id b => snd (ServiceRest.put_schedules_id e s id b)
  end.

(** The stores these requests can bring an empty database to. *)
Inductive attainable : store -> Prop :=
| attainable_empty : attainable empty_store
| attainable_step (e : env) (s : store) (o : operation) :
    attainable s -> attainable (perform e s o).

(* ================================================================== *)
(** * The pg-promise service: the issue routes *)
(* ================================================================== *)

Module ServiceIssues.

Import Service Issues.

(** The body of [POST /api/issues] and of [PUT /api/issues/:id]. *)
Record new_issue_body : Type := mk_new_issue_body {
  nb_user_id : field Z;
  nb_user_name : field string;
  nb_message : field string;
  nb_spot_number : field string;
  nb_status : field string;
  nb_is_read : field bool
}.

Record issue_change_body : Type := mk_issue_change_body {
  cb_status : field string;
  cb_is_read : field bool;
  cb_resolved_at : field Z
}.

Definition new_issue_props (b : new_issue_body) : string -> bool :=
  PgPromise.has_own
    [ ("user_id", present (nb_user_id b));
      ("user_name", present (nb_user_name b));
      ("message", present (nb_message b));
      ("spot_number", present (nb_spot_number b));
      ("status", present (nb_status b));
      ("is_read", present (nb_is_read b)) ].

Definition issue_change_props (b : issue_change_body) : string -> bool :=
  PgPromise.has_own
    [ ("status", present (cb_status b));
      ("is_read", present (cb_is_read b));
      ("resolved_at", present (cb_resolved_at b)) ].

(** ** Query texts *)

Definition sql_select_issue : string :=
  "SELECT * FROM issues WHERE id=${id}".

Definition sql_insert_issue : string :=
  "INSERT INTO issues(user_id, user_name, message, spot_number, status, is_read) VALUES (${user_id}, ${user_name}, ${message}, ${spot_number}, ${status}, ${is_read}) RETURNING id".

Definition sql_update_issue : string :=
  "UPDATE issues SET status=${body.status}, is_read=${body.is_read}, resolved_at=${body.resolved_at} WHERE id=${id} RETURNING id".

Definition sql_mark_issue_read : string :=
  "UPDATE issues SET is_read=true WHERE id=${id} RETURNING id".

Definition sql_delete_issue : string :=
  "DELETE FROM issues WHERE id=${id} RETURNING id".

(** ** Statements *)

(** [ORDER BY created_at DESC] *)
Definition newest_first (a b : issue) : bool :=
  i_created_at b <=? i_created_at a.

(** [WHERE is_read = false]: a [NULL] flag is not [false]. *)
Definition unread (r : issue) : bool :=
  match i_is_read r with
  | Some false => true
  | _ => false
  end.

(** [SELECT * FROM issues WHERE is_read=false ORDER BY created_at DESC] *)
Definition select_unread_issues (t : table) : list issue :=
  order_by newest_first (filter unread (issues t)).

(** [SELECT * FROM issues WHERE id = ...] *)
Definition select_issues_by_id (t : table) (id : Z) : result (list issue) :=
  Pg.int4 (Some id) ;;;
  Done (filter (fun r => i_id r =? id) (issues t)).

(** [INSERT INTO issues(user_id, user_name, message, spot_number, status,
     is_read) VALUES (...) RETURNING id]: a [NULL] that is given for a
    column stands; the column's default is for a column left out. *)
Definition insert_into_issues (e : env) (users : list user) (t : table)
    (user_id : option Z) (user_name message spot_number status : option string)
    (is_read : option bool) : result issue * table :=
  match (Pg.int4 user_id ;;; Pg.varchar 255 user_name ;;;
         Pg.varchar 50 spot_number ;;; Pg.varchar 50 status ;;; Done tt) with
  | Raise err => (Raise err, t)
  | Done _ =>
      let id := issues_id_seq t in
      let t1 := mk_table (issues t) (id + 1) in
      match (n <- Pg.not_null "user_name" user_name ;;
             m <- Pg.not_null "message" message ;;
             guard (Pg.check_in issue_status_values status)
                   (check_violation "issues_status_check") ;;;
             guard (negb (has_key i_id (issues t) id))
                   (unique_violation "issues_pkey") ;;;
             guard (references u_id users user_id)
                   (foreign_key_violation "issues_user_id_fkey") ;;;
             Done (mk_issue id user_id n m spot_number status is_read
                            (now e) None (now e))) with
      | Raise err => (Raise err, t1)
      | Done row => (Done row, mk_table (issues t ++ [row])%list (id + 1))
      end
  end.

(** The row [PUT /api/issues/:id] makes of the row [r]; the table's
    trigger refreshes [updated_at]. *)
Definition changed (e : env) (status : option string) (is_read : option bool)
    (resolved_at : option Z) (r : issue) : issue :=
  mk_issue (i_id r) (i_user_id r) (i_user_name r) (i_message r)
           (i_spot_number r) status is_read (i_created_at r) resolved_at
           (now e).

(** [UPDATE issues SET status, is_read, resolved_at WHERE id = ...
     RETURNING id] *)
Definition update_issues (e : env) (t : table) (id : Z)
    (status : option string) (is_read : option bool) (resolved_at : option Z)
    : result (list Z) * table :=
  match (Pg.int4 (Some id) ;;; Pg.varchar 50 status ;;; Done tt) with
  | Raise err => (Raise err, t)
  | Done _ =>
      if negb (has_key i_id (issues t) id) then (Done [], t)
      else if negb (Pg.check_in issue_status_values status)
      then (Raise (check_violation "issues_status_check"), t)
      else
        let rows :=
          map (fun r => if i_id r =? id
                        then changed e status is_read resolved_at r else r)
              (issues t) in
        (Done (map i_id (filter (fun r => i_id r =? id) rows)),
         mk_table rows (issues_id_seq t))
  end.

(** The row [PATCH /api/issues/:id/read] makes of the row [r]. *)
Definition read (e : env) (r : issue) : issue :=
  mk_issue (i_id r) (i_user_id r) (i_user_name r) (i_message r)
           (i_spot_number r) (i_status r) (Some true) (i_created_at r)
           (i_resolved_at r) (now e).

(** [UPDATE issues SET is_read=true WHERE id = ... RETURNING id] *)
Definition update_issues_read (e : env) (t : table) (id : Z)
    : result (list Z) * table :=
  match Pg.int4 (Some id) with
  | Raise err => (Raise err, t)
  | Done _ =>
      let rows := map (fun r => if i_id r =? id then read e r else r) (issues t) in
      (Done (map i_id (filter (fun r => i_id r =? id) rows)),
       mk_table rows (issues_id_seq t))
  end.

(** ** The handlers *)

(** [app.get('/api/issues/unread', ...)] *)
Definition get_issues_unread (t : table) : answer (list issue) * table :=
  (Answer 200 (select_unread_issues t), t).

(** [app.get('/api/issues/:id', ...)] *)
Definition get_issues_id (t : table) (id : Z) : answer issue * table :=
  match (PgPromise.prepare sql_select_issue params ;;;
         rows <- select_issues_by_id t id ;;
         PgPromise.oneOrNone rows) with
  | Done (Some data) => (Answer 200 data, t)
  | Done None => (Refusal (SendStatus 404), t)
  | Raise _ => (Refusal (handleError true), t)
  end.

(** [app.post('/api/issues', ...)] *)
Definition post_issues (e : env) (users : list user) (t : table)
    (b : new_issue_body) : response * table :=
  match PgPromise.prepare sql_insert_issue (new_issue_props b) with
  | Raise _ => (handleError true, t)
  | Done _ =>
      match insert_into_issues e users t
              (to_sql (nb_user_id b)) (to_sql (nb_user_name b))
              (to_sql (nb_message b)) (to_sql (nb_spot_number b))
              (to_sql (nb_status b)) (to_sql (nb_is_read b)) with
      | (Done row, t') => (Reply 201 (RowId (i_id row)), t')
      | (Raise _, t') => (handleError true, t')
      end
  end.

(** [app.put('/api/issues/:id', ...)] *)
Definition put_issues_id (e : env) (t : table) (id : Z) (b : issue_change_body)
    : response * table :=
  match PgPromise.prepare sql_update_issue
          (id_and_body (issue_change_props b)) with
  | Raise _ => (handleError true, t)
  | Done _ =>
      match update_issues e t id (to_sql (cb_status b)) (to_sql (cb_is_read b))
              (to_sql (cb_resolved_at b)) with
      | (Raise _, t') => (handleError true, t')
      | (Done rows, t') =>
          match PgPromise.oneOrNone rows with
          | Done data => (returnDataOr404 (option_map RowId data), t')
          | Raise _ => (handleError true, t')
          end
      end
  end.

(** [app.patch('/api/issues/:id/read', ...)] *)
Definition patch_issues_id_read (e : env) (t : table) (id : Z)
    : response * table :=
  match PgPromise.prepare sql_mark_issue_read params with
  | Raise _ => (handleError true, t)
  | Done _ =>
      match update_issues_read e t id with
      | (Raise _, t') => (handleError true, t')
      | (Done rows, t') =>
          match PgPromise.oneOrNone rows with
          | Done data => (returnDataOr404 (option_map RowId data), t')
          | Raise _ => (handleError true, t')
          end
      end
  end.

(** [app.delete('/api/issues/:id', ...)] *)
Definition delete_issues_id (t : table) (id : Z) : response * table :=
  match PgPromise.prepare sql_delete_issue params with
  | Raise _ => (handleError true, t)
  | Done _ =>
      match delete_from_issues t id with
      | (Raise _, t') => (handleError true, t')
      | (Done rows, t') =>
          match PgPromise.oneOrNone (map i_id rows) with
          | Done data => (returnDataOr404 (option_map RowId data), t')
          | Raise _ => (handleError true, t')
          end
      end
  end.

End ServiceIssues.

(** The body has the six properties the service's [INSERT INTO issues]
    names. *)
Definition issue_complete (b : ServiceIssues.new_issue_body) : bool :=
  present (ServiceIssues.nb_user_id b) && present (ServiceIssues.nb_user_name b)
  && present (ServiceIssues.nb_message b)
  && present (ServiceIssues.nb_spot_number b)
  && present (ServiceIssues.nb_status b) && present (ServiceIssues.nb_is_read b).

(** The body has the three properties the service's [UPDATE issues]
    names. *)
Definition issue_change_complete (b : ServiceIssues.issue_change_body) : bool :=
  present (ServiceIssues.cb_status b) && present (ServiceIssues.cb_is_read b)
  && present (ServiceIssues.cb_resolved_at b).

(** A report by user 1 that leaves status and read flag to the server. *)
Definition bare_report : ServiceIssues.new_issue_body :=
  ServiceIssues.mk_new_issue_body (Val 1) (Val "Max Wu") (Val "Gate is stuck")
    Null Null Null.

(* ================================================================== *)
(** * The pg-promise service: the vehicle routes *)
(* ================================================================== *)

(** The vehicle routes read and write the [vehicles] table and look at
    the users for its foreign key. *)
Module Vehicles.

Import Service.

Record vehicle : Type := mk_vehicle {
  c_id : Z;
  c_user_id : option Z;
  c_make : string;
  c_model : string;
  c_year : string;
  c_color : option string;
  c_license_plate : string;
  c_created_at : Z
}.

Record table : Type := mk_table {
  vehicles : list vehicle;
  vehicles_id_seq : Z
}.

Record vehicle_body : Type := mk_vehicle_body {
  vb_user_id : field Z;
  vb_make : field string;
  vb_model : field string;
  vb_year : field string;
  vb_color : field string;
  vb_license_plate : field string
}.

Definition vehicle_props (b : vehicle_body) : string -> bool :=
  PgPromise.has_own
    [ ("user_id", present (vb_user_id b)); ("make", present (vb_make b));
      ("model", present (vb_model b)); ("year", present (vb_year b));
      ("color", present (vb_color b));
      ("license_plate", present (vb_license_plate b)) ].

(** ** Query texts *)

Definition sql_select_vehicles_by_user : string :=
  "SELECT * FROM vehicles WHERE user_id=${userId}".

Definition sql_select_vehicle : string :=
  "SELECT * FROM vehicles WHERE id=${id}".

Definition sql_insert_vehicle : string :=
  "INSERT INTO vehicles(user_id, make, model, year, color, license_plate) VALUES (${user_id}, ${make}, ${model}, ${year}, ${color}, ${license_plate}) RETURNING id".

Definition sql_update_vehicle : string :=
  "UPDATE vehicles SET make=${body.make}, model=${body.model}, year=${body.year}, color=${body.color}, license_plate=${body.license_plate} WHERE id=${id} RETURNING id".

Definition sql_delete_vehicle : string :=
  "DELETE FROM vehicles WHERE id=${id} RETURNING id".

(** ** Statements *)

Definition of_owner (user_id : Z) (v : vehicle) : bool :=
  match c_user_id v with
  | Some k => k =? user_id
  | None => false
  end.

(** [SELECT * FROM vehicles WHERE user_id = ...]; the query asks for no
    order, the rows are given in the order of the table. *)
Definition select_vehicles_by_user (t : table) (user_id : Z)
    : result (list vehicle) :=
  Pg.int4 (Some user_id) ;;;
  Done (filter (of_owner user_id) (vehicles t)).

(** [SELECT * FROM vehicles WHERE id = ...] *)
Definition select_vehicles_by_id (t : table) (id : Z) : result (list vehicle) :=
  Pg.int4 (Some id) ;;;
  Done (filter (fun v => c_id v =? id) (vehicles t)).

(** [INSERT INTO vehicles(user_id, make, model, year, color,
     license_plate) VALUES (...) RETURNING id] *)
Definition insert_into_vehicles (e : env) (users : list user) (t : table)
    (user_id : option Z) (make model year color license_plate : option string)
    : result vehicle * table :=
  match (Pg.int4 user_id ;;; Pg.varchar 100 make ;;; Pg.varchar 100 model ;;;
         Pg.varchar 4 year ;;; Pg.varchar 50 color ;;;
         Pg.varchar 50 license_plate ;;; Done tt) with
  | Raise err => (Raise err, t)
  | Done _ =>
      let id := vehicles_id_seq t in
      let t1 := mk_table (vehicles t) (id + 1) in
      match (mk <- Pg.not_null "make" make ;;
             md <- Pg.not_null "model" model ;;
             yr <- Pg.not_null "year" year ;;
             lp <- Pg.not_null "license_plate" license_plate ;;
             guard (negb (has_key c_id (vehicles t) id))
                   (unique_violation "vehicles_pkey") ;;;
             guard (negb (existsb (fun v => String.eqb (c_license_plate v) lp)
                                  (vehicles t)))
                   (unique_violation "unique_license_plate") ;;;
             guard (references u_id users user_id)
                   (foreign_key_violation "vehicles_user_id_fkey") ;;;
             Done (mk_vehicle id user_id mk md yr color lp (now e))) with
      | Raise err => (Raise err, t1)
      | Done row => (Done row, mk_table (vehicles t ++ [row])%list (id + 1))
      end
  end.

(** [UPDATE vehicles SET make, model, year, color, license_plate
     WHERE id = ... RETURNING id] *)
Definition update_vehicles (t : table) (id : Z)
    (make model year color license_plate : option string)
    : result (list Z) * table :=
  match (Pg.int4 (Some id) ;;; Pg.varchar 100 make ;;; Pg.varchar 100 model ;;;
         Pg.varchar 4 year ;;; Pg.varchar 50 color ;;;
         Pg.varchar 50 license_plate ;;; Done tt) with
  | Raise err => (Raise err, t)
  | Done _ =>
      if negb (has_key c_id (vehicles t) id) then (Done [], t)
      else
        match (mk <- Pg.not_null "make" make ;;
               md <- Pg.not_null "model" model ;;
               yr <- Pg.not_null "year" year ;;
               lp <- Pg.not_null "license_plate" license_plate ;;
               guard (negb (existsb (fun v => String.eqb (c_license_plate v) lp
                                              && negb (c_id v =? id))
                                    (vehicles t)))
                     (unique_violation "unique_license_plate") ;;;
               Done (fun old : vehicle =>
                       mk_vehicle (c_id old) (c_user_id old) mk md yr color lp
                                  (c_created_at old))) with
        | Raise err => (Raise err, t)
        | Done upd =>
            let rows :=
              map (fun v => if c_id v =? id then upd v else v) (vehicles t) in
            (Done (map c_id (filter (fun v => c_id v =? id) rows)),
             mk_table rows (vehicles_id_seq t))
        end
  end.

(** [DELETE FROM vehicles WHERE id = ... RETURNING id] *)
Definition delete_from_vehicles (t : table) (id : Z) : result (list Z) * table :=
  match Pg.int4 (Some id) with
  | Raise err => (Raise err, t)
  | Done _ =>
      (Done (map c_id (filter (fun v => c_id v =? id) (vehicles t))),
       mk_table (filter (fun v => negb (c_id v =? id)) (vehicles t))
                (vehicles_id_seq t))
  end.

(** ** The handlers *)

(** [app.get('/api/vehicles/user/:userId', ...)] *)
Definition get_vehicles_user (t : table) (userId : Z)
    : answer (list vehicle) * table :=
  match (PgPromise.prepare sql_select_vehicles_by_user
           (PgPromise.has_own [("userId", true)]) ;;;
         select_vehicles_by_user t userId) with
  | Done data => (Answer 200 data, t)
  | Raise _ => (Refusal (handleError true), t)
  end.

(** [app.get('/api/vehicles/:id', ...)] *)
Definition get_vehicles_id (t : table) (id : Z) : answer vehicle * table :=
  match (PgPromise.prepare sql_select_vehicle params ;;;
         rows <- select_vehicles_by_id t id ;;
         PgPromise.oneOrNone rows) with
  | Done (Some data) => (Answer 200 data, t)
  | Done None => (Refusal (SendStatus 404), t)
  | Raise _ => (Refusal (handleError true), t)
  end.

(** [app.post('/api/vehicles', ...)] *)
Definition post_vehicles (e : env) (users : list user) (t : table)
    (b : vehicle_body) : response * table :=
  match PgPromise.prepare sql_insert_vehicle (vehicle_props b) with
  | Raise _ => (handleError true, t)
  | Done _ =>
      match insert_into_vehicles e users t
              (to_sql (vb_user_id b)) (to_sql (vb_make b)) (to_sql (vb_model b))
              (to_sql (vb_year b)) (to_sql (vb_color b))
              (to_sql (vb_license_plate b)) with
      | (Done row, t') => (Reply 201 (RowId (c_id row)), t')
      | (Raise _, t') => (handleError true, t')
      end
  end.

(** [app.put('/api/vehicles/:id', ...)] *)
Definition put_vehicles_id (t : table) (id : Z) (b : vehicle_body)
    : response * table :=
  match PgPromise.prepare sql_update_vehicle (id_and_body (vehicle_props b)) with
  | Raise _ => (handleError true, t)
  | Done _ =>
      match update_vehicles t id
              (to_sql (vb_make b)) (to_sql (vb_model b)) (to_sql (vb_year b))
              (to_sql (vb_color b)) (to_sql (vb_license_plate b)) with
      | (Raise _, t') => (handleError true, t')
      | (Done rows, t') =>
          match PgPromise.oneOrNone rows with
          | Done data => (returnDataOr404 (option_map RowId data), t')
          | Raise _ => (handleError true, t')
          end
      end
  end.

(** [app.delete('/api/vehicles/:id', ...)] *)
Definition delete_vehicles_id (t : table) (id : Z) : response * table :=
  match PgPromise.prepare sql_delete_vehicle params with
  | Raise _ => (handleError true, t)
  | Done _ =>
      match delete_from_vehicles t id with
      | (Raise _, t') => (handleError true, t')
      | (Done rows, t') =>
          match PgPromise.oneOrNone rows with
          | Done data => (returnDataOr404 (option_map RowId data), t')
          | Raise _ => (handleError true, t')
          end
      end
  end.

(** Primary keys are distinct and below the sequence; license plates are
    [UNIQUE]. *)
Definition wf_table (t : table) : bool :=
  keys_ok (vehicles_id_seq t) (map c_id (vehicles t))
  && distinct String.eqb (map c_license_plate (vehicles t)).

End Vehicles.

(** The body has the six properties the [INSERT INTO vehicles] names. *)
Definition vehicle_complete (b : Vehicles.vehicle_body) : bool :=
  present (Vehicles.vb_user_id b) && present (Vehicles.vb_make b)
  && present (Vehicles.vb_model b) && present (Vehicles.vb_year b)
  && present (Vehicles.vb_color b) && present (Vehicles.vb_license_plate b).

(** A car of user 1, and a table that holds it. *)
Definition civic : Vehicles.vehicle :=
  Vehicles.mk_vehicle 1 (Some 1) "Honda" "Civic" "2019" (Some "blue") "ABC 123"
                      28700000.

Definition garage : Vehicles.table := Vehicles.mk_table [civic] 2.

Definition registration (license_plate : string) : Vehicles.vehicle_body :=
  Vehicles.mk_vehicle_body (Val 1) (Val "Ford") (Val "Focus") (Val "2021") Null
                           (Val license_plate).

(** The writing requests on vehicles. *)
Inductive vehicle_request : Type :=
| PostVehicles (b : Vehicles.vehicle_body)
| PutVehiclesId (id : Z) (b : Vehicles.vehicle_body)
| DeleteVehiclesId (id : Z).

Definition serve (e : env) (users : list user) (t : Vehicles.table)
    (r : vehicle_request) : response * Vehicles.table :=
  match r with
  | PostVehicles b => Vehicles.post_vehicles e users t b
  | PutVehiclesId id b => Vehicles.put_vehicles_id t id b
  | DeleteVehiclesId id => Vehicles.delete_vehicles_id t id
  end.

(** The writing requests on issues, of both applications. *)
Inductive issue_request : Type :=
| ServerPostIssues (b : Issues.issue_body)
| ServerPatchIssuesId (id : Z) (b : Issues.patch_body)
| ServerDeleteIssuesId (id : Z)
| PostIssues (b : ServiceIssues.new_issue_body)
| PutIssuesId (id : Z) (b : ServiceIssues.issue_change_body)
| PatchIssuesIdRead (id : Z)
| DeleteIssuesId (id : Z).

Definition file (e : env) (users : list user) (t : Issues.table)
    (r : issue_request) : Issues.table :=
  match r with
  | ServerPostIssues b => snd (Issues.post_issues e t b)
  | ServerPatchIssuesId id b => snd (Issues.patch_issues_id e t id b)
  | ServerDeleteIssuesId id => snd (Issues.delete_issues_id t id)
  | PostIssues b => snd (ServiceIssues.post_issues e users t b)
  | PutIssuesId id b => snd (ServiceIssues.put_issues_id e t id b)
  | PatchIssuesIdRead id => snd (ServiceIssues.patch_issues_id_read e t id)
  | DeleteIssuesId id => snd (ServiceIssues.delete_issues_id t id)
  end.

(** Every stored status is one of the four allowed ones, or [NULL]. *)
Definition statuses_ok (t : Issues.table) : bool :=
  forallb (fun r => Pg.check_in Issues.issue_status_values (Issues.i_status r))
          (Issues.issues t).

(** The state of the issues that the handlers keep: distinct ids below
    the sequence, and allowed statuses. *)
Definition consistent (t : Issues.table) : Prop :=
  Issues.wf_table t = true /\ statuses_ok t = true.

(** The tables of issues the two applications can make of an empty one. *)
Inductive filed : Issues.table -> Prop :=
| filed_empty : filed (Issues.mk_table [] 1)
| filed_step (e : env) (users : list user) (t : Issues.table)
    (r : issue_request) :
    filed t -> filed (file e users t r).

(* ================================================================== *)
(** * Lemmas on tables *)
(* ================================================================== *)

Section Tables.

Context {R : Type} (key : R -> Z).

Lemma has_key_in (l : list R) (r : R) : In r l -> has_key key l (key r) = true.
Proof.
  intro H. unfold has_key. apply existsb_exists. exists r. split; [exact H|].
  apply Z.eqb_refl.
Qed.

Lemma has_key_false_filter (l : list R) (k : Z) :
  has_key key l k = false -> filter (fun r => key r =? k) l = [].
Proof.
  induction l as [|a l IH]; simpl; intro H; [reflexivity|].
  apply orb_false_iff in H. destruct H as [Ha Hl].
  rewrite Ha. now apply IH.
Qed.

Lemma has_key_filter_out (l : list R) (k : Z) :
  has_key key (filter (fun r => negb (key r =? k)) l) k = false.
Proof.
  induction l as [|a l IH]; simpl; [reflexivity|].
  destruct (key a =? k) eqn:E; simpl; [exact IH|].
  rewrite E. exact IH.
Qed.

Lemma below_fresh (l : list R) (next : Z) :
  below next (map key l) = true -> has_key key l next = false.
Proof.
  induction l as [|a l IH]; simpl; intro H; [reflexivity|].
  apply andb_true_iff in H. destruct H as [Ha Hl].
  apply Z.ltb_lt in Ha.
  replace (key a =? next) with false by (symmetry; apply Z.eqb_neq; lia).
  now apply IH.
Qed.

Lemma existsb_eqb_map (l : list R) (k : Z) :
  existsb (Z.eqb k) (map key l) = has_key key l k.
Proof.
  induction l as [|a l IH]; simpl; [reflexivity|].
  now rewrite IH, (Z.eqb_sym k).
Qed.

(** With distinct keys, selecting by the key of a stored row returns that
    row alone. *)
Lemma distinct_filter_one (l : list R) (r : R) :
  distinct Z.eqb (map key l) = true -> In r l ->
  filter (fun x => key x =? key r) l = [r].
Proof.
  induction l as [|a l IH]; simpl; intros D H; [contradiction|].
  apply andb_true_iff in D. destruct D as [Da Dl].
  apply negb_true_iff in Da. rewrite existsb_eqb_map in Da.
  destruct H as [->|H].
  - rewrite Z.eqb_refl. f_equal. now apply has_key_false_filter.
  - assert ((key a =? key r) = false) as E.
    { destruct (key a =? key r) eqn:E; [|reflexivity].
      apply Z.eqb_eq in E. rewrite E in Da.
      now rewrite (has_key_in l r H) in Da. }
    rewrite E. now apply IH.
Qed.

End Tables.

Lemma keys_ok_fresh {R} (key : R -> Z) (l : list R) (next : Z) :
  keys_ok next (map key l) = true -> has_key key l next = false.
Proof.
  unfold keys_ok. intro H. apply andb_true_iff in H.
  apply below_fresh. tauto.
Qed.

Lemma wf_schedules (s : store) :
  wf s = true -> keys_ok (schedules_id_seq s) (map s_id (schedules s)) = true.
Proof. unfold wf. intro H. rewrite !andb_true_iff in H. tauto. Qed.

Lemma wf_parking_lots (s : store) :
  wf s = true -> keys_ok (parking_lots_id_seq s) (map l_id (parking_lots s)) = true.
Proof. unfold wf. intro H. rewrite !andb_true_iff in H. tauto. Qed.

Lemma wf_users (s : store) :
  wf s = true -> keys_ok (users_id_seq s) (map u_id (users s)) = true.
Proof. unfold wf. intro H. rewrite !andb_true_iff in H. tauto. Qed.

Lemma wf_emails (s : store) :
  wf s = true -> distinct String.eqb (map u_email (users s)) = true.
Proof. unfold wf. intro H. rewrite !andb_true_iff in H. tauto. Qed.

Lemma keys_ok_distinct (next : Z) (ids : list Z) :
  keys_ok next ids = true -> distinct Z.eqb ids = true.
Proof. unfold keys_ok. intro H. apply andb_true_iff in H. tauto. Qed.

(* ================================================================== *)
(** * Cancelling a schedule *)
(* ================================================================== *)

Lemma prepare_delete_schedule :
  PgPromise.prepare Service.sql_delete_schedule Service.params = Done tt.
Proof. reflexivity. Qed.

Lemma has_key_false_filter_out {R} (key : R -> Z) (l : list R) (k : Z) :
  has_key key l k = false -> filter (fun r => negb (key r =? k)) l = l.
Proof.
  induction l as [|a l IH]; simpl; intro H; [reflexivity|].
  apply orb_false_iff in H. destruct H as [Ha Hl].
  rewrite Ha. simpl. now rewrite IH.
Qed.

Lemma delete_schedules_id_present (s : store) (row : schedule) :
  distinct Z.eqb (map s_id (schedules s)) = true ->
  In row (schedules s) -> Pg.int4_ok (s_id row) = true ->
  Service.delete_schedules_id s (s_id row)
  = (Reply 200 (RowId (s_id row)),
     set_schedules s (filter (fun r => negb (s_id r =? s_id row)) (schedules s))
                   (schedules_id_seq s)).
Proof.
  intros D H I.
  unfold Service.delete_schedules_id. rewrite prepare_delete_schedule.
  unfold delete_from_schedules. simpl Pg.int4. rewrite I.
  now rewrite (distinct_filter_one s_id _ row D H).
Qed.

Lemma delete_schedules_id_absent (s : store) (id : Z) :
  has_key s_id (schedules s) id = false -> Pg.int4_ok id = true ->
  Service.delete_schedules_id s id = (SendStatus 404, s).
Proof.
  intros H I.
  unfold Service.delete_schedules_id. rewrite prepare_delete_schedule.
  unfold delete_from_schedules. simpl Pg.int4. rewrite I.
  rewrite (has_key_false_filter s_id _ _ H).
  rewrite (has_key_false_filter_out s_id _ _ H).
  now destruct s.
Qed.

(** Claim C2, as the code has it: [DELETE /api/schedules/:id] of the
    pg-promise service removes the row of an existing schedule and
    answers 200 with its id, writing no status; the other rows stay; a
    second request for the same id finds nothing, answers 404 and changes
    nothing. *)
Theorem delete_schedules_id_removes_row (s : store) (row : schedule) :
  wf s = true -> In row (schedules s) -> Pg.int4_ok (s_id row) = true ->
  exists s1,
    Service.delete_schedules_id s (s_id row) = (Reply 200 (RowId (s_id row)), s1)
    /\ schedules s1 = filter (fun r => negb (s_id r =? s_id row)) (schedules s)
    /\ has_key s_id (schedules s1) (s_id row) = false
    /\ Service.delete_schedules_id s1 (s_id row) = (SendStatus 404, s1).
Proof.
  intros W H I.
  pose proof (keys_ok_distinct _ _ (wf_schedules s W)) as D.
  eexists. split; [now apply delete_schedules_id_present|].
  split; [reflexivity|].
  split; [apply has_key_filter_out|].
  apply delete_schedules_id_absent; [apply has_key_filter_out|exact I].
Qed.

Lemma delete_schedules_id_removes_row_witness :
  exists s1,
    Service.delete_schedules_id booked 1 = (Reply 200 (RowId 1), s1)
    /\ schedules s1 = []
    /\ has_key s_id (schedules s1) 1 = false
    /\ Service.delete_schedules_id s1 1 = (SendStatus 404, s1).
Proof.
  exact (delete_schedules_id_removes_row booked
           (mk_schedule 1 (Some 1) (Some 1) (Some "A40") (hm 9 0) (hm 10 30) 20120
                 (Some false) None (Some "North Campus") (Some "North Lot")
                 (Some "active") 28900000 28900000)
           eq_refl (or_introl eq_refl) eq_refl).
Defined.

(** Claim C2 as stated fails: after the first [DELETE] of schedule 1 the
    row is gone (no row with status [cancelled] is left behind), and the
    second [DELETE] answers 404. *)
Lemma cancel_is_not_idempotent :
  let (r1, s1) := Service.delete_schedules_id booked 1 in
  let (r2, s2) := Service.delete_schedules_id s1 1 in
  code r1 = 200 /\ schedules s1 = [] /\ code r2 = 404.
Proof. vm_compute. repeat split. Qed.

(** [server.js] registers no route for cancelling at all. *)
Lemma server_has_no_schedule_delete (id : string) (s : store) :
  Server.unrouted DELETE ["api"; "schedules"; id] s
  = Some (Fail 404 "Route not found" None, s).
Proof. reflexivity. Qed.

(* ================================================================== *)
(** * The occupancy query *)
(* ================================================================== *)

(** Claim C8, as the code has it: neither application registers an
    occupancy route.  A [GET] of [/lots/{id}/occupancy], also under
    [/api] and under [/api/parking-lots], falls through to the 404
    handler, which leaves the store as it is and reports no status for
    any spot. *)
Theorem occupancy_is_not_routed (id : string) (s : store) :
  Server.unrouted GET ["lots"; id; "occupancy"] s
    = Some (Fail 404 "Route not found" None, s)
  /\ Server.unrouted GET ["api"; "lots"; id; "occupancy"] s
    = Some (Fail 404 "Route not found" None, s)
  /\ Server.unrouted GET ["api"; "parking-lots"; id; "occupancy"] s
    = Some (Fail 404 "Route not found" None, s)
  /\ Service.unrouted GET ["lots"; id; "occupancy"] s
    = Some (Fail 404 "Endpoint not found" None, s)
  /\ Service.unrouted GET ["api"; "lots"; id; "occupancy"] s
    = Some (Fail 404 "Endpoint not found" None, s)
  /\ Service.unrouted GET ["api"; "parking-lots"; id; "occupancy"] s
    = Some (Fail 404 "Endpoint not found" None, s).
Proof. repeat split. Qed.

(** Claim C8 as stated fails: asked for the occupancy of the North Lot,
    whose spot [A40] is disabled, both applications answer 404 and report
    no status [disabled] (nor any other) for [A40]. *)
Lemma occupancy_reports_nothing :
  Server.unrouted GET ["api"; "parking-lots"; "1"; "occupancy"] disabled_while_booked
    = Some (Fail 404 "Route not found" None, disabled_while_booked)
  /\ Service.unrouted GET ["api"; "parking-lots"; "1"; "occupancy"] disabled_while_booked
    = Some (Fail 404 "Endpoint not found" None, disabled_while_booked)
  /\ Server.unrouted GET ["lots"; "1"; "occupancy"] disabled_while_booked
    = Some (Fail 404 "Route not found" None, disabled_while_booked)
  /\ Service.unrouted GET ["lots"; "1"; "occupancy"] disabled_while_booked
    = Some (Fail 404 "Endpoint not found" None, disabled_while_booked).
Proof. repeat split. Qed.

(* ================================================================== *)
(** * Deleting a user *)
(* ================================================================== *)

(** In [sql_delete_user] the text between [${] and [}] is
    ["inactive"] with its quotation marks, which is not a parameter name:
    the only named parameter is [id], and the rest reaches the server as
    written. *)
Lemma names_of_delete_user :
  PgPromise.names (PgPromise.namedParameters Service.sql_delete_user) = ["id"].
Proof. reflexivity. Qed.

Lemma prepare_delete_user :
  PgPromise.prepare Service.sql_delete_user Service.params = Raise syntax_error.
Proof. reflexivity. Qed.

Lemma delete_users_id_always_fails (e : env) (s : store) (id : Z) :
  Service.delete_users_id e s id = (Fail 500 "Internal server error" None, s).
Proof. unfold Service.delete_users_id. now rewrite prepare_delete_user. Qed.

(** Claim C9 at user 1: the request is answered 500, and the user read
    back afterwards is still [active]. *)
Theorem delete_users_id_leaves_user_active :
  Service.delete_users_id clock base 1 = (Fail 500 "Internal server error" None, base)
  /\ Service.get_users_id base 1 = (Reply 200 (UserRow (view max_wu)), base)
  /\ v_status (view max_wu) = Some "active".
Proof. repeat split. Qed.

(* ================================================================== *)
(** * Creating a user *)
(* ================================================================== *)

Lemma existsb_eqb_email (l : list user) (m : string) :
  existsb (String.eqb m) (map u_email l)
  = existsb (fun u => String.eqb (u_email u) m) l.
Proof.
  induction l as [|a l IH]; simpl; [reflexivity|].
  now rewrite IH, (String.eqb_sym m).
Qed.

Lemma no_email_filter (l : list user) (m : string) :
  existsb (fun u => String.eqb (u_email u) m) l = false ->
  filter (fun u => String.eqb (u_email u) m) l = [].
Proof.
  induction l as [|a l IH]; simpl; intro H; [reflexivity|].
  apply orb_false_iff in H. destruct H as [Ha Hl].
  rewrite Ha. now apply IH.
Qed.

(** [users.email] being unique, the lookup by a stored e-mail returns
    one row. *)
Lemma email_filter_one (l : list user) (u : user) :
  distinct String.eqb (map u_email l) = true -> In u l ->
  filter (fun x => String.eqb (u_email x) (u_email u)) l = [u].
Proof.
  induction l as [|a l IH]; simpl; intros D H; [contradiction|].
  apply andb_true_iff in D. destruct D as [Da Dl].
  apply negb_true_iff in Da. rewrite existsb_eqb_email in Da.
  destruct H as [->|H].
  - rewrite String.eqb_refl. f_equal. now apply no_email_filter.
  - assert (String.eqb (u_email a) (u_email u) = false) as E.
    { destruct (String.eqb (u_email a) (u_email u)) eqn:E; [|reflexivity].
      apply String.eqb_eq in E. rewrite E in Da.
      assert (existsb (fun x => String.eqb (u_email x) (u_email u)) l = true) as X.
      { apply existsb_exists. exists u. split; [exact H|apply String.eqb_refl]. }
      now rewrite X in Da. }
    rewrite E. now apply IH.
Qed.

Lemma insert_into_users_done (e : env) (s s' : store)
    (name email phone hash role department status avatar : option string)
    (row : user) :
  insert_into_users e s name email phone hash role department status avatar
    = (Done row, s') ->
  users s' = (users s ++ [row])%list /\ email = Some (u_email row)
  /\ u_id row = users_id_seq s.
Proof.
  unfold insert_into_users, bind, guard, Pg.not_null. intro H.
  repeat (break_match_in H; try discriminate).
  inversion H. subst. simpl. auto.
Qed.

(** An [INSERT] under an address some user has is refused, and leaves the
    users as they were. *)
Lemma insert_into_users_duplicate (e : env) (s : store) (m : string)
    (name phone password_hash role department status avatar : option string) :
  stored_email s m = true ->
  exists err s',
    insert_into_users e s name (Some m) phone password_hash role department
      status avatar = (Raise err, s')
    /\ users s' = users s.
Proof.
  unfold stored_email. intro D.
  unfold insert_into_users.
  destruct (_ ;;; _) as [x|err]; [|eexists; eexists; split; reflexivity].
  unfold bind, guard, Pg.not_null. rewrite D. cbn [negb].
  repeat (break_match; try discriminate).
  all: eexists; eexists; split; reflexivity.
Qed.

(** Claim C10, as the code has it: [POST /api/users] of the pg-promise
    service answers 400 and stores nothing when name, e-mail, password or
    role is missing, and a user it creates is stored with the submitted
    e-mail in lower case.  Its duplicate check looks the e-mail up as it
    was submitted: a request whose e-mail some user has letter for letter
    is answered 409 and leaves the store as it was; one whose e-mail no
    user has as submitted, while a user has its lower-case form (the form
    every sign-up stores), passes the check and is refused by the
    [UNIQUE] constraint, with 500 and no new user. *)
Theorem post_users_duplicate_check_compares_as_submitted (e : env) (s : store)
    (b : user_body) :
  (truthy_string (ub_name b) && truthy_string (ub_email b)
   && truthy_string (ub_password b) && truthy_string (ub_role b) = false ->
   Service.post_users e s b = (Fail 400 missing_fields None, s))
  /\ (wf s = true ->
      truthy_string (ub_name b) && truthy_string (ub_email b)
      && truthy_string (ub_password b) && truthy_string (ub_role b) = true ->
      forall u, In u (users s) -> ub_email b = Val (u_email u) ->
      Service.post_users e s b
      = (Fail 409 "A user with this email already exists" None, s))
  /\ (truthy_string (ub_name b) && truthy_string (ub_email b)
      && truthy_string (ub_password b) && truthy_string (ub_role b) = true ->
      forall m, ub_email b = Val m ->
      stored_email s m = false -> stored_email s (toLowerCase m) = true ->
      fst (Service.post_users e s b) = Fail 500 "Internal server error" None
      /\ users (snd (Service.post_users e s b)) = users s)
  /\ (forall v s', Service.post_users e s b = (Reply 201 (UserRow v), s') ->
      exists m u, ub_email b = Val m /\ users s' = (users s ++ [u])%list
                  /\ u_email u = toLowerCase m /\ v = view u).
Proof.
  split; [|split; [|split]].
  - intro H. unfold Service.post_users.
    destruct (truthy_string (ub_name b)), (truthy_string (ub_email b)),
      (truthy_string (ub_password b)), (truthy_string (ub_role b));
      simpl in *; try discriminate; reflexivity.
  - intros W T u Hu Hm. unfold Service.post_users.
    rewrite !andb_true_iff in T. destruct T as [[[-> T2] ->] ->].
    rewrite T2. simpl. rewrite Hm. simpl.
    now rewrite (email_filter_one _ u (wf_emails s W) Hu).
  - intros T m Hm N L. unfold Service.post_users.
    rewrite !andb_true_iff in T. destruct T as [[[-> T2] ->] ->].
    rewrite T2. cbn [negb orb]. rewrite Hm. cbn [to_sql option_map].
    unfold select_id_by_email. cbn [bind].
    rewrite (no_email_filter _ _ N). cbn [map PgPromise.oneOrNone].
    destruct (PgPromise.prepare _ _); [|split; reflexivity].
    match goal with
    | |- context [insert_into_users e s ?n _ ?p ?h ?r ?d ?st ?a] =>
        destruct (insert_into_users_duplicate e s (toLowerCase m)
                    n p h r d st a L) as (err & s1 & -> & U)
    end.
    split; [reflexivity|exact U].
  - intros v s' H. unfold Service.post_users in H.
    repeat (break_match_in H; try discriminate).
    inversion H. subst.
    match goal with
    | X : insert_into_users _ _ _ _ _ _ _ _ _ _ = _ |- _ =>
        apply insert_into_users_done in X; destruct X as [Hs [Hm _]]
    end.
    destruct (ub_email b) as [| |m]; try discriminate.
    simpl in Hm. inversion Hm.
    match goal with
    | X : users s' = (users s ++ [?u])%list |- _ => exists m, u
    end.
    repeat split; auto.
Qed.

Lemma post_users_duplicate_check_compares_as_submitted_witness :
  Service.post_users clock base (new_user "" "a@calvin.edu")
    = (Fail 400 missing_fields None, base)
  /\ Service.post_users clock base (new_user "Max" "max.wu@calvin.edu")
    = (Fail 409 "A user with this email already exists" None, base)
  /\ (let s1 := snd (Service.post_users clock base
                       (new_user "Simon T" "Simon.T@Calvin.edu")) in
      fst (Service.post_users clock s1 (new_user "Simon T" "Simon.T@Calvin.edu"))
      = Fail 500 "Internal server error" None
      /\ users (snd (Service.post_users clock s1
                       (new_user "Simon T" "Simon.T@Calvin.edu")))
         = users s1)
  /\ exists m u,
       ub_email (new_user "Simon T" "Simon.T@Calvin.edu") = Val m
       /\ users (snd (Service.post_users clock base
                        (new_user "Simon T" "Simon.T@Calvin.edu")))
          = (users base ++ [u])%list
       /\ u_email u = toLowerCase m
       /\ mk_user_view 2 "Simon T" "simon.t@calvin.edu" None "user"
            (Some "General") (Some "active") None 29000000 = view u.
Proof.
  split; [|split; [|split]].
  - exact (proj1 (post_users_duplicate_check_compares_as_submitted clock base
                    (new_user "" "a@calvin.edu")) eq_refl).
  - exact (proj1 (proj2 (post_users_duplicate_check_compares_as_submitted
                           clock base (new_user "Max" "max.wu@calvin.edu")))
             eq_refl eq_refl max_wu (or_introl eq_refl) eq_refl).
  - exact (proj1 (proj2 (proj2
             (post_users_duplicate_check_compares_as_submitted clock
                (snd (Service.post_users clock base
                        (new_user "Simon T" "Simon.T@Calvin.edu")))
                (new_user "Simon T" "Simon.T@Calvin.edu"))))
             eq_refl "Simon.T@Calvin.edu" eq_refl eq_refl eq_refl).
  - exact (proj2 (proj2 (proj2
             (post_users_duplicate_check_compares_as_submitted clock base
                (new_user "Simon T" "Simon.T@Calvin.edu"))))
             _ _ eq_refl).
Defined.

(** The lookup compares the e-mail as submitted, the insertion stores it
    in lower case: an address differing from a stored one in case only
    passes the lookup and is refused by the [UNIQUE] constraint, with
    500 and no new row. *)
Lemma post_users_case_variant :
  let (r, s') := Service.post_users clock base (new_user "Max" "Max.Wu@calvin.edu") in
  code r = 500 /\ users s' = users base.
Proof. vm_compute. split; reflexivity. Qed.

(* ================================================================== *)
(** * Creating a schedule *)
(* ================================================================== *)

(** ** The named parameters of the service's [INSERT INTO schedules] *)

Lemma prepare_insert_schedule (has : string -> bool) :
  PgPromise.prepare Service.sql_insert_schedule has
  = match find (fun n => negb (has n))
            ["user_id"; "parking_lot_id"; "spot_number"; "start_time";
             "end_time"; "date"; "is_recurring"; "recurring_days"; "location";
             "parking_lot"; "status"] with
    | Some n => Raise (property_missing n)
    | None => Done tt
    end.
Proof. vm_compute. reflexivity. Qed.

(** The query is sent exactly when the body has all eleven properties. *)
Lemma prepare_schedule_cases (b : schedule_body) :
  (schedule_complete b = true
   /\ PgPromise.prepare Service.sql_insert_schedule (Service.schedule_props b)
      = Done tt)
  \/ (schedule_complete b = false
      /\ exists n,
           PgPromise.prepare Service.sql_insert_schedule (Service.schedule_props b)
           = Raise (property_missing n)).
Proof.
  rewrite prepare_insert_schedule.
  unfold schedule_complete, Service.schedule_props, PgPromise.has_own.
  simpl.
  repeat match goal with
         | |- context [present ?f] =>
             destruct (present f); simpl;
             [|right; split; [reflexivity|eexists; reflexivity]]
         end.
  left. split; reflexivity.
Qed.

Section InsertSchedule.

Variables (user_id parking_lot_id : option Z) (spot_number : option string)
          (start_time end_time date : option Z)
          (location parking_lot : option string)
          (is_recurring : option bool) (recurring_days : option json)
          (status : option string).

(** An accepted row is appended under the next id of the sequence and
    carries the arguments as they were given. *)
Lemma insert_into_schedules_done (e : env) (s s' : store) (row : schedule) :
  insert_into_schedules e s user_id parking_lot_id spot_number
    start_time end_time date location parking_lot is_recurring
    recurring_days status = (Done row, s') ->
  s' = set_schedules s (schedules s ++ [row]) (schedules_id_seq s + 1)
  /\ row = mk_schedule (schedules_id_seq s) user_id parking_lot_id spot_number
             (s_start_time row) (s_end_time row) (s_date row)
             is_recurring recurring_days location parking_lot status
             (now e) (now e)
  /\ start_time = Some (s_start_time row)
  /\ end_time = Some (s_end_time row)
  /\ date = Some (s_date row)
  /\ Pg.check_in status_values status = true.
Proof.
  unfold insert_into_schedules, bind, guard, Pg.not_null. intro H.
  repeat (break_match_in H; try discriminate).
  inversion H. subst. simpl. auto 10.
Qed.

(** A refused row changes no table. *)
Lemma insert_into_schedules_raise (e : env) (s s' : store) (err : db_error) :
  insert_into_schedules e s user_id parking_lot_id spot_number
    start_time end_time date location parking_lot is_recurring
    recurring_days status = (Raise err, s') ->
  schedules s' = schedules s /\ users s' = users s
  /\ parking_lots s' = parking_lots s /\ spots s' = spots s.
Proof.
  unfold insert_into_schedules, bind, guard, Pg.not_null. intro H.
  repeat (break_match_in H; try discriminate); inversion H; subst; simpl; auto.
Qed.

(** Whether a row is accepted, and with which error it is refused, is
    decided by the arguments, the [users] and [parking_lots] tables and
    the freshness of the next id: neither the clock nor the rows of
    [schedules] take part. *)
Lemma insert_into_schedules_outcome (e1 e2 : env) (s1 s2 : store) :
  users s1 = users s2 -> parking_lots s1 = parking_lots s2 ->
  has_key s_id (schedules s1) (schedules_id_seq s1)
  = has_key s_id (schedules s2) (schedules_id_seq s2) ->
  match fst (insert_into_schedules e1 s1 user_id parking_lot_id spot_number
               start_time end_time date location parking_lot is_recurring
               recurring_days status),
        fst (insert_into_schedules e2 s2 user_id parking_lot_id spot_number
               start_time end_time date location parking_lot is_recurring
               recurring_days status) with
  | Done _, Done _ => True
  | Raise a, Raise b => a = b
  | _, _ => False
  end.
Proof.
  unfold insert_into_schedules, bind, guard, Pg.not_null.
  intros -> -> ->.
  repeat (break_match; try discriminate; simpl; auto).
Qed.

End InsertSchedule.

Lemma server_post_schedules_created (e : env) (s s' : store) (b : schedule_body)
    (row : schedule) :
  Server.post_schedules e s b = (Reply 201 (ScheduleRow row), s') ->
  s' = set_schedules s (schedules s ++ [row]) (schedules_id_seq s + 1)
  /\ sb_start_time b = Val (s_start_time row)
  /\ sb_end_time b = Val (s_end_time row)
  /\ sb_date b = Val (s_date row)
  /\ s_status row = Some "pending".
Proof.
  unfold Server.post_schedules. intro H.
  case_insert_schedule r err s1 X; [|discriminate].
  inversion H. subst.
  apply insert_into_schedules_done in X.
  destruct X as (Hs & Hr & Hst & Hen & Hd & _).
  split; [exact Hs|]. rewrite Hr at 4. simpl.
  destruct (sb_start_time b), (sb_end_time b), (sb_date b); try discriminate.
  simpl in *. inversion Hst. inversion Hen. inversion Hd. auto.
Qed.

Lemma service_post_schedules_created (e : env) (s s' : store) (b : schedule_body)
    (id : Z) :
  Service.post_schedules e s b = (Reply 201 (RowId id), s') ->
  exists row,
    s' = set_schedules s (schedules s ++ [row]) (schedules_id_seq s + 1)
    /\ s_id row = id
    /\ sb_start_time b = Val (s_start_time row)
    /\ sb_end_time b = Val (s_end_time row)
    /\ sb_date b = Val (s_date row)
    /\ s_status row = to_sql (sb_status b)
    /\ Pg.check_in status_values (s_status row) = true
    /\ schedule_complete b = true.
Proof.
  unfold Service.post_schedules. intro H.
  destruct (prepare_schedule_cases b) as [[Q P]|[Q [n P]]];
    rewrite P in H; cbn [bind] in H; [|discriminate].
  case_as_jsonb days J; [|discriminate].
  case_insert_schedule r err s1 X; [|discriminate].
  inversion H. subst.
  apply insert_into_schedules_done in X.
  destruct X as (Hs & Hr & Hst & Hen & Hd & Hc).
  exists r. split; [exact Hs|]. split; [reflexivity|].
  assert (s_status r = to_sql (sb_status b)) as E by (rewrite Hr; reflexivity).
  rewrite E.
  destruct (sb_start_time b), (sb_end_time b), (sb_date b); try discriminate.
  simpl in *. inversion Hst. inversion Hen. inversion Hd. auto 10.
Qed.

(** The two handlers answer 201 or 500, never anything else. *)
Lemma server_post_schedules_codes (e : env) (s : store) (b : schedule_body) :
  code (fst (Server.post_schedules e s b)) = 201
  \/ code (fst (Server.post_schedules e s b)) = 500.
Proof.
  unfold Server.post_schedules.
  case_insert_schedule r err s1 X; simpl; auto.
Qed.

Lemma service_post_schedules_codes (e : env) (s : store) (b : schedule_body) :
  code (fst (Service.post_schedules e s b)) = 201
  \/ code (fst (Service.post_schedules e s b)) = 500.
Proof.
  unfold Service.post_schedules.
  destruct (PgPromise.prepare _ _); cbn [bind]; [|simpl; auto].
  case_as_jsonb days J; [|simpl; auto].
  case_insert_schedule r err s1 X; simpl; auto.
Qed.

Lemma server_post_schedules_decision (e1 e2 : env) (s1 s2 : store)
    (b : schedule_body) :
  users s1 = users s2 -> parking_lots s1 = parking_lots s2 ->
  has_key s_id (schedules s1) (schedules_id_seq s1)
  = has_key s_id (schedules s2) (schedules_id_seq s2) ->
  decision (fst (Server.post_schedules e1 s1 b))
  = decision (fst (Server.post_schedules e2 s2 b)).
Proof.
  intros U L K. unfold Server.post_schedules.
  match goal with
  | |- context [insert_into_schedules e1 s1 ?a ?b ?c ?d ?f ?g ?h ?i ?j ?k ?l] =>
      pose proof (insert_into_schedules_outcome a b c d f g h i j k l
                    e1 e2 s1 s2 U L K) as O
  end.
  case_insert_schedule r1 err1 t1 X1; case_insert_schedule r2 err2 t2 X2;
    simpl in *; try contradiction; congruence.
Qed.

Lemma service_post_schedules_decision (e1 e2 : env) (s1 s2 : store)
    (b : schedule_body) :
  users s1 = users s2 -> parking_lots s1 = parking_lots s2 ->
  has_key s_id (schedules s1) (schedules_id_seq s1)
  = has_key s_id (schedules s2) (schedules_id_seq s2) ->
  decision (fst (Service.post_schedules e1 s1 b))
  = decision (fst (Service.post_schedules e2 s2 b)).
Proof.
  intros U L K. unfold Service.post_schedules.
  destruct (PgPromise.prepare _ _); cbn [bind]; [|reflexivity].
  case_as_jsonb days J; [|reflexivity].
  match goal with
  | |- context [insert_into_schedules e1 s1 ?a ?b ?c ?d ?f ?g ?h ?i ?j ?k ?l] =>
      pose proof (insert_into_schedules_outcome a b c d f g h i j k l
                    e1 e2 s1 s2 U L K) as O
  end.
  case_insert_schedule r1 err1 t1 X1; case_insert_schedule r2 err2 t2 X2;
    simpl in *; try contradiction; congruence.
Qed.

Lemma wf_fresh_schedule (s : store) :
  wf s = true -> has_key s_id (schedules s) (schedules_id_seq s) = false.
Proof. intro W. apply keys_ok_fresh. now apply wf_schedules. Qed.








(** Claim C7: the decision of [POST /api/schedules] (status code, and
    for a refusal its message and the error reported) is a function of
    the committed store and the request body: evaluated twice on the same
    store with the same body, at whatever times, both applications decide
    alike. *)
Theorem post_schedules_decision_deterministic (e1 e2 : env) (s : store)
    (b : schedule_body) :
  decision (fst (Server.post_schedules e1 s b))
    = decision (fst (Server.post_schedules e2 s b))
  /\ decision (fst (Service.post_schedules e1 s b))
    = decision (fst (Service.post_schedules e2 s b)).
Proof.
  split.
  - now apply server_post_schedules_decision.
  - now apply service_post_schedules_decision.
Qed.

(** ** Time ranges *)

Lemma insert_into_schedules_exchange (e : env) (s : store)
    (user_id parking_lot_id : option Z) (spot_number : option string)
    (start_time end_time date : option Z) (location parking_lot : option string)
    (is_recurring : option bool) (recurring_days : option json)
    (status : option string) :
  match fst (insert_into_schedules e s user_id parking_lot_id spot_number
               start_time end_time date location parking_lot is_recurring
               recurring_days status),
        fst (insert_into_schedules e s user_id parking_lot_id spot_number
               end_time start_time date location parking_lot is_recurring
               recurring_days status) with
  | Done _, Done _ => True
  | Raise _, Raise _ => True
  | _, _ => False
  end.
Proof.
  unfold insert_into_schedules, bind, guard, Pg.not_null.
  repeat (break_match; try discriminate; simpl; auto).
Qed.

Lemma server_post_schedules_exchange (e : env) (s : store) (b : schedule_body) :
  code (fst (Server.post_schedules e s (exchange_times b)))
  = code (fst (Server.post_schedules e s b)).
Proof.
  unfold Server.post_schedules, exchange_times. simpl.
  match goal with
  | |- context [insert_into_schedules e s ?a ?b ?c ?d ?f ?g ?h ?i ?j ?k ?l] =>
      pose proof (insert_into_schedules_exchange e s a b c d f g h i j k l) as O
  end.
  case_insert_schedule r1 err1 t1 X1; case_insert_schedule r2 err2 t2 X2;
    simpl in *; try contradiction; reflexivity.
Qed.

Lemma schedule_complete_exchange (b : schedule_body) :
  schedule_complete (exchange_times b) = schedule_complete b.
Proof. unfold schedule_complete, exchange_times. simpl. btauto. Qed.

Lemma service_post_schedules_exchange (e : env) (s : store) (b : schedule_body) :
  code (fst (Service.post_schedules e s (exchange_times b)))
  = code (fst (Service.post_schedules e s b)).
Proof.
  unfold Service.post_schedules.
  destruct (prepare_schedule_cases b) as [[C ->]|[C [n ->]]];
    destruct (prepare_schedule_cases (exchange_times b)) as [[C' ->]|[C' [n' ->]]];
    rewrite schedule_complete_exchange in C'; try congruence; try reflexivity.
  unfold exchange_times. cbn [bind]. simpl.
  case_as_jsonb days J; [|reflexivity].
  match goal with
  | |- context [insert_into_schedules e s ?a ?b ?c ?d ?f ?g ?h ?i ?j ?k ?l] =>
      pose proof (insert_into_schedules_exchange e s a b c d f g h i j k l) as O
  end.
  case_insert_schedule r1 err1 t1 X1; case_insert_schedule r2 err2 t2 X2;
    simpl in *; try contradiction; reflexivity.
Qed.

(** Claim C3 as stated fails: the booking [10:00, 09:00), whose start is
    after its end, is answered 201 by both applications and its row is
    stored. *)
Lemma reversed_time_range_is_accepted :
  (let (r, s') := Server.post_schedules clock base (booking (hm 10 0) (hm 9 0) Absent) in
   code r = 201
   /\ map (fun x => (s_start_time x, s_end_time x)) (schedules s') = [(600, 540)])
  /\
  (let (r, s') := Service.post_schedules clock base
                    (booking (hm 10 0) (hm 9 0) (Val "pending")) in
   code r = 201
   /\ map (fun x => (s_start_time x, s_end_time x)) (schedules s') = [(600, 540)]).
Proof. split; vm_compute; split; reflexivity. Qed.

(** Claim C3, as the code has it: [POST /api/schedules] does not compare
    the two times.  It answers 201 or 500, never 400; a request and the request
    with its start and end time exchanged get the same status code; and
    an accepted request is stored with the times it gave, in whichever
    order they are. *)
Theorem post_schedules_accepts_any_time_order (e : env) (s : store)
    (b : schedule_body) :
  (code (fst (Server.post_schedules e s b)) = 201
   \/ code (fst (Server.post_schedules e s b)) = 500)
  /\ (code (fst (Service.post_schedules e s b)) = 201
      \/ code (fst (Service.post_schedules e s b)) = 500)
  /\ code (fst (Server.post_schedules e s (exchange_times b)))
     = code (fst (Server.post_schedules e s b))
  /\ code (fst (Service.post_schedules e s (exchange_times b)))
     = code (fst (Service.post_schedules e s b))
  /\ (forall row s',
        Server.post_schedules e s b = (Reply 201 (ScheduleRow row), s') ->
        schedules s' = (schedules s ++ [row])%list
        /\ sb_start_time b = Val (s_start_time row)
        /\ sb_end_time b = Val (s_end_time row))
  /\ (forall id s',
        Service.post_schedules e s b = (Reply 201 (RowId id), s') ->
        exists row,
          schedules s' = (schedules s ++ [row])%list /\ s_id row = id
          /\ sb_start_time b = Val (s_start_time row)
          /\ sb_end_time b = Val (s_end_time row)).
Proof.
  split; [apply server_post_schedules_codes|].
  split; [apply service_post_schedules_codes|].
  split; [apply server_post_schedules_exchange|].
  split; [apply service_post_schedules_exchange|].
  split.
  - intros row s' H. apply server_post_schedules_created in H.
    destruct H as (-> & Hst & Hen & _). auto.
  - intros id s' H. apply service_post_schedules_created in H.
    destruct H as (row & -> & Hid & Hst & Hen & _). exists row. auto.
Qed.

Lemma post_schedules_accepts_any_time_order_witness :
  schedules (snd (Server.post_schedules clock base (booking (hm 10 0) (hm 9 0) Absent)))
  = [mk_schedule 1 (Some 1) (Some 1) (Some "A40") 600 540 20120 (Some false) None
                 (Some "North Campus") (Some "North Lot") (Some "pending")
                 29000000 29000000]
  /\ sb_start_time (booking (hm 10 0) (hm 9 0) Absent) = Val 600
  /\ sb_end_time (booking (hm 10 0) (hm 9 0) Absent) = Val 540.
Proof.
  exact (proj1 (proj2 (proj2 (proj2 (proj2
           (post_schedules_accepts_any_time_order clock base
              (booking (hm 10 0) (hm 9 0) Absent))))))
           _ _ eq_refl).
Defined.

(** ** The status of a new schedule *)

(** Creating a schedule touches the [schedules] table and its sequence
    only. *)
Lemma server_post_schedules_frame (e : env) (s : store) (b : schedule_body) :
  spots (snd (Server.post_schedules e s b)) = spots s
  /\ users (snd (Server.post_schedules e s b)) = users s
  /\ parking_lots (snd (Server.post_schedules e s b)) = parking_lots s.
Proof.
  unfold Server.post_schedules.
  case_insert_schedule r err s1 X; simpl.
  - apply insert_into_schedules_done in X. destruct X as [-> _]. auto.
  - apply insert_into_schedules_raise in X. tauto.
Qed.

Lemma service_post_schedules_frame (e : env) (s : store) (b : schedule_body) :
  spots (snd (Service.post_schedules e s b)) = spots s
  /\ users (snd (Service.post_schedules e s b)) = users s
  /\ parking_lots (snd (Service.post_schedules e s b)) = parking_lots s.
Proof.
  unfold Service.post_schedules.
  destruct (PgPromise.prepare _ _); cbn [bind]; [|simpl; auto].
  case_as_jsonb days J; [|simpl; auto].
  case_insert_schedule r err s1 X; simpl.
  - apply insert_into_schedules_done in X. destruct X as [-> _]. auto.
  - apply insert_into_schedules_raise in X. tauto.
Qed.

(** Claim C4 as stated fails on the pg-promise service: a request whose
    body says [status: "active"] is answered 201 and stored as
    [active]. *)
Lemma service_stores_the_status_of_the_body :
  let (r, s') := Service.post_schedules clock base
                   (booking (hm 9 0) (hm 10 30) (Val "active")) in
  code r = 201 /\ map s_status (schedules s') = [Some "active"].
Proof. vm_compute. split; reflexivity. Qed.

(** Claim C4, as the code has it: a schedule [server.js] creates is
    stored with status [pending], whatever the body says; one the
    pg-promise service creates is stored with the status of the body,
    which has to be there and is [null] or one of the four values the
    column admits.  Neither
    handler changes a row of [spots], [users] or [parking_lots]. *)
Theorem post_schedules_stored_status (e : env) (s : store) (b : schedule_body) :
  (forall row s',
     Server.post_schedules e s b = (Reply 201 (ScheduleRow row), s') ->
     schedules s' = (schedules s ++ [row])%list /\ s_status row = Some "pending")
  /\ (forall id s',
        Service.post_schedules e s b = (Reply 201 (RowId id), s') ->
        exists row,
          schedules s' = (schedules s ++ [row])%list /\ s_id row = id
          /\ present (sb_status b) = true
          /\ s_status row = to_sql (sb_status b)
          /\ Pg.check_in status_values (s_status row) = true)
  /\ spots (snd (Server.post_schedules e s b)) = spots s
  /\ spots (snd (Service.post_schedules e s b)) = spots s.
Proof.
  split; [|split; [|split]].
  - intros row s' H. apply server_post_schedules_created in H.
    destruct H as (-> & _ & _ & _ & Hp). auto.
  - intros id s' H. apply service_post_schedules_created in H.
    destruct H as (row & -> & Hid & _ & _ & _ & Hs & Hc & Q). exists row.
    unfold schedule_complete in Q. rewrite !andb_true_iff in Q.
    repeat split; try assumption; tauto.
  - apply server_post_schedules_frame.
  - apply service_post_schedules_frame.
Qed.

Lemma post_schedules_stored_status_witness :
  schedules (snd (Server.post_schedules clock base
                    (booking (hm 9 0) (hm 10 30) (Val "active"))))
  = [mk_schedule 1 (Some 1) (Some 1) (Some "A40") 540 630 20120 (Some false) None
                 (Some "North Campus") (Some "North Lot") (Some "pending")
                 29000000 29000000]
  /\ Some "pending" = Some "pending".
Proof.
  exact (proj1 (post_schedules_stored_status clock base
                  (booking (hm 9 0) (hm 10 30) (Val "active")))
           _ _ eq_refl).
Defined.

(* ================================================================== *)
(** * Creating a parking lot *)
(* ================================================================== *)


Lemma insert_into_parking_lots_done (e : env) (s s' : store)
    (name : option string) (rows cols : option Z)
    (spaces merged_aisles : option json) (row : parking_lot) :
  insert_into_parking_lots e s name rows cols spaces merged_aisles
    = (Done row, s') ->
  s' = set_parking_lots s (parking_lots s ++ [row]) (parking_lots_id_seq s + 1)
  /\ name = Some (l_name row) /\ rows = Some (l_rows row)
  /\ cols = Some (l_cols row)
  /\ l_spaces row = spaces /\ l_merged_aisles row = merged_aisles.
Proof.
  unfold insert_into_parking_lots, bind, guard, Pg.not_null. intro H.
  repeat (break_match_in H; try discriminate).
  inversion H. subst. simpl. auto 10.
Qed.

Lemma insert_into_parking_lots_raise (e : env) (s s' : store)
    (name : option string) (rows cols : option Z)
    (spaces merged_aisles : option json) (err : db_error) :
  insert_into_parking_lots e s name rows cols spaces merged_aisles
    = (Raise err, s') ->
  parking_lots s' = parking_lots s.
Proof.
  unfold insert_into_parking_lots, bind, guard, Pg.not_null. intro H.
  repeat (break_match_in H; try discriminate); inversion H; subst; reflexivity.
Qed.

Lemma server_post_parking_lots_required (e : env) (s : store) (b : lot_body) :
  lot_required b = false ->
  Server.post_parking_lots e s b = (Fail 400 required_message None, s).
Proof.
  unfold lot_required, Server.post_parking_lots. intro H.
  destruct (truthy_string (lb_name b)), (truthy_number (lb_rows b)),
    (truthy_number (lb_cols b)); simpl in *; try discriminate; reflexivity.
Qed.

Lemma server_post_parking_lots_insert (e : env) (s : store) (b : lot_body) :
  lot_required b = true ->
  Server.post_parking_lots e s b
  = match insert_into_parking_lots e s
            (to_sql (lb_name b)) (to_sql (lb_rows b)) (to_sql (lb_cols b))
            (Some (or_json (lb_spaces b) (JArr [])))
            (Some (or_json (lb_mergedAisles b) (JArr []))) with
    | (Done row, s') => (Reply 201 (LotRow row), s')
    | (Raise err, s') => (Fail 500 "Failed to create parking lot" (Some err), s')
    end.
Proof.
  unfold lot_required, Server.post_parking_lots. intro H.
  rewrite !andb_true_iff in H. destruct H as [[-> ->] ->]. reflexivity.
Qed.

Lemma server_post_parking_lots_created (e : env) (s s' : store) (b : lot_body)
    (row : parking_lot) :
  Server.post_parking_lots e s b = (Reply 201 (LotRow row), s') ->
  parking_lots s' = (parking_lots s ++ [row])%list
  /\ lb_name b = Val (l_name row)
  /\ lb_rows b = Val (l_rows row) /\ lb_cols b = Val (l_cols row)
  /\ l_merged_aisles row = Some (or_json (lb_mergedAisles b) (JArr [])).
Proof.
  intro H. destruct (lot_required b) eqn:Q.
  - rewrite (server_post_parking_lots_insert e s b Q) in H.
    case_insert_lot r err s1 X; [|discriminate].
    inversion H. subst.
    apply insert_into_parking_lots_done in X.
    destruct X as (-> & Hn & Hr & Hc & _ & Ha).
    destruct (lb_name b), (lb_rows b), (lb_cols b); try discriminate.
    simpl in *. inversion Hn. inversion Hr. inversion Hc. auto.
  - rewrite (server_post_parking_lots_required e s b Q) in H. discriminate.
Qed.



(** The reader on some texts, and what becomes of some properties. *)
Lemma jsonb_in_examples :
  Jsonb.jsonb_in " [1, -2, [true, null]] "
  = Some (JArr [JNum 1; JNum (-2); JArr [JBool true; JNull]])
  /\ Jsonb.jsonb_in ("{" ++ Service.double_quote ++ "row" ++ Service.double_quote
                     ++ ": 7}")
     = Some (JObj [("row", JNum 7)])
  /\ Jsonb.jsonb_in "A1" = None
  /\ Jsonb.jsonb_in "01" = None
  /\ Jsonb.jsonb_in "[1,]" = None
  /\ Jsonb.jsonb_in "" = None.
Proof. vm_compute. repeat split. Qed.

Lemma as_jsonb_examples :
  PgPromise.as_jsonb (Some (JArr [])) = Done (Some (JObj []))
  /\ PgPromise.as_jsonb (Some (JArr [JStr "Monday"])) = Raise datatype_mismatch
  /\ PgPromise.as_jsonb (Some (JStr "[]")) = Done (Some (JArr []))
  /\ PgPromise.as_jsonb (Some (JStr "Monday")) = Raise invalid_text_representation
  /\ PgPromise.as_jsonb (Some (JNum 3)) = Raise datatype_mismatch
  /\ PgPromise.as_jsonb None = Done None.
Proof. vm_compute. repeat split. Qed.

(** What the pg-promise service hands to a [JSONB] column. *)
Lemma as_jsonb_written (f : field json) (column : option json) :
  PgPromise.as_jsonb (to_sql f) = Done column -> jsonb_written f column.
Proof.
  unfold PgPromise.as_jsonb, to_sql, jsonb_written.
  destruct f as [| |[|x|n|t|[|x xs]|props]]; intro H;
    try discriminate; try (now inversion H).
  destruct (Jsonb.jsonb_in t) as [d|]; [|discriminate].
  inversion H. now exists d.
Qed.

Lemma json_columns_written (b : lot_body) (spaces merged_aisles : option json) :
  Service.json_columns b = Done (spaces, merged_aisles) ->
  jsonb_written (lb_spaces b) spaces
  /\ jsonb_written (lb_merged_aisles b) merged_aisles.
Proof.
  unfold Service.json_columns, bind. intro H.
  destruct (PgPromise.as_jsonb (to_sql (lb_spaces b))) as [x|] eqn:A;
    [|discriminate].
  destruct (PgPromise.as_jsonb (to_sql (lb_merged_aisles b))) as [y|] eqn:B;
    [|discriminate].
  inversion H. subst. split; now apply as_jsonb_written.
Qed.




Lemma wf_fresh_lot (s : store) :
  wf s = true -> has_key l_id (parking_lots s) (parking_lots_id_seq s) = false.
Proof. intro W. apply keys_ok_fresh. now apply wf_parking_lots. Qed.



(* ================================================================== *)
(** * Resizing a parking lot *)
(* ================================================================== *)

Lemma filter_map_update {R} (key : R -> Z) (upd : R -> R) (l : list R) (k : Z) :
  (forall r, key (upd r) = key r) ->
  filter (fun r => key r =? k) (map (fun r => if key r =? k then upd r else r) l)
  = map upd (filter (fun r => key r =? k) l).
Proof.
  intro U. induction l as [|a l IH]; simpl; [reflexivity|].
  destruct (key a =? k) eqn:E.
  - rewrite U, E. simpl. now rewrite IH.
  - rewrite E. exact IH.
Qed.

Section UpdateLot.

Variables (id : Z) (name : option string) (rows cols : option Z)
          (spaces merged_aisles : option json).



End UpdateLot.











(* ================================================================== *)
(** * The invariants hold in every reachable store *)
(* ================================================================== *)

Lemma existsb_app_single (k : Z) (ids : list Z) (n : Z) :
  existsb (Z.eqb k) (ids ++ [n]) = existsb (Z.eqb k) ids || (k =? n).
Proof. rewrite existsb_app. simpl. now rewrite orb_false_r. Qed.

Lemma keys_ok_step (next : Z) (ids : list Z) :
  keys_ok next ids = true -> keys_ok (next + 1) ids = true.
Proof.
  unfold keys_ok, below. rewrite !andb_true_iff, !forallb_forall.
  intros [D B]. split; [exact D|].
  intros x Hx. apply B in Hx. apply Z.ltb_lt in Hx. apply Z.ltb_lt. lia.
Qed.

Lemma keys_ok_snoc (next : Z) (ids : list Z) :
  keys_ok next ids = true -> keys_ok (next + 1) (ids ++ [next]) = true.
Proof.
  unfold keys_ok, below. rewrite !andb_true_iff, !forallb_forall.
  intros [D B]. split.
  - clear - D B. induction ids as [|a ids IH]; simpl; [reflexivity|].
    simpl in D. apply andb_true_iff in D. destruct D as [Da Di].
    rewrite existsb_app_single, negb_orb, Da. simpl.
    assert ((a =? next) = false) as E.
    { apply Z.eqb_neq. specialize (B a (or_introl eq_refl)).
      apply Z.ltb_lt in B. lia. }
    rewrite E. simpl. apply IH; [exact Di|].
    intros x Hx. apply B. now right.
  - intros x Hx. apply in_app_or in Hx. apply Z.ltb_lt.
    destruct Hx as [Hx|[<-|[]]]; [|lia].
    apply B in Hx. apply Z.ltb_lt in Hx. lia.
Qed.

Lemma existsb_filter_false {R} (key : R -> Z) (p : R -> bool) (l : list R) (k : Z) :
  existsb (Z.eqb k) (map key l) = false ->
  existsb (Z.eqb k) (map key (filter p l)) = false.
Proof.
  induction l as [|a l IH]; simpl; intro H; [reflexivity|].
  apply orb_false_iff in H. destruct H as [Ha Hl].
  destruct (p a); simpl; [rewrite Ha|]; now apply IH.
Qed.

Lemma keys_ok_filter {R} (key : R -> Z) (p : R -> bool) (l : list R) (next : Z) :
  keys_ok next (map key l) = true -> keys_ok next (map key (filter p l)) = true.
Proof.
  unfold keys_ok, below. rewrite !andb_true_iff.
  induction l as [|a l IH]; simpl; [tauto|].
  rewrite !andb_true_iff, negb_true_iff. intros [[Da Dl] [Ba Bl]].
  destruct (IH (conj Dl Bl)) as [D B].
  destruct (p a); simpl; [|tauto].
  rewrite Ba, D, B. rewrite (existsb_filter_false key p l _ Da). auto.
Qed.

Lemma map_key_update {R} (key : R -> Z) (upd : R -> R) (l : list R) (k : Z) :
  (forall r, key (upd r) = key r) ->
  map key (map (fun r => if key r =? k then upd r else r) l) = map key l.
Proof.
  intro U. induction l as [|a l IH]; simpl; [reflexivity|].
  rewrite IH. now destruct (key a =? k); [rewrite U|].
Qed.

Lemma distinct_email_snoc (ms : list string) (m : string) :
  distinct String.eqb ms = true -> existsb (String.eqb m) ms = false ->
  distinct String.eqb (ms ++ [m]) = true.
Proof.
  induction ms as [|a ms IH]; simpl; intros D E; [reflexivity|].
  apply andb_true_iff in D. destruct D as [Da Dm].
  apply orb_false_iff in E. destruct E as [Ea Em].
  rewrite existsb_app. simpl. rewrite orb_false_r.
  apply negb_true_iff in Da. rewrite Da, (String.eqb_sym a m), Ea. simpl.
  now apply IH.
Qed.

Lemma wf_set_schedules (s : store) (rows : list schedule) (next : Z) :
  wf s = true -> keys_ok next (map s_id rows) = true ->
  wf (set_schedules s rows next) = true.
Proof.
  unfold wf. simpl. rewrite !andb_true_iff. tauto.
Qed.

Lemma wf_set_parking_lots (s : store) (rows : list parking_lot) (next : Z) :
  wf s = true -> keys_ok next (map l_id rows) = true ->
  wf (set_parking_lots s rows next) = true.
Proof.
  unfold wf. simpl. rewrite !andb_true_iff. tauto.
Qed.

Lemma wf_set_users (s : store) (rows : list user) (next : Z) :
  wf s = true -> keys_ok next (map u_id rows) = true ->
  distinct String.eqb (map u_email rows) = true ->
  wf (set_users s rows next) = true.
Proof.
  unfold wf. simpl. rewrite !andb_true_iff. tauto.
Qed.

Lemma insert_into_schedules_wf (e : env) (s : store)
    (user_id parking_lot_id : option Z) (spot_number : option string)
    (start_time end_time date : option Z) (location parking_lot : option string)
    (is_recurring : option bool) (recurring_days : option json)
    (status : option string) :
  wf s = true ->
  wf (snd (insert_into_schedules e s user_id parking_lot_id spot_number
             start_time end_time date location parking_lot is_recurring
             recurring_days status)) = true.
Proof.
  intro W. pose proof (wf_schedules s W) as K.
  unfold insert_into_schedules, bind, guard, Pg.not_null.
  repeat (break_match; try discriminate); simpl snd; try exact W;
    apply wf_set_schedules; try exact W;
    try (now apply keys_ok_step);
    rewrite map_app; simpl; now apply keys_ok_snoc.
Qed.

Lemma insert_into_parking_lots_wf (e : env) (s : store)
    (name : option string) (rows cols : option Z)
    (spaces merged_aisles : option json) :
  wf s = true ->
  wf (snd (insert_into_parking_lots e s name rows cols spaces merged_aisles))
  = true.
Proof.
  intro W. pose proof (wf_parking_lots s W) as K.
  unfold insert_into_parking_lots, bind, guard, Pg.not_null.
  repeat (break_match; try discriminate); simpl snd; try exact W;
    apply wf_set_parking_lots; try exact W;
    try (now apply keys_ok_step);
    rewrite map_app; simpl; now apply keys_ok_snoc.
Qed.

Lemma update_parking_lots_wf (e : env) (s : store) (id : Z)
    (name : option string) (rows cols : option Z)
    (spaces merged_aisles : option json) :
  wf s = true ->
  wf (snd (update_parking_lots e s id name rows cols spaces merged_aisles))
  = true.
Proof.
  intro W. pose proof (wf_parking_lots s W) as K.
  unfold update_parking_lots, bind, Pg.not_null.
  repeat (break_match; try discriminate); simpl snd; try exact W.
  apply wf_set_parking_lots; [exact W|].
  now rewrite map_key_update.
Qed.

Lemma delete_from_schedules_wf (s : store) (id : Z) :
  wf s = true -> wf (snd (delete_from_schedules s id)) = true.
Proof.
  intro W. unfold delete_from_schedules.
  break_match; simpl snd; [|exact W].
  apply wf_set_schedules; [exact W|].
  apply keys_ok_filter. now apply wf_schedules.
Qed.

Lemma insert_into_users_wf (e : env) (s : store)
    (name email phone hash role department status avatar : option string) :
  wf s = true ->
  wf (snd (insert_into_users e s name email phone hash role department
             status avatar)) = true.
Proof.
  intro W. pose proof (wf_users s W) as K. pose proof (wf_emails s W) as M.
  unfold insert_into_users, bind, guard, Pg.not_null.
  repeat (break_match; try discriminate); simpl snd; try exact W;
    apply wf_set_users; try exact W; try exact M;
    try (now apply keys_ok_step).
  - rewrite map_app. simpl. now apply keys_ok_snoc.
  - rewrite map_app. simpl. apply distinct_email_snoc; [exact M|].
    rewrite existsb_eqb_email.
    match goal with
    | X : negb ?x = true |- ?y = false => apply negb_true_iff in X; exact X
    end.
Qed.

Lemma map_email_update (upd : user -> user) (l : list user) (k : Z) :
  (forall u, u_email (upd u) = u_email u) ->
  map u_email (map (fun u => if u_id u =? k then upd u else u) l) = map u_email l.
Proof.
  intro U. induction l as [|a l IH]; simpl; [reflexivity|].
  rewrite IH. now destruct (u_id a =? k); [rewrite U|].
Qed.

Lemma update_users_status_wf (e : env) (s : store) (id : Z)
    (status : option string) :
  wf s = true -> wf (snd (update_users_status e s id status)) = true.
Proof.
  intro W. unfold update_users_status, bind.
  repeat (break_match; try discriminate); simpl snd; try exact W.
  apply wf_set_users; [exact W| |].
  - rewrite map_key_update; [now apply wf_users|reflexivity].
  - rewrite map_email_update; [now apply wf_emails|reflexivity].
Qed.

Lemma server_post_schedules_wf (e : env) (s : store) (b : schedule_body) :
  wf s = true -> wf (snd (Server.post_schedules e s b)) = true.
Proof.
  intro W. unfold Server.post_schedules.
  match goal with
  | |- context [insert_into_schedules ?e ?s ?a ?b ?c ?d ?f ?g ?h ?i ?j ?k ?l] =>
      pose proof (insert_into_schedules_wf e s a b c d f g h i j k l W) as P
  end.
  case_insert_schedule row err s1 X; exact P.
Qed.

Lemma service_post_schedules_wf (e : env) (s : store) (b : schedule_body) :
  wf s = true -> wf (snd (Service.post_schedules e s b)) = true.
Proof.
  intro W. unfold Service.post_schedules.
  destruct (PgPromise.prepare _ _); cbn [bind]; [|exact W].
  case_as_jsonb days J; [|exact W].
  match goal with
  | |- context [insert_into_schedules ?e ?s ?a ?b ?c ?d ?f ?g ?h ?i ?j ?k ?l] =>
      pose proof (insert_into_schedules_wf e s a b c d f g h i j k l W) as P
  end.
  case_insert_schedule row err s1 X; exact P.
Qed.

Lemma handle_wf (e : env) (s : store) (r : request) :
  wf s = true -> wf (snd (handle e s r)) = true.
Proof.
  intro W. destruct r; unfold handle.
  - unfold Server.post_parking_lots.
    destruct (_ || _); [exact W|].
    match goal with
    | |- context [insert_into_parking_lots ?e ?s ?a ?b ?c ?d ?f] =>
        pose proof (insert_into_parking_lots_wf e s a b c d f W) as P
    end.
    case_insert_lot row err s1 X; exact P.
  - unfold Server.put_parking_lots_id.
    match goal with
    | |- context [update_parking_lots ?e ?s ?i ?a ?b ?c ?d ?f] =>
        pose proof (update_parking_lots_wf e s i a b c d f W) as P
    end.
    case_update_lot rows err s1 X; [destruct rows|]; exact P.
  - now apply server_post_schedules_wf.
  - unfold Service.get_users_id. destruct (_ ;;; _); exact W.
  - unfold Service.post_users.
    destruct (_ || _); [exact W|].
    destruct (_ <- _ ;; _) as [[i|]|]; try exact W.
    destruct (PgPromise.prepare _ _); [|exact W].
    match goal with
    | |- context [insert_into_users ?e ?s ?a ?b ?c ?d ?f ?g ?h ?i] =>
        pose proof (insert_into_users_wf e s a b c d f g h i W) as P;
        destruct (insert_into_users e s a b c d f g h i) as [[row|err] s1]
    end; exact P.
  - now rewrite delete_users_id_always_fails.
  - unfold Service.post_parking_lots.
    destruct (PgPromise.prepare _ _); cbn [bind]; [|exact W].
    case_json_columns spaces merged_aisles J; [|exact W].
    match goal with
    | |- context [insert_into_parking_lots ?e ?s ?a ?b ?c ?d ?f] =>
        pose proof (insert_into_parking_lots_wf e s a b c d f W) as P
    end.
    case_insert_lot row err s1 X; exact P.
  - unfold Service.put_parking_lots_id.
    destruct (PgPromise.prepare _ _); cbn [bind]; [|exact W].
    case_json_columns spaces merged_aisles J; [|exact W].
    match goal with
    | |- context [update_parking_lots ?e ?s ?i ?a ?b ?c ?d ?f] =>
        pose proof (update_parking_lots_wf e s i a b c d f W) as P
    end.
    case_update_lot rows err s1 X; [|exact P].
    destruct (PgPromise.oneOrNone rows); exact P.
  - now apply service_post_schedules_wf.
  - unfold Service.delete_schedules_id.
    destruct (PgPromise.prepare _ _); [|exact W].
    pose proof (delete_from_schedules_wf s id W) as P.
    destruct (delete_from_schedules s id) as [[rows|err] s1]; [|exact P].
    destruct (PgPromise.oneOrNone rows); exact P.
Qed.

(** Every store the applications can reach from the empty database
    satisfies the invariants the theorems above assume. *)
Lemma reachable_wf (s : store) : reachable s -> wf s = true.
Proof.
  induction 1 as [|e s r _ IH]; [reflexivity|].
  now apply handle_wf.
Qed.

(** Asking twice in a row: the request repeated on the store its first
    evaluation left behind is decided as the first was. *)
Lemma post_schedules_repeatable (e1 e2 : env) (s : store) (b : schedule_body) :
  wf s = true ->
  decision (fst (Server.post_schedules e2 (snd (Server.post_schedules e1 s b)) b))
    = decision (fst (Server.post_schedules e1 s b))
  /\ decision (fst (Service.post_schedules e2 (snd (Service.post_schedules e1 s b)) b))
    = decision (fst (Service.post_schedules e1 s b)).
Proof.
  intro W.
  pose proof (server_post_schedules_wf e1 s b W) as W1.
  pose proof (service_post_schedules_wf e1 s b W) as W2.
  destruct (server_post_schedules_frame e1 s b) as (_ & U1 & L1).
  destruct (service_post_schedules_frame e1 s b) as (_ & U2 & L2).
  split.
  - apply server_post_schedules_decision; [exact U1|exact L1|].
    exact (eq_trans (wf_fresh_schedule _ W1) (eq_sym (wf_fresh_schedule _ W))).
  - apply service_post_schedules_decision; [exact U2|exact L2|].
    exact (eq_trans (wf_fresh_schedule _ W2) (eq_sym (wf_fresh_schedule _ W))).
Qed.

(* ================================================================== *)
(** * The statement behind [DELETE /api/users/:id] *)
(* ================================================================== *)

Lemma prepare_select_user :
  PgPromise.prepare Service.sql_select_user Service.params = Done tt.
Proof. vm_compute. reflexivity. Qed.

(** Were its text accepted, the [UPDATE] of the handler would be the soft
    delete its comment announces: the row of an existing user keeps every
    column but [status], now [inactive], and [updated_at]; its id is
    returned; and the user can still be read. *)
Lemma update_users_status_soft_delete (e : env) (s : store) (u : user) :
  wf s = true -> In u (users s) -> Pg.int4_ok (u_id u) = true ->
  exists s',
    update_users_status e s (u_id u) (Some "inactive") = (Done [u_id u], s')
    /\ users s' = map (fun x => if u_id x =? u_id u then deactivated e x else x)
                      (users s)
    /\ Service.get_users_id s' (u_id u)
       = (Reply 200 (UserRow (view (deactivated e u))), s').
Proof.
  intros W H I.
  pose proof (keys_ok_distinct _ _ (wf_users s W)) as D.
  assert (filter (fun x => u_id x =? u_id u)
            (map (fun x => if u_id x =? u_id u then deactivated e x else x)
                 (users s)) = [deactivated e u]) as F.
  { rewrite (filter_map_update u_id (deactivated e)); [|reflexivity].
    now rewrite (distinct_filter_one u_id _ u D H). }
  unfold deactivated in F.
  assert ((Pg.int4 (Some (u_id u)) ;;; Pg.varchar 50 (Some "inactive") ;;; Done tt)
          = Done tt) as A.
  { unfold bind, Pg.int4. now rewrite I. }
  eexists. split; [|split].
  - unfold update_users_status. rewrite A, (has_key_in u_id _ u H).
    change (Pg.check_in user_status_values (Some "inactive")) with true.
    cbv beta iota zeta. simpl negb. cbv iota. rewrite F. reflexivity.
  - reflexivity.
  - unfold Service.get_users_id. rewrite prepare_select_user.
    unfold select_users_by_id, bind, Pg.int4. rewrite I.
    cbn [users set_users]. rewrite F. reflexivity.
Qed.

(* ================================================================== *)
(** * Accounts: signing up, looking up, logging in *)
(* ================================================================== *)

Lemma prepare_insert_user :
  PgPromise.prepare Service.sql_insert_user Service.new_user_props = Done tt.
Proof. vm_compute. reflexivity. Qed.

Lemma prepare_login :
  PgPromise.prepare ServiceRest.sql_login ServiceRest.email_params = Done tt.
Proof. vm_compute. reflexivity. Qed.

Lemma prepare_select_user_by_email :
  PgPromise.prepare ServiceRest.sql_select_user_by_email ServiceRest.email_params
  = Done tt.
Proof. vm_compute. reflexivity. Qed.

Lemma lower_ascii_idempotent (c : ascii) :
  lower_ascii (lower_ascii c) = lower_ascii c.
Proof. destruct c as [[] [] [] [] [] [] [] []]; reflexivity. Qed.

Lemma toLowerCase_idempotent (m : string) :
  toLowerCase (toLowerCase m) = toLowerCase m.
Proof.
  induction m as [|c m IH]; simpl; [reflexivity|].
  now rewrite lower_ascii_idempotent, IH.
Qed.

Lemma filter_snoc {R} (p : R -> bool) (l : list R) (r : R) :
  filter p (l ++ [r]) = (filter p l ++ (if p r then [r] else []))%list.
Proof. rewrite filter_app. reflexivity. Qed.

(** The row an accepted [INSERT INTO users] appends. *)
Lemma insert_into_users_row (e : env) (s s' : store)
    (name email phone hash role department status avatar : option string)
    (row : user) :
  insert_into_users e s name email phone hash role department status avatar
    = (Done row, s') ->
  s' = set_users s (users s ++ [row]) (users_id_seq s + 1)
  /\ u_id row = users_id_seq s
  /\ name = Some (u_name row) /\ email = Some (u_email row)
  /\ hash = Some (u_password_hash row) /\ role = Some (u_role row)
  /\ existsb (fun u => String.eqb (u_email u) (u_email row)) (users s) = false.
Proof.
  unfold insert_into_users, bind, guard, Pg.not_null. intro H.
  repeat (break_match_in H; try discriminate).
  inversion H. subst. simpl.
  match goal with
  | X : negb (existsb _ _) = true |- _ => apply negb_true_iff in X
  end.
  auto 10.
Qed.

(** What a 201 of [POST /api/users] says about the request and the
    store. *)
Lemma post_users_created (e : env) (s s' : store) (b : user_body)
    (v : user_view) :
  Service.post_users e s b = (Reply 201 (UserRow v), s') ->
  exists m p u,
    ub_email b = Val m /\ ub_password b = Val p
    /\ select_users_by_email s m = []
    /\ select_users_by_email s (toLowerCase m) = []
    /\ s' = set_users s (users s ++ [u]) (users_id_seq s + 1)
    /\ u_id u = users_id_seq s /\ u_email u = toLowerCase m
    /\ u_password_hash u = bcrypt_hash e p
    /\ v = view u.
Proof.
  unfold Service.post_users. rewrite prepare_insert_user. intro H.
  destruct (_ || _) eqn:T; [discriminate|].
  destruct (ub_email b) as [| |m] eqn:Em;
    try (destruct (truthy_string (ub_name b)); discriminate).
  destruct (ub_password b) as [| |p] eqn:Ep;
    try (destruct (truthy_string (ub_name b)), (truthy_string (Val m)),
           (truthy_string (ub_role b)); discriminate).
  simpl in H.
  destruct (PgPromise.oneOrNone _) as [[i|]|] eqn:O; try discriminate.
  destruct (insert_into_users _ _ _ _ _ _ _ _ _ _) as [[u|err] s1] eqn:I;
    [|discriminate].
  inversion H. subst. clear H.
  apply insert_into_users_row in I.
  destruct I as (-> & Hid & _ & Hm & Hh & _ & Hu).
  inversion Hm. inversion Hh.
  exists m, p, u. repeat split; auto.
  - unfold select_users_by_email.
    destruct (filter _ (users s)) as [|a [|a' l]] eqn:F;
      [reflexivity|discriminate|discriminate].
  - unfold select_users_by_email. apply no_email_filter.
    match goal with X : toLowerCase m = u_email u |- _ => rewrite X end.
    exact Hu.
Qed.

Lemma get_users_id_found (s : store) (u : user) :
  Pg.int4_ok (u_id u) = true ->
  filter (fun x => u_id x =? u_id u) (users s) = [u] ->
  Service.get_users_id s (u_id u) = (Reply 200 (UserRow (view u)), s).
Proof.
  intros I F. unfold Service.get_users_id. rewrite prepare_select_user.
  unfold select_users_by_id, bind, Pg.int4. now rewrite I, F.
Qed.

Lemma get_users_email_rows (s : store) (email : string) :
  ServiceRest.get_users_email s email
  = match PgPromise.oneOrNone (map view (select_users_by_email s email)) with
    | Done data => (Service.returnDataOr404 (option_map UserRow data), s)
    | Raise _ => (Service.handleError true, s)
    end.
Proof.
  unfold ServiceRest.get_users_email. now rewrite prepare_select_user_by_email.
Qed.

(** X1.  A user the service has just created can be read back: by the id
    the 201 returned, and by the e-mail address the 201 returned, with
    the very data of the 201. *)
Theorem signup_then_lookup (e : env) (s s' : store) (b : user_body)
    (v : user_view) :
  wf s = true -> Pg.int4_ok (users_id_seq s) = true ->
  Service.post_users e s b = (Reply 201 (UserRow v), s') ->
  Service.get_users_id s' (v_id v) = (Reply 200 (UserRow v), s')
  /\ ServiceRest.get_users_email s' (v_email v) = (Reply 200 (UserRow v), s').
Proof.
  intros W I H. apply post_users_created in H.
  destruct H as (m & p & u & Em & Ep & F1 & F2 & -> & Hid & Hm & Hh & ->).
  split.
  - simpl v_id. apply get_users_id_found; [now rewrite Hid|].
    cbn [users set_users]. rewrite filter_snoc, Z.eqb_refl.
    rewrite Hid, (has_key_false_filter u_id _ _ (keys_ok_fresh _ _ _ (wf_users s W))).
    reflexivity.
  - rewrite get_users_email_rows. simpl v_email.
    unfold select_users_by_email in *. cbn [users set_users].
    rewrite filter_snoc, String.eqb_refl, Hm, F2. reflexivity.
Qed.

Lemma signup_then_lookup_witness :
  let v := mk_user_view 2 "Simon T" "simon.t@calvin.edu" None "user"
             (Some "General") (Some "active") None 29000000 in
  let s' := snd (Service.post_users clock base (new_user "Simon T" "Simon.T@Calvin.edu")) in
  Service.get_users_id s' 2 = (Reply 200 (UserRow v), s')
  /\ ServiceRest.get_users_email s' "simon.t@calvin.edu" = (Reply 200 (UserRow v), s').
Proof.
  exact (signup_then_lookup clock base _ (new_user "Simon T" "Simon.T@Calvin.edu") _
           eq_refl eq_refl eq_refl).
Defined.

(** X2.  The look-up by e-mail compares the address letter for letter,
    while sign-up stores it in lower case: asked for the address as it
    was submitted, with a capital in it, the service answers 404 for the
    user it has just created. *)
Theorem lookup_by_submitted_email_misses (e : env) (s s' : store)
    (b : user_body) (v : user_view) (m : string) :
  Service.post_users e s b = (Reply 201 (UserRow v), s') ->
  ub_email b = Val m -> toLowerCase m <> m ->
  ServiceRest.get_users_email s' m = (SendStatus 404, s').
Proof.
  intros H Em N. apply post_users_created in H.
  destruct H as (m' & p & u & Em' & Ep & F1 & F2 & -> & Hid & Hm & Hh & ->).
  rewrite Em in Em'. inversion Em'. subst m'.
  rewrite get_users_email_rows.
  unfold select_users_by_email in *. cbn [users set_users].
  rewrite filter_snoc, F1, Hm.
  destruct (String.eqb (toLowerCase m) m) eqn:E; [|reflexivity].
  apply String.eqb_eq in E. contradiction.
Qed.

Lemma lookup_by_submitted_email_misses_witness :
  ServiceRest.get_users_email
    (snd (Service.post_users clock base (new_user "Simon T" "Simon.T@Calvin.edu")))
    "Simon.T@Calvin.edu"
  = (SendStatus 404,
     snd (Service.post_users clock base (new_user "Simon T" "Simon.T@Calvin.edu"))).
Proof.
  refine (lookup_by_submitted_email_misses clock base _
            (new_user "Simon T" "Simon.T@Calvin.edu") _ "Simon.T@Calvin.edu"
            eq_refl eq_refl _).
  vm_compute. discriminate.
Defined.

Lemma post_login_rows (compare : string -> string -> bool) (s : store)
    (m : string) (password : field string) :
  ServiceRest.post_login compare s (Val m) password
  = match PgPromise.oneOrNone (select_users_by_email s (toLowerCase m)) with
    | Raise _ => (Refusal (Service.handleError true), s)
    | Done None => (Refusal ServiceRest.invalid_login, s)
    | Done (Some user) =>
        match password with
        | Val p =>
            if compare p (u_password_hash user)
            then (Answer 200 (ServiceRest.mk_session (u_id user) (u_email user)
                                (u_role user)), s)
            else (Refusal ServiceRest.invalid_login, s)
        | _ => (Refusal (Service.handleError true), s)
        end
    end.
Proof. unfold ServiceRest.post_login. now rewrite prepare_login. Qed.

(** X3.  Sign-up and login fit together: a user created with password
    [p] is logged in with [p] under every spelling of the address that
    agrees with the submitted one up to case, provided [bcrypt.compare]
    accepts [p] against the hash [bcrypt.hash] made of it. *)
Theorem signup_then_login (compare : string -> string -> bool) (e : env)
    (s s' : store) (b : user_body) (v : user_view) (m p x : string) :
  Service.post_users e s b = (Reply 201 (UserRow v), s') ->
  ub_email b = Val m -> ub_password b = Val p ->
  compare p (bcrypt_hash e p) = true ->
  toLowerCase x = toLowerCase m ->
  ServiceRest.post_login compare s' (Val x) (Val p)
  = (Answer 200 (ServiceRest.mk_session (v_id v) (toLowerCase m) (v_role v)), s').
Proof.
  intros H Em Ep C X. apply post_users_created in H.
  destruct H as (m' & p' & u & Em' & Ep' & F1 & F2 & -> & Hid & Hm & Hh & ->).
  rewrite Em in Em'. inversion Em'. subst m'.
  rewrite Ep in Ep'. inversion Ep'. subst p'.
  rewrite post_login_rows, X.
  unfold select_users_by_email in *. cbn [users set_users].
  rewrite filter_snoc, F2, Hm, String.eqb_refl. simpl.
  now rewrite Hh, C, Hm.
Qed.

Lemma signup_then_login_witness :
  ServiceRest.post_login sample_compare
    (snd (Service.post_users clock base (new_user "Simon T" "Simon.T@Calvin.edu")))
    (Val "SIMON.T@calvin.edu") (Val "secret")
  = (Answer 200 (ServiceRest.mk_session 2 "simon.t@calvin.edu" "user"),
     snd (Service.post_users clock base (new_user "Simon T" "Simon.T@Calvin.edu"))).
Proof.
  exact (signup_then_login sample_compare clock base _
           (new_user "Simon T" "Simon.T@Calvin.edu") _
           "Simon.T@Calvin.edu" "secret" "SIMON.T@calvin.edu"
           eq_refl eq_refl eq_refl eq_refl eq_refl).
Defined.

(** X4.  Refused logins.  An address no user has is answered 401,
    whatever the body has for a password.  For the address of a stored
    user a wrong password gets the same 401, but a body whose password
    is missing or [null] is answered 500: a request without a password
    tells the stored addresses from the others.  No login, accepted or
    refused, changes the store. *)
Theorem login_refusals (compare : string -> string -> bool)
    (s : store) (m : string) (password : field string) :
  (select_users_by_email s (toLowerCase m) = [] ->
   fst (ServiceRest.post_login compare s (Val m) password)
   = Refusal (Fail 401 "Invalid email or password" None))
  /\ (forall u p,
        select_users_by_email s (toLowerCase m) = [u] ->
        password = Val p -> compare p (u_password_hash u) = false ->
        fst (ServiceRest.post_login compare s (Val m) password)
        = Refusal (Fail 401 "Invalid email or password" None))
  /\ (forall u,
        select_users_by_email s (toLowerCase m) = [u] ->
        to_sql password = None ->
        fst (ServiceRest.post_login compare s (Val m) password)
        = Refusal (Fail 500 "Internal server error" None))
  /\ (forall email, snd (ServiceRest.post_login compare s email password) = s).
Proof.
  split; [|split; [|split]].
  - intro F. rewrite post_login_rows, F. reflexivity.
  - intros u p F -> C. rewrite post_login_rows, F. simpl. now rewrite C.
  - intros u F P. rewrite post_login_rows, F.
    destruct password as [| |p]; [reflexivity|reflexivity|discriminate].
  - intros [| |x]; try reflexivity.
    rewrite post_login_rows.
    destruct (PgPromise.oneOrNone _) as [[u|]|]; try reflexivity.
    destruct password as [| |p]; try reflexivity.
    now destruct (compare p (u_password_hash u)).
Qed.

Lemma login_refusals_witness :
  fst (ServiceRest.post_login sample_compare base (Val "nobody@calvin.edu") Absent)
    = Refusal (Fail 401 "Invalid email or password" None)
  /\ fst (ServiceRest.post_login sample_compare base (Val "max.wu@calvin.edu") (Val "x"))
    = Refusal (Fail 401 "Invalid email or password" None)
  /\ fst (ServiceRest.post_login sample_compare base (Val "max.wu@calvin.edu") Absent)
    = Refusal (Fail 500 "Internal server error" None).
Proof.
  split; [|split].
  - exact (proj1 (login_refusals sample_compare base
                    "nobody@calvin.edu" Absent) eq_refl).
  - exact (proj1 (proj2 (login_refusals sample_compare base
                           "max.wu@calvin.edu" (Val "x")))
             max_wu "x" eq_refl eq_refl eq_refl).
  - exact (proj1 (proj2 (proj2 (login_refusals sample_compare base
                                  "max.wu@calvin.edu" Absent)))
             max_wu eq_refl eq_refl).
Defined.

(** What an accepted login says about the store. *)
Lemma post_login_accepted (compare : string -> string -> bool) (s s' : store)
    (email password : field string) (c : Z) (session : ServiceRest.session) :
  ServiceRest.post_login compare s email password = (Answer c session, s') ->
  exists u m p,
    In u (users s) /\ email = Val m /\ password = Val p
    /\ u_email u = toLowerCase m
    /\ compare p (u_password_hash u) = true
    /\ session = ServiceRest.mk_session (u_id u) (u_email u) (u_role u)
    /\ toLowerCase (u_email u) = u_email u
    /\ c = 200 /\ s' = s.
Proof.
  destruct email as [| |m]; try discriminate.
  rewrite post_login_rows.
  destruct (PgPromise.oneOrNone _) as [[u|]|] eqn:O; try discriminate.
  destruct password as [| |p]; try discriminate.
  destruct (compare p (u_password_hash u)) eqn:C; [|discriminate].
  intro H. injection H as <- <- <-.
  assert (In u (select_users_by_email s (toLowerCase m))) as M.
  { destruct (select_users_by_email s (toLowerCase m)) as [|a [|a' l]];
      try discriminate. inversion O. now left. }
  unfold select_users_by_email in M. apply filter_In in M.
  destruct M as [M E]. apply String.eqb_eq in E.
  exists u, m, p. repeat split; auto.
  rewrite E. apply toLowerCase_idempotent.
Qed.

(** X5.  A session is only ever issued for a stored user: one whose stored
    address is the lower-case form of the address given and whose stored
    hash [bcrypt.compare] accepts for the password given.  In
    particular the stored address of a user who gets in is in lower
    case. *)
Theorem login_is_sound (compare : string -> string -> bool) (s s' : store)
    (email password : field string) (c : Z) (session : ServiceRest.session) :
  ServiceRest.post_login compare s email password = (Answer c session, s') ->
  exists u m p,
    In u (users s) /\ email = Val m /\ password = Val p
    /\ u_email u = toLowerCase m
    /\ compare p (u_password_hash u) = true
    /\ session = ServiceRest.mk_session (u_id u) (u_email u) (u_role u)
    /\ toLowerCase (u_email u) = u_email u
    /\ c = 200 /\ s' = s.
Proof. apply post_login_accepted. Qed.

Lemma login_is_sound_witness :
  exists u m p,
    In u (users base) /\ Val "Max.Wu@Calvin.edu" = Val m /\ Val "h" = Val p
    /\ u_email u = toLowerCase m
    /\ sample_compare p (u_password_hash u) = true
    /\ ServiceRest.mk_session 1 "max.wu@calvin.edu" "user"
       = ServiceRest.mk_session (u_id u) (u_email u) (u_role u)
    /\ toLowerCase (u_email u) = u_email u
    /\ 200 = 200 /\ base = base.
Proof.
  exact (login_is_sound sample_compare base base (Val "Max.Wu@Calvin.edu")
           (Val "h") 200 (ServiceRest.mk_session 1 "max.wu@calvin.edu" "user")
           eq_refl).
Defined.

(* ================================================================== *)
(** * Changing a user *)
(* ================================================================== *)

Lemma prepare_update_user (has : string -> bool) :
  PgPromise.prepare ServiceRest.sql_update_user (Service.id_and_body has)
  = match find (fun n => negb (Service.id_and_body has n))
            ["body.name"; "body.email"; "body.phone"; "body.role";
             "body.department"; "body.status"; "body.avatar"; "id"] with
    | Some n => Raise (property_missing n)
    | None => Done tt
    end.
Proof. vm_compute. reflexivity. Qed.

Lemma prepare_update_user_cases (b : user_body) :
  (user_update_complete b = true
   /\ PgPromise.prepare ServiceRest.sql_update_user
        (Service.id_and_body (ServiceRest.user_props b)) = Done tt)
  \/ (user_update_complete b = false
      /\ exists n,
           PgPromise.prepare ServiceRest.sql_update_user
             (Service.id_and_body (ServiceRest.user_props b))
           = Raise (property_missing n)).
Proof.
  rewrite prepare_update_user.
  unfold user_update_complete, ServiceRest.user_props, Service.id_and_body,
    PgPromise.nested, PgPromise.has_own.
  simpl.
  repeat match goal with
         | |- context [present ?f] =>
             destruct (present f); simpl;
             [|right; split; [reflexivity|eexists; reflexivity]]
         end.
  left. split; reflexivity.
Qed.

(** With distinct keys a stored row is the only one under its key. *)
Lemma distinct_key_unique {R} (key : R -> Z) (l : list R) (r x : R) :
  distinct Z.eqb (map key l) = true -> In r l -> In x l -> key x = key r ->
  x = r.
Proof.
  intros D Hr Hx E.
  assert (In x (filter (fun y => key y =? key r) l)) as M.
  { apply filter_In. split; [exact Hx|]. now apply Z.eqb_eq. }
  rewrite (distinct_filter_one key l r D Hr) in M.
  destruct M as [M|[]]. now symmetry.
Qed.

Lemma has_key_true_in {R} (key : R -> Z) (l : list R) (k : Z) :
  has_key key l k = true -> exists r, In r l /\ key r = k.
Proof.
  unfold has_key. intro H. apply existsb_exists in H.
  destruct H as (r & Hr & E). apply Z.eqb_eq in E. eauto.
Qed.

Lemma map_update_one {R} (key : R -> Z) (upd : R -> R) (l : list R) (r : R) :
  distinct Z.eqb (map key l) = true -> In r l ->
  map (fun x => if key x =? key r then upd x else x) l
  = map (fun x => if key x =? key r then upd r else x) l.
Proof.
  intros D H. apply map_ext_in. intros x Hx.
  destruct (key x =? key r) eqn:E; [|reflexivity].
  apply Z.eqb_eq in E. now rewrite (distinct_key_unique key l r x D H Hx E).
Qed.

(** What a successful [UPDATE users] did. *)
Lemma update_users_done (e : env) (s s' : store) (id : Z)
    (name email phone role department status avatar : option string)
    (w : user_update) (rows : list user_update) :
  wf s = true ->
  update_users e s id name email phone role department status avatar
    = (Done (w :: rows), s') ->
  exists u n m r,
    In u (users s) /\ u_id u = id
    /\ name = Some n /\ email = Some m /\ role = Some r
    /\ rows = []
    /\ w = updated (mk_user id n m phone (u_password_hash u) r department
                            status avatar (u_created_at u) (now e))
    /\ users s'
       = map (fun x => if u_id x =? id
                       then mk_user id n m phone (u_password_hash u) r
                                    department status avatar (u_created_at u)
                                    (now e)
                       else x) (users s)
    /\ existsb (fun x => String.eqb (u_email x) m && negb (u_id x =? id))
               (users s) = false
    /\ Pg.int4_ok id = true.
Proof.
  intros W H.
  pose proof (keys_ok_distinct _ _ (wf_users s W)) as D.
  unfold update_users, bind, guard, Pg.not_null, Pg.int4 in H.
  destruct (Pg.int4_ok id) eqn:I; [|discriminate].
  repeat (break_match_in H; try discriminate).
  match goal with
  | X : negb (has_key u_id (users s) id) = false |- _ =>
      apply negb_false_iff in X; apply has_key_true_in in X;
      destruct X as (u & Hu & Hid)
  end.
  match goal with
  | X : negb (existsb _ _) = true |- _ => apply negb_true_iff in X
  end.
  subst id.
  rewrite (filter_map_update u_id) in H by reflexivity.
  rewrite (distinct_filter_one u_id _ u D Hu) in H.
  injection H as <- <- <-.
  eexists u, _, _, _. repeat split; try reflexivity; try assumption.
  cbn [users set_users].
  apply (map_update_one u_id
           (fun old => mk_user (u_id old) _ _ phone (u_password_hash old) _
                               department status avatar (u_created_at old)
                               (now e)) _ u D Hu).
Qed.

Lemma filter_map_replace {R} (key : R -> Z) (c : R) (l : list R) (k : Z) :
  key c = k ->
  filter (fun r => key r =? k) (map (fun r => if key r =? k then c else r) l)
  = map (fun _ => c) (filter (fun r => key r =? k) l).
Proof.
  intro U. induction l as [|a l IH]; simpl; [reflexivity|].
  destruct (key a =? k) eqn:E.
  - rewrite U, Z.eqb_refl. simpl. now rewrite IH.
  - rewrite E. exact IH.
Qed.

Lemma put_users_id_rows (e : env) (s : store) (id : Z) (b : user_body) :
  ServiceRest.put_users_id e s id b
  = if user_update_complete b
    then match update_users e s id
                 (to_sql (ub_name b)) (to_sql (ub_email b))
                 (to_sql (ub_phone b)) (to_sql (ub_role b))
                 (to_sql (ub_department b)) (to_sql (ub_status b))
                 (to_sql (ub_avatar b)) with
         | (Raise _, s') => (Refusal (Service.handleError true), s')
         | (Done rows, s') =>
             match PgPromise.oneOrNone rows with
             | Done (Some data) => (Answer 200 data, s')
             | Done None => (Refusal (SendStatus 404), s')
             | Raise _ => (Refusal (Service.handleError true), s')
             end
         end
    else (Refusal (Service.handleError true), s).
Proof.
  unfold ServiceRest.put_users_id.
  destruct (prepare_update_user_cases b) as [[Q P]|[Q [k P]]];
    rewrite P, Q; reflexivity.
Qed.

Lemma put_users_id_done (e : env) (s s' : store) (id : Z) (b : user_body)
    (c : Z) (w : user_update) :
  wf s = true ->
  ServiceRest.put_users_id e s id b = (Answer c w, s') ->
  exists u n m r,
    In u (users s) /\ u_id u = id /\ user_update_complete b = true
    /\ ub_name b = Val n /\ ub_email b = Val m /\ ub_role b = Val r
    /\ c = 200 /\ w = updated (overwritten e b n m r u)
    /\ users s'
       = map (fun x => if u_id x =? id then overwritten e b n m r u else x)
             (users s)
    /\ Service.get_users_id s' id
       = (Reply 200 (UserRow (view (overwritten e b n m r u))), s').
Proof.
  intros W H. rewrite put_users_id_rows in H.
  destruct (user_update_complete b) eqn:Q; [|discriminate].
  destruct (update_users _ _ _ _ _ _ _ _ _ _) as [[rows|err] s1] eqn:U;
    [|discriminate].
  destruct rows as [|w' rows]; [discriminate|].
  apply (update_users_done e s s1 id _ _ _ _ _ _ _ w' rows W) in U.
  destruct U as (u & n & m & r & Hu & Hid & Hn & Hm & Hr & -> & Hw & Hs & _ & I).
  simpl in H. injection H as <- <- <-.
  destruct (ub_name b) as [| |n'] eqn:En; try discriminate.
  destruct (ub_email b) as [| |m'] eqn:Em; try discriminate.
  destruct (ub_role b) as [| |r'] eqn:Er; try discriminate.
  simpl in Hn, Hm, Hr. injection Hn as ->. injection Hm as ->. injection Hr as ->.
  assert (overwritten e b n m r u
          = mk_user id n m (to_sql (ub_phone b)) (u_password_hash u) r
                    (to_sql (ub_department b)) (to_sql (ub_status b))
                    (to_sql (ub_avatar b)) (u_created_at u) (now e)) as O
    by (unfold overwritten; now rewrite Hid).
  assert (u_id (overwritten e b n m r u) = id) as Ko
    by (rewrite O; reflexivity).
  assert (filter (fun x => u_id x =? u_id (overwritten e b n m r u)) (users s1)
          = [overwritten e b n m r u]) as F.
  { rewrite Ko, Hs, <- O.
    rewrite (filter_map_replace u_id (overwritten e b n m r u) _ id Ko).
    rewrite <- Hid.
    rewrite (distinct_filter_one u_id _ u
               (keys_ok_distinct _ _ (wf_users s W)) Hu).
    reflexivity. }
  pose proof (get_users_id_found s1 (overwritten e b n m r u)
                (eq_ind_r (fun k => Pg.int4_ok k = true) I Ko) F) as G.
  rewrite Ko in G.
  exists u, n, m, r.
  split; [exact Hu|]. split; [exact Hid|]. split; [reflexivity|].
  split; [reflexivity|]. split; [reflexivity|]. split; [reflexivity|].
  split; [reflexivity|]. split; [rewrite O; exact Hw|].
  split; [rewrite Hs, O; reflexivity|]. exact G.
Qed.

(** X6.  [PUT /api/users/:id] answers 200 only for a stored user and a
    body with all seven properties it names; the row then carries the
    body's values as they are (the address is not put in lower case),
    keeps its id, password hash and creation time, no other row changes,
    and the user read back is the row so made. *)
Theorem put_users_id_overwrites (e : env) (s s' : store) (id : Z)
    (b : user_body) (c : Z) (w : user_update) :
  wf s = true ->
  ServiceRest.put_users_id e s id b = (Answer c w, s') ->
  exists u n m r,
    In u (users s) /\ u_id u = id /\ user_update_complete b = true
    /\ ub_name b = Val n /\ ub_email b = Val m /\ ub_role b = Val r
    /\ c = 200 /\ w = updated (overwritten e b n m r u)
    /\ users s'
       = map (fun x => if u_id x =? id then overwritten e b n m r u else x)
             (users s)
    /\ Service.get_users_id s' id
       = (Reply 200 (UserRow (view (overwritten e b n m r u))), s').
Proof. apply put_users_id_done. Qed.

Lemma put_users_id_overwrites_witness :
  exists u n m r,
    In u (users base) /\ u_id u = 1
    /\ user_update_complete (rename "Max.Wu@Calvin.edu") = true
    /\ ub_name (rename "Max.Wu@Calvin.edu") = Val n
    /\ ub_email (rename "Max.Wu@Calvin.edu") = Val m
    /\ ub_role (rename "Max.Wu@Calvin.edu") = Val r
    /\ 200 = 200
    /\ mk_user_update 1 "Max Wu" "Max.Wu@Calvin.edu" None "user" None
         (Some "active") None
       = updated (overwritten clock (rename "Max.Wu@Calvin.edu") n m r u)
    /\ users (snd (ServiceRest.put_users_id clock base 1 (rename "Max.Wu@Calvin.edu")))
       = map (fun x => if u_id x =? 1
                       then overwritten clock (rename "Max.Wu@Calvin.edu") n m r u
                       else x) (users base)
    /\ Service.get_users_id
         (snd (ServiceRest.put_users_id clock base 1 (rename "Max.Wu@Calvin.edu"))) 1
       = (Reply 200 (UserRow (view (overwritten clock
                                      (rename "Max.Wu@Calvin.edu") n m r u))),
          snd (ServiceRest.put_users_id clock base 1 (rename "Max.Wu@Calvin.edu"))).
Proof.
  exact (put_users_id_overwrites clock base _ 1 (rename "Max.Wu@Calvin.edu")
           200 _ eq_refl eq_refl).
Defined.

(** X7.  Sign-up and login agree on lower case, the change of a user does
    not: once [PUT /api/users/:id] has stored an address with a capital
    in it, no login, whatever address and password it gives, is answered
    with a session of that user. *)
Theorem capital_in_address_locks_out (compare : string -> string -> bool)
    (e : env) (s s' : store) (id : Z) (b : user_body) (c : Z)
    (w : user_update) (m : string) (email password : field string) :
  wf s = true ->
  ServiceRest.put_users_id e s id b = (Answer c w, s') ->
  ub_email b = Val m -> toLowerCase m <> m ->
  logged_in_as (fst (ServiceRest.post_login compare s' email password)) id
  = false.
Proof.
  intros W H Em N.
  apply put_users_id_done in H; [|exact W].
  destruct H as (u & n & m' & r & Hu & Hid & _ & _ & Em' & _ & _ & _ & Hs & _).
  rewrite Em in Em'. injection Em' as <-.
  destruct (ServiceRest.post_login compare s' email password)
    as [[c' session|refusal] t] eqn:L; [|reflexivity].
  apply post_login_accepted in L.
  destruct L as (u' & x & p & Hu' & _ & _ & _ & _ & -> & Low & _).
  simpl. apply Z.eqb_neq. intro E.
  rewrite Hs in Hu'. apply in_map_iff in Hu'.
  destruct Hu' as (y & Hy & _).
  destruct (u_id y =? id) eqn:K.
  - subst u'. apply N. exact Low.
  - subst u'. apply Z.eqb_neq in K. contradiction.
Qed.

Lemma capital_in_address_locks_out_witness :
  logged_in_as
    (fst (ServiceRest.post_login sample_compare
            (snd (ServiceRest.put_users_id clock base 1
                    (rename "Max.Wu@Calvin.edu")))
            (Val "Max.Wu@Calvin.edu") (Val "h"))) 1
  = false.
Proof.
  refine (capital_in_address_locks_out sample_compare clock base _ 1
            (rename "Max.Wu@Calvin.edu") 200 _ "Max.Wu@Calvin.edu"
            (Val "Max.Wu@Calvin.edu") (Val "h")
            eq_refl eq_refl eq_refl _).
  vm_compute. discriminate.
Defined.

(* ================================================================== *)
(** * Parking lots: reading and deleting *)
(* ================================================================== *)

Lemma prepare_select_parking_lot :
  PgPromise.prepare ServiceRest.sql_select_parking_lot Service.params = Done tt.
Proof. vm_compute. reflexivity. Qed.

Lemma prepare_delete_parking_lot :
  PgPromise.prepare ServiceRest.sql_delete_parking_lot Service.params = Done tt.
Proof. vm_compute. reflexivity. Qed.

Lemma insert_into_parking_lots_key (e : env) (s s' : store)
    (name : option string) (rows cols : option Z)
    (spaces merged_aisles : option json) (row : parking_lot) :
  insert_into_parking_lots e s name rows cols spaces merged_aisles
    = (Done row, s') ->
  l_id row = parking_lots_id_seq s.
Proof.
  unfold insert_into_parking_lots, bind, guard, Pg.not_null. intro H.
  repeat (break_match_in H; try discriminate).
  inversion H. subst. reflexivity.
Qed.

Lemma select_parking_lots_by_id_found (s : store) (row : parking_lot) :
  Pg.int4_ok (l_id row) = true ->
  filter (fun l => l_id l =? l_id row) (parking_lots s) = [row] ->
  select_parking_lots_by_id s (l_id row) = Done [row].
Proof.
  intros I F. unfold select_parking_lots_by_id, bind, Pg.int4.
  now rewrite I, F.
Qed.

Lemma select_parking_lots_by_id_missing (s : store) (id : Z) :
  Pg.int4_ok id = true -> has_key l_id (parking_lots s) id = false ->
  select_parking_lots_by_id s id = Done [].
Proof.
  intros I F. unfold select_parking_lots_by_id, bind, Pg.int4.
  now rewrite I, (has_key_false_filter l_id _ _ F).
Qed.

Lemma service_get_parking_lots_id_rows (s : store) (id : Z) :
  ServiceRest.get_parking_lots_id s id
  = match (rows <- select_parking_lots_by_id s id ;; PgPromise.oneOrNone rows) with
    | Done data => (Service.returnDataOr404 (option_map LotRow data), s)
    | Raise _ => (Service.handleError true, s)
    end.
Proof.
  unfold ServiceRest.get_parking_lots_id. now rewrite prepare_select_parking_lot.
Qed.

Lemma service_delete_parking_lots_id_rows (e : env) (s : store) (id : Z) :
  ServiceRest.delete_parking_lots_id e s id
  = match delete_from_parking_lots e s id with
    | (Raise _, s') => (Service.handleError true, s')
    | (Done rows, s') =>
        match PgPromise.oneOrNone rows with
        | Done data =>
            (Service.returnDataOr404
               (option_map (fun l => RowId (l_id l)) data), s')
        | Raise _ => (Service.handleError true, s')
        end
    end.
Proof.
  unfold ServiceRest.delete_parking_lots_id.
  now rewrite prepare_delete_parking_lot.
Qed.

Lemma delete_from_parking_lots_present (e : env) (s : store) (row : parking_lot) :
  has_key l_id (parking_lots s) (l_id row) = true ->
  filter (fun l => l_id l =? l_id row) (parking_lots s) = [row] ->
  Pg.int4_ok (l_id row) = true ->
  delete_from_parking_lots e s (l_id row)
  = (Done [row], without_lot e s (l_id row)).
Proof.
  intros K F I. unfold delete_from_parking_lots, Pg.int4. now rewrite I, K, F.
Qed.

Lemma delete_from_parking_lots_absent (e : env) (s : store) (id : Z) :
  Pg.int4_ok id = true -> has_key l_id (parking_lots s) id = false ->
  delete_from_parking_lots e s id = (Done [], s).
Proof.
  intros I H. unfold delete_from_parking_lots, Pg.int4. now rewrite I, H.
Qed.

Lemma filter_out_snoc_fresh {R} (key : R -> Z) (l : list R) (r : R) :
  has_key key l (key r) = false ->
  filter (fun x => negb (key x =? key r)) (l ++ [r])%list = l.
Proof.
  intro H. rewrite filter_snoc, Z.eqb_refl. simpl.
  rewrite app_nil_r. now apply has_key_false_filter_out.
Qed.

Lemma filter_snoc_fresh {R} (key : R -> Z) (l : list R) (r : R) :
  has_key key l (key r) = false ->
  filter (fun x => key x =? key r) (l ++ [r])%list = [r].
Proof.
  intro H. rewrite filter_snoc, Z.eqb_refl.
  now rewrite (has_key_false_filter key _ _ H).
Qed.

Lemma server_post_parking_lots_row (e : env) (s s' : store) (b : lot_body)
    (row : parking_lot) :
  Server.post_parking_lots e s b = (Reply 201 (LotRow row), s') ->
  l_id row = parking_lots_id_seq s
  /\ s' = set_parking_lots s (parking_lots s ++ [row])%list
            (parking_lots_id_seq s + 1).
Proof.
  intro H. destruct (lot_required b) eqn:Q.
  - rewrite (server_post_parking_lots_insert e s b Q) in H.
    case_insert_lot r err s1 X; [|discriminate].
    injection H as <- <-.
    split; [exact (insert_into_parking_lots_key _ _ _ _ _ _ _ _ _ X)|].
    now apply insert_into_parking_lots_done in X.
  - rewrite (server_post_parking_lots_required e s b Q) in H. discriminate.
Qed.

Lemma service_post_parking_lots_row (e : env) (s s' : store) (b : lot_body)
    (id : Z) :
  Service.post_parking_lots e s b = (Reply 201 (RowId id), s') ->
  exists row,
    l_id row = id /\ id = parking_lots_id_seq s
    /\ s' = set_parking_lots s (parking_lots s ++ [row])%list
              (parking_lots_id_seq s + 1)
    /\ lb_name b = Val (l_name row)
    /\ lb_rows b = Val (l_rows row) /\ lb_cols b = Val (l_cols row)
    /\ jsonb_written (lb_spaces b) (l_spaces row)
    /\ jsonb_written (lb_merged_aisles b) (l_merged_aisles row).
Proof.
  unfold Service.post_parking_lots. intro H.
  destruct (PgPromise.prepare _ _); cbn [bind] in *; [|discriminate].
  case_json_columns spaces merged_aisles J; [|discriminate].
  case_insert_lot r err s1 X; [|discriminate].
  injection H as <- <-.
  pose proof (insert_into_parking_lots_key _ _ _ _ _ _ _ _ _ X) as K.
  apply insert_into_parking_lots_done in X.
  destruct X as (-> & Hn & Hr & Hc & <- & <-).
  apply json_columns_written in J. destruct J as [Js Ja].
  exists r.
  destruct (lb_name b), (lb_rows b), (lb_cols b); try discriminate.
  simpl in Hn, Hr, Hc. inversion Hn. inversion Hr. inversion Hc.
  split; [reflexivity|]. split; [exact K|].
  repeat (split; [reflexivity|]). split; assumption.
Qed.

Section LotLifeCycle.

Variables (e e' : env) (s : store) (row : parking_lot).
Hypothesis W : wf s = true.
Hypothesis I : Pg.int4_ok (parking_lots_id_seq s) = true.
Hypothesis K : l_id row = parking_lots_id_seq s.

Lemma created_lot_selected :
  select_parking_lots_by_id (with_lot s row) (l_id row) = Done [row].
Proof.
  apply select_parking_lots_by_id_found; [now rewrite K|].
  apply filter_snoc_fresh. rewrite K. now apply wf_fresh_lot.
Qed.

Lemma created_lot_deleted :
  delete_from_parking_lots e' (with_lot s row) (l_id row)
  = (Done [row], without_lot e' (with_lot s row) (l_id row)).
Proof.
  apply delete_from_parking_lots_present.
  - apply has_key_in. apply in_or_app. right. now left.
  - apply filter_snoc_fresh. rewrite K. now apply wf_fresh_lot.
  - now rewrite K.
Qed.

Lemma created_lot_gone :
  parking_lots (without_lot e' (with_lot s row) (l_id row)) = parking_lots s
  /\ has_key l_id (parking_lots (without_lot e' (with_lot s row) (l_id row))) (l_id row) = false.
Proof.
  assert (parking_lots (without_lot e' (with_lot s row) (l_id row)) = parking_lots s) as P.
  { apply filter_out_snoc_fresh. rewrite K. now apply wf_fresh_lot. }
  split; [exact P|]. rewrite P, K. now apply wf_fresh_lot.
Qed.

End LotLifeCycle.

(** X8.  The life of a lot in [server.js]: a lot that was created (201)
    is read back as it was returned; its deletion returns it once more
    and leaves the lots that were there before; from then on reading and
    deleting it are answered 404. *)
Theorem server_lot_life_cycle (e e' : env) (s s1 : store) (b : lot_body)
    (row : parking_lot) :
  wf s = true -> Pg.int4_ok (parking_lots_id_seq s) = true ->
  Server.post_parking_lots e s b = (Reply 201 (LotRow row), s1) ->
  ServerRest.get_parking_lots_id s1 (l_id row) = (Reply 200 (LotRow row), s1)
  /\ exists s2,
       ServerRest.delete_parking_lots_id e' s1 (l_id row)
       = (Reply 200 (LotRow row), s2)
       /\ parking_lots s2 = parking_lots s
       /\ ServerRest.get_parking_lots_id s2 (l_id row)
          = (Fail 404 "Parking lot not found" None, s2)
       /\ ServerRest.delete_parking_lots_id e' s2 (l_id row)
          = (Fail 404 "Parking lot not found" None, s2).
Proof.
  intros W I H. apply server_post_parking_lots_row in H. destruct H as [K ->].
  fold (with_lot s row).
  split.
  - unfold ServerRest.get_parking_lots_id.
    now rewrite (created_lot_selected s row W I K).
  - exists (without_lot e' (with_lot s row) (l_id row)).
    destruct (created_lot_gone e' s row W K) as [P G].
    assert (Pg.int4_ok (l_id row) = true) as I' by now rewrite K.
    split; [|split; [exact P|split]].
    + unfold ServerRest.delete_parking_lots_id.
      now rewrite (created_lot_deleted e' s row W I K).
    + unfold ServerRest.get_parking_lots_id.
      now rewrite (select_parking_lots_by_id_missing _ _ I' G).
    + unfold ServerRest.delete_parking_lots_id.
      now rewrite (delete_from_parking_lots_absent e' _ _ I' G).
Qed.

Lemma server_lot_life_cycle_witness :
  let row := mk_lot 2 "West Lot" 2 3 (Some (JArr [])) (Some (JArr []))
                    29000000 29000000 in
  let s1 := with_lot base row in
  ServerRest.get_parking_lots_id s1 2 = (Reply 200 (LotRow row), s1)
  /\ exists s2,
       ServerRest.delete_parking_lots_id clock s1 2 = (Reply 200 (LotRow row), s2)
       /\ parking_lots s2 = parking_lots base
       /\ ServerRest.get_parking_lots_id s2 2
          = (Fail 404 "Parking lot not found" None, s2)
       /\ ServerRest.delete_parking_lots_id clock s2 2
          = (Fail 404 "Parking lot not found" None, s2).
Proof.
  exact (server_lot_life_cycle clock clock base _
           (mk_lot_body (Val "West Lot") (Val 2) (Val 3) Absent Absent Absent)
           _ eq_refl eq_refl eq_refl).
Defined.

(** X9.  The life of a lot in the pg-promise service: the id a creation
    (201) returns names a lot that is read back with the name, rows and
    columns of the body; its spaces and its aisles are each [NULL] when
    the body has none, the empty object when the body has the empty
    array, and the object itself when the body has an object (a body
    with a number, a boolean or an array with elements there is not
    answered 201); its deletion returns the id and leaves the lots that
    were there before; from then on reading and deleting it are answered
    404. *)
Theorem service_lot_life_cycle (e e' : env) (s s1 : store) (b : lot_body)
    (id : Z) :
  wf s = true -> Pg.int4_ok (parking_lots_id_seq s) = true ->
  Service.post_parking_lots e s b = (Reply 201 (RowId id), s1) ->
  exists row s2,
    ServiceRest.get_parking_lots_id s1 id = (Reply 200 (LotRow row), s1)
    /\ l_id row = id
    /\ lb_name b = Val (l_name row)
    /\ lb_rows b = Val (l_rows row) /\ lb_cols b = Val (l_cols row)
    /\ jsonb_written (lb_spaces b) (l_spaces row)
    /\ jsonb_written (lb_merged_aisles b) (l_merged_aisles row)
    /\ ServiceRest.delete_parking_lots_id e' s1 id = (Reply 200 (RowId id), s2)
    /\ parking_lots s2 = parking_lots s
    /\ ServiceRest.get_parking_lots_id s2 id = (SendStatus 404, s2)
    /\ ServiceRest.delete_parking_lots_id e' s2 id = (SendStatus 404, s2).
Proof.
  intros W I H. apply service_post_parking_lots_row in H.
  destruct H as (row & K1 & K2 & -> & Hn & Hr & Hc & Hs & Ha).
  assert (l_id row = parking_lots_id_seq s) as K by now rewrite K1.
  fold (with_lot s row). subst id.
  exists row, (without_lot e' (with_lot s row) (l_id row)).
  destruct (created_lot_gone e' s row W K) as [P G].
  assert (Pg.int4_ok (l_id row) = true) as I' by now rewrite K.
  split; [|split; [reflexivity|]].
  { rewrite service_get_parking_lots_id_rows.
    now rewrite (created_lot_selected s row W I K). }
  do 5 (split; [assumption|]).
  split; [|split; [exact P|split]].
  - rewrite service_delete_parking_lots_id_rows.
    now rewrite (created_lot_deleted e' s row W I K).
  - rewrite service_get_parking_lots_id_rows.
    now rewrite (select_parking_lots_by_id_missing _ _ I' G).
  - rewrite service_delete_parking_lots_id_rows.
    now rewrite (delete_from_parking_lots_absent e' _ _ I' G).
Qed.

Lemma service_lot_life_cycle_witness :
  exists row s2,
    let s1 := snd (Service.post_parking_lots clock base
                     (mk_lot_body (Val "West Lot") (Val 2) (Val 3)
                                  (Val (JArr [])) Absent
                                  (Val (JObj [("7", JNum 3)])))) in
    ServiceRest.get_parking_lots_id s1 2 = (Reply 200 (LotRow row), s1)
    /\ l_id row = 2
    /\ Val "West Lot" = Val (l_name row)
    /\ Val 2 = Val (l_rows row) /\ Val 3 = Val (l_cols row)
    /\ l_spaces row = Some (JObj [])
    /\ l_merged_aisles row = Some (JObj [("7", JNum 3)])
    /\ ServiceRest.delete_parking_lots_id clock s1 2 = (Reply 200 (RowId 2), s2)
    /\ parking_lots s2 = parking_lots base
    /\ ServiceRest.get_parking_lots_id s2 2 = (SendStatus 404, s2)
    /\ ServiceRest.delete_parking_lots_id clock s2 2 = (SendStatus 404, s2).
Proof.
  exact (service_lot_life_cycle clock clock base _
           (mk_lot_body (Val "West Lot") (Val 2) (Val 3) (Val (JArr [])) Absent
                        (Val (JObj [("7", JNum 3)])))
           2 eq_refl eq_refl eq_refl).
Defined.

Lemma detach_lot_key (e : env) (id : Z) (r : schedule) :
  s_id (detach_lot e id r) = s_id r.
Proof.
  unfold detach_lot. destruct (s_parking_lot_id r) as [k|]; [|reflexivity].
  now destruct (k =? id).
Qed.

Lemma detach_lot_user (e : env) (id : Z) (r : schedule) :
  s_user_id (detach_lot e id r) = s_user_id r.
Proof.
  unfold detach_lot. destruct (s_parking_lot_id r) as [k|]; [|reflexivity].
  now destruct (k =? id).
Qed.

Lemma detach_lot_other (e : env) (id : Z) (r : schedule) :
  of_lot id r = false -> detach_lot e id r = r.
Proof.
  unfold of_lot, detach_lot. destruct (s_parking_lot_id r) as [k|]; [|reflexivity].
  now intros ->.
Qed.

Lemma detach_lot_detached (e : env) (id : Z) (r : schedule) :
  s_parking_lot_id (detach_lot e id r) <> Some id.
Proof.
  unfold detach_lot. destruct (s_parking_lot_id r) as [k|] eqn:E.
  - destruct (k =? id) eqn:Q; simpl; [discriminate|].
    rewrite E. intro H. injection H as ->. now rewrite Z.eqb_refl in Q.
  - now rewrite E.
Qed.

Lemma detach_lot_reference (e : env) (id : Z) (r : schedule)
    (lots : list parking_lot) :
  references l_id lots (s_parking_lot_id r) = true ->
  references l_id (filter (fun l => negb (l_id l =? id)) lots)
             (s_parking_lot_id (detach_lot e id r)) = true.
Proof.
  unfold detach_lot. destruct (s_parking_lot_id r) as [k|] eqn:E.
  - destruct (k =? id) eqn:Q; [reflexivity|].
    rewrite E. simpl. rewrite !existsb_exists.
    intros (l & Hl & Hk). exists l. split; [|exact Hk].
    apply filter_In. split; [exact Hl|].
    apply Z.eqb_eq in Hk. now rewrite Hk, Q.
  - now rewrite E.
Qed.

Lemma without_lot_wf (e : env) (s : store) (id : Z) :
  wf s = true -> wf (without_lot e s id) = true.
Proof.
  intro W. unfold wf, without_lot. cbn [users parking_lots schedules
    users_id_seq parking_lots_id_seq schedules_id_seq].
  rewrite (wf_users s W), (wf_emails s W).
  rewrite (keys_ok_filter l_id _ _ _ (wf_parking_lots s W)).
  rewrite map_map.
  rewrite (map_ext _ s_id (detach_lot_key e id)).
  now rewrite (wf_schedules s W).
Qed.

Lemma without_lot_fk_ok (e : env) (s : store) (id : Z) :
  fk_ok s = true -> fk_ok (without_lot e s id) = true.
Proof.
  unfold fk_ok, without_lot. cbn [users parking_lots schedules].
  rewrite !forallb_forall. intros F r Hr.
  apply in_map_iff in Hr. destruct Hr as (r0 & <- & Hr0).
  specialize (F r0 Hr0). apply andb_true_iff in F. destruct F as [Fu Fl].
  rewrite detach_lot_user, Fu. simpl.
  now apply detach_lot_reference.
Qed.

(** X10.  Deleting a lot deletes no booking.  For a stored lot both
    applications answer 200 and leave the same store: the users are
    untouched, the lot is gone and the other lots stay, the spots of the
    lot are gone with it, and every schedule is still there under its id,
    those of the lot with no lot reference any more and all others as
    they were.  The key invariants and the references of the schedules
    survive. *)
Theorem delete_parking_lot_keeps_schedules (e : env) (s : store)
    (row : parking_lot) :
  wf s = true -> In row (parking_lots s) -> Pg.int4_ok (l_id row) = true ->
  exists s',
    ServerRest.delete_parking_lots_id e s (l_id row) = (Reply 200 (LotRow row), s')
    /\ ServiceRest.delete_parking_lots_id e s (l_id row)
       = (Reply 200 (RowId (l_id row)), s')
    /\ users s' = users s
    /\ (forall l, In l (parking_lots s')
                  <-> In l (parking_lots s) /\ l_id l <> l_id row)
    /\ (forall p, In p (spots s')
                  <-> In p (spots s) /\ sp_parking_lot_id p <> Some (l_id row))
    /\ map s_id (schedules s') = map s_id (schedules s)
    /\ map s_user_id (schedules s') = map s_user_id (schedules s)
    /\ (forall r, In r (schedules s) -> of_lot (l_id row) r = false ->
                  In r (schedules s'))
    /\ (forall r, In r (schedules s') -> s_parking_lot_id r <> Some (l_id row))
    /\ wf s' = true
    /\ (fk_ok s = true -> fk_ok s' = true).
Proof.
  intros W H I. exists (without_lot e s (l_id row)).
  pose proof (delete_from_parking_lots_present e s row
                (has_key_in l_id _ row H)
                (distinct_filter_one l_id _ row
                   (keys_ok_distinct _ _ (wf_parking_lots s W)) H) I) as D.
  split.
  { unfold ServerRest.delete_parking_lots_id. now rewrite D. }
  split.
  { rewrite service_delete_parking_lots_id_rows. now rewrite D. }
  split; [reflexivity|].
  split.
  { intro l. unfold without_lot. cbn [parking_lots]. rewrite filter_In.
    rewrite negb_true_iff, Z.eqb_neq. reflexivity. }
  split.
  { intro p. unfold without_lot. cbn [spots]. rewrite filter_In.
    rewrite negb_true_iff. unfold spot_of_lot.
    destruct (sp_parking_lot_id p) as [k|].
    - rewrite Z.eqb_neq. split; intros [A B]; (split; [exact A|]); congruence.
    - split; intros [A B]; (split; [exact A|]); congruence. }
  split.
  { unfold without_lot. cbn [schedules]. rewrite map_map.
    apply map_ext. apply detach_lot_key. }
  split.
  { unfold without_lot. cbn [schedules]. rewrite map_map.
    apply map_ext. apply detach_lot_user. }
  split.
  { intros r Hr O. unfold without_lot. cbn [schedules].
    apply in_map_iff. exists r. split; [now apply detach_lot_other|exact Hr]. }
  split.
  { intros r Hr. unfold without_lot in Hr. cbn [schedules] in Hr.
    apply in_map_iff in Hr. destruct Hr as (r0 & <- & _).
    apply detach_lot_detached. }
  split; [now apply without_lot_wf|apply without_lot_fk_ok].
Qed.

Lemma delete_parking_lot_keeps_schedules_witness :
  exists s',
    ServerRest.delete_parking_lots_id clock booked 1
    = (Reply 200 (LotRow north_lot), s')
    /\ ServiceRest.delete_parking_lots_id clock booked 1
       = (Reply 200 (RowId 1), s')
    /\ users s' = users booked
    /\ (forall l, In l (parking_lots s')
                  <-> In l (parking_lots booked) /\ l_id l <> 1)
    /\ (forall p, In p (spots s')
                  <-> In p (spots booked) /\ sp_parking_lot_id p <> Some 1)
    /\ map s_id (schedules s') = map s_id (schedules booked)
    /\ map s_user_id (schedules s') = map s_user_id (schedules booked)
    /\ (forall r, In r (schedules booked) -> of_lot 1 r = false ->
                  In r (schedules s'))
    /\ (forall r, In r (schedules s') -> s_parking_lot_id r <> Some 1)
    /\ wf s' = true
    /\ (fk_ok booked = true -> fk_ok s' = true).
Proof.
  exact (delete_parking_lot_keeps_schedules clock booked north_lot
           eq_refl (or_introl eq_refl) eq_refl).
Defined.

(* ================================================================== *)
(** * Listing schedules *)
(* ================================================================== *)

Lemma prepare_select_schedules_by_user :
  PgPromise.prepare ServiceRest.sql_select_schedules_by_user
    ServiceRest.userId_params = Done tt.
Proof. vm_compute. reflexivity. Qed.

Lemma prepare_select_schedules_by_lot :
  PgPromise.prepare ServiceRest.sql_select_schedules_by_lot
    ServiceRest.lotId_params = Done tt.
Proof. vm_compute. reflexivity. Qed.

Lemma later_first_total (a b : schedule) :
  later_first a b = false -> later_first b a = true.
Proof.
  unfold later_first. intro H.
  apply orb_false_iff in H. destruct H as [H1 H2].
  apply Z.ltb_ge in H1. apply andb_false_iff in H2.
  apply orb_true_iff.
  destruct (Z.eq_dec (s_date a) (s_date b)) as [E|E].
  - right. apply andb_true_iff. split; [now apply Z.eqb_eq|].
    destruct H2 as [H2|H2]; [apply Z.eqb_neq in H2; congruence|].
    apply Z.leb_gt in H2. apply Z.leb_le. lia.
  - left. apply Z.ltb_lt. lia.
Qed.

Lemma later_first_trans (a b c : schedule) :
  later_first a b = true -> later_first b c = true -> later_first a c = true.
Proof.
  unfold later_first. rewrite !orb_true_iff, !andb_true_iff.
  rewrite !Z.ltb_lt, !Z.eqb_eq, !Z.leb_le. lia.
Qed.

Section OrderBy.

Context {A : Type} (first : A -> A -> bool).

Hypothesis first_total : forall a b, first a b = false -> first b a = true.
Hypothesis first_trans :
  forall a b c, first a b = true -> first b c = true -> first a c = true.

Lemma insert_ordered_perm (r : A) (l : list A) :
  Permutation (insert_ordered first r l) (r :: l).
Proof.
  induction l as [|a l IH]; simpl; [reflexivity|].
  destruct (first r a); [reflexivity|].
  rewrite IH. apply perm_swap.
Qed.

Lemma order_by_perm (l : list A) : Permutation (order_by first l) l.
Proof.
  induction l as [|a l IH]; simpl; [reflexivity|].
  rewrite insert_ordered_perm. now constructor.
Qed.

Lemma insert_ordered_sorted (r : A) (l : list A) :
  StronglySorted (fun a b => first a b = true) l ->
  StronglySorted (fun a b => first a b = true) (insert_ordered first r l).
Proof.
  induction 1 as [|a l S IH F]; simpl.
  - constructor; constructor.
  - destruct (first r a) eqn:E.
    + constructor; [now constructor|].
      constructor; [exact E|].
      eapply Forall_impl; [|exact F].
      intros x Hx. exact (first_trans r a x E Hx).
    + constructor; [exact IH|].
      apply Forall_forall. intros x Hx.
      apply (Permutation_in _ (insert_ordered_perm r l)) in Hx.
      destruct Hx as [<-|Hx]; [now apply first_total|].
      rewrite Forall_forall in F. now apply F.
Qed.

Lemma order_by_sorted (l : list A) :
  StronglySorted (fun a b => first a b = true) (order_by first l).
Proof.
  induction l as [|a l IH]; simpl; [constructor|].
  now apply insert_ordered_sorted.
Qed.

End OrderBy.

Lemma order_by_date_time_perm (l : list schedule) :
  Permutation (order_by_date_time l) l.
Proof. apply order_by_perm. Qed.

Lemma order_by_date_time_sorted (l : list schedule) :
  StronglySorted before (order_by_date_time l).
Proof.
  apply (order_by_sorted later_first later_first_total later_first_trans).
Qed.

Lemma get_schedules_user_rows (s : store) (userId : Z) :
  Pg.int4_ok userId = true ->
  ServiceRest.get_schedules_user s userId
  = (Answer 200 (order_by_date_time (filter (of_user userId) (schedules s))), s).
Proof.
  intro I. unfold ServiceRest.get_schedules_user.
  rewrite prepare_select_schedules_by_user.
  unfold select_schedules_by_user, bind, Pg.int4. now rewrite I.
Qed.

Lemma get_schedules_lot_rows (s : store) (lotId : Z) :
  Pg.int4_ok lotId = true ->
  ServiceRest.get_schedules_lot s lotId
  = (Answer 200 (order_by_date_time (filter (of_lot lotId) (schedules s))), s).
Proof.
  intro I. unfold ServiceRest.get_schedules_lot.
  rewrite prepare_select_schedules_by_lot.
  unfold select_schedules_by_lot, bind, Pg.int4. now rewrite I.
Qed.

(** X11.  The schedule listings are complete, exact and ordered.
    [GET /api/schedules] of either application returns every stored
    schedule once; [GET /api/schedules/user/:userId] returns the
    schedules of that user and no other, [GET /api/schedules/lot/:lotId]
    those of that lot; each list has the later date first and, on one
    date, the later start time first; no listing changes the store. *)
Theorem schedule_listings_ordered (s : store) (userId lotId : Z) :
  Pg.int4_ok userId = true -> Pg.int4_ok lotId = true ->
  exists all mine here,
    ServerRest.get_schedules s = (Answer 200 all, s)
    /\ ServiceRest.get_schedules s = (Answer 200 all, s)
    /\ ServiceRest.get_schedules_user s userId = (Answer 200 mine, s)
    /\ ServiceRest.get_schedules_lot s lotId = (Answer 200 here, s)
    /\ Permutation all (schedules s)
    /\ Permutation mine (filter (of_user userId) (schedules s))
    /\ Permutation here (filter (of_lot lotId) (schedules s))
    /\ (forall r, In r mine <-> In r (schedules s) /\ s_user_id r = Some userId)
    /\ (forall r, In r here
                  <-> In r (schedules s) /\ s_parking_lot_id r = Some lotId)
    /\ StronglySorted before all /\ StronglySorted before mine
    /\ StronglySorted before here.
Proof.
  intros Iu Il.
  exists (order_by_date_time (schedules s)),
         (order_by_date_time (filter (of_user userId) (schedules s))),
         (order_by_date_time (filter (of_lot lotId) (schedules s))).
  split; [reflexivity|]. split; [reflexivity|].
  split; [now apply get_schedules_user_rows|].
  split; [now apply get_schedules_lot_rows|].
  split; [apply order_by_date_time_perm|].
  split; [apply order_by_date_time_perm|].
  split; [apply order_by_date_time_perm|].
  split.
  { intro r. split.
    - intro H. apply (Permutation_in _ (order_by_date_time_perm _)) in H.
      apply filter_In in H. destruct H as [H O]. split; [exact H|].
      unfold of_user in O. destruct (s_user_id r) as [k|]; [|discriminate].
      apply Z.eqb_eq in O. now subst.
    - intros [H O].
      apply (Permutation_in _ (Permutation_sym (order_by_date_time_perm _))).
      apply filter_In. split; [exact H|].
      unfold of_user. rewrite O. apply Z.eqb_refl. }
  split.
  { intro r. split.
    - intro H. apply (Permutation_in _ (order_by_date_time_perm _)) in H.
      apply filter_In in H. destruct H as [H O]. split; [exact H|].
      unfold of_lot in O. destruct (s_parking_lot_id r) as [k|]; [|discriminate].
      apply Z.eqb_eq in O. now subst.
    - intros [H O].
      apply (Permutation_in _ (Permutation_sym (order_by_date_time_perm _))).
      apply filter_In. split; [exact H|].
      unfold of_lot. rewrite O. apply Z.eqb_refl. }
  repeat split; apply order_by_date_time_sorted.
Qed.

Lemma schedule_listings_ordered_witness :
  exists all mine here,
    ServerRest.get_schedules booked = (Answer 200 all, booked)
    /\ ServiceRest.get_schedules booked = (Answer 200 all, booked)
    /\ ServiceRest.get_schedules_user booked 1 = (Answer 200 mine, booked)
    /\ ServiceRest.get_schedules_lot booked 7 = (Answer 200 here, booked)
    /\ Permutation all (schedules booked)
    /\ Permutation mine (filter (of_user 1) (schedules booked))
    /\ Permutation here (filter (of_lot 7) (schedules booked))
    /\ (forall r, In r mine <-> In r (schedules booked) /\ s_user_id r = Some 1)
    /\ (forall r, In r here
                  <-> In r (schedules booked) /\ s_parking_lot_id r = Some 7)
    /\ StronglySorted before all /\ StronglySorted before mine
    /\ StronglySorted before here.
Proof.
  exact (schedule_listings_ordered booked 1 7 eq_refl eq_refl).
Defined.

(* ================================================================== *)
(** * Changing a schedule *)
(* ================================================================== *)

Lemma prepare_select_schedule :
  PgPromise.prepare ServiceRest.sql_select_schedule Service.params = Done tt.
Proof. vm_compute. reflexivity. Qed.

Lemma prepare_update_schedule (has : string -> bool) :
  PgPromise.prepare ServiceRest.sql_update_schedule (Service.id_and_body has)
  = match find (fun n => negb (Service.id_and_body has n))
            ["body.user_id"; "body.parking_lot_id"; "body.spot_number";
             "body.start_time"; "body.end_time"; "body.date";
             "body.is_recurring"; "body.recurring_days"; "body.location";
             "body.parking_lot"; "body.status"; "id"] with
    | Some n => Raise (property_missing n)
    | None => Done tt
    end.
Proof. vm_compute. reflexivity. Qed.

Lemma prepare_update_schedule_cases (b : schedule_body) :
  (schedule_complete b = true
   /\ PgPromise.prepare ServiceRest.sql_update_schedule
        (Service.id_and_body (Service.schedule_props b)) = Done tt)
  \/ (schedule_complete b = false
      /\ exists n,
           PgPromise.prepare ServiceRest.sql_update_schedule
             (Service.id_and_body (Service.schedule_props b))
           = Raise (property_missing n)).
Proof.
  rewrite prepare_update_schedule.
  unfold schedule_complete, Service.schedule_props, Service.id_and_body,
    PgPromise.nested, PgPromise.has_own.
  simpl.
  repeat match goal with
         | |- context [present ?f] =>
             destruct (present f); simpl;
             [|right; split; [reflexivity|eexists; reflexivity]]
         end.
  left. split; reflexivity.
Qed.

Lemma put_schedules_id_rows (e : env) (s : store) (id : Z) (b : schedule_body) :
  ServiceRest.put_schedules_id e s id b
  = if schedule_complete b
    then match PgPromise.as_jsonb (to_sql (sb_recurring_days b)) with
         | Raise _ => (Service.handleError true, s)
         | Done days =>
             match update_schedules e s id
                     (to_sql (sb_user_id b)) (to_sql (sb_parking_lot_id b))
                     (to_sql (sb_spot_number b))
                     (to_sql (sb_start_time b)) (to_sql (sb_end_time b))
                     (to_sql (sb_date b))
                     (to_sql (sb_location b)) (to_sql (sb_parking_lot b))
                     (to_sql (sb_is_recurring b)) days
                     (to_sql (sb_status b)) with
             | (Raise _, s') => (Service.handleError true, s')
             | (Done rows, s') =>
                 match PgPromise.oneOrNone rows with
                 | Done data =>
                     (Service.returnDataOr404 (option_map RowId data), s')
                 | Raise _ => (Service.handleError true, s')
                 end
             end
         end
    else (Service.handleError true, s).
Proof.
  unfold ServiceRest.put_schedules_id.
  destruct (prepare_update_schedule_cases b) as [[Q P]|[Q [k P]]];
    rewrite P, Q; reflexivity.
Qed.

Lemma get_schedules_id_found (s : store) (r : schedule) :
  Pg.int4_ok (s_id r) = true ->
  filter (fun x => s_id x =? s_id r) (schedules s) = [r] ->
  ServiceRest.get_schedules_id s (s_id r) = (Reply 200 (ScheduleRow r), s).
Proof.
  intros I F. unfold ServiceRest.get_schedules_id.
  rewrite prepare_select_schedule.
  unfold select_schedules_by_id, bind, Pg.int4. now rewrite I, F.
Qed.

(** What a successful [UPDATE schedules] did. *)
Lemma update_schedules_done (e : env) (s s' : store) (id : Z)
    (user_id parking_lot_id : option Z) (spot_number : option string)
    (start_time end_time date : option Z)
    (location parking_lot : option string)
    (is_recurring : option bool) (recurring_days : option json)
    (status : option string) (k : Z) (rows : list Z) :
  wf s = true ->
  update_schedules e s id user_id parking_lot_id spot_number start_time
    end_time date location parking_lot is_recurring recurring_days status
    = (Done (k :: rows), s') ->
  exists old st en d,
    In old (schedules s) /\ s_id old = id /\ k = id /\ rows = []
    /\ start_time = Some st /\ end_time = Some en /\ date = Some d
    /\ s' = set_schedules s
              (map (fun r => if s_id r =? id
                             then mk_schedule id user_id parking_lot_id
                                    spot_number st en d is_recurring
                                    recurring_days location parking_lot status
                                    (s_created_at old) (now e)
                             else r) (schedules s))
              (schedules_id_seq s)
    /\ Pg.check_in status_values status = true
    /\ references u_id (users s) user_id = true
    /\ references l_id (parking_lots s) parking_lot_id = true
    /\ Pg.int4_ok id = true.
Proof.
  intros W H.
  pose proof (keys_ok_distinct _ _ (wf_schedules s W)) as D.
  unfold update_schedules, bind, guard, Pg.not_null, Pg.int4 in H.
  destruct (Pg.int4_ok id) eqn:I; [|discriminate].
  repeat (break_match_in H; try discriminate).
  all: match goal with
       | X : negb (has_key s_id _ _) = false |- _ =>
           apply negb_false_iff in X; apply has_key_true_in in X;
           destruct X as (old & Ho & Hid)
       end.
  all: subst id.
  all: rewrite (filter_map_update s_id) in H by reflexivity.
  all: rewrite (distinct_filter_one s_id _ old D Ho) in H.
  all: injection H as <- <- <-; subst.
  all: eexists old, _, _, _.
  all: repeat match goal with
              | X : negb _ = false |- _ => apply negb_false_iff in X
              end.
  all: repeat split; try reflexivity; try assumption.
  all: f_equal.
  all: apply (map_update_one s_id
                (fun o => mk_schedule (s_id o) _ _ _ _ _ _ _ _ _ _ _
                            (s_created_at o) (now e)) _ old D Ho).
Qed.

(** X12.  [PUT /api/schedules/:id] answers 200 only for a stored schedule
    and a body with all eleven properties it names; the row is then
    overwritten with the values of the body, whatever status among the
    allowed ones and whatever times they give, and keeps its id and
    creation time.  Its recurring days become [NULL] when the body has
    [null] for them, the empty object when the body has the empty array,
    and the object itself when the body has an object; with a number, a
    boolean or an array with elements there the answer is not 200.  No
    other schedule, and no user, lot or spot, changes; the schedule read
    back by id is the row so made. *)
Theorem put_schedules_id_overwrites (e : env) (s s' : store) (id k : Z)
    (b : schedule_body) :
  wf s = true ->
  ServiceRest.put_schedules_id e s id b = (Reply 200 (RowId k), s') ->
  exists old st en d days,
    In old (schedules s) /\ s_id old = id /\ k = id
    /\ schedule_complete b = true
    /\ sb_start_time b = Val st /\ sb_end_time b = Val en /\ sb_date b = Val d
    /\ Pg.check_in status_values (to_sql (sb_status b)) = true
    /\ jsonb_written (sb_recurring_days b) days
    /\ schedules s'
       = map (fun r => if s_id r =? id
                       then rescheduled e b st en d days old else r)
             (schedules s)
    /\ users s' = users s /\ parking_lots s' = parking_lots s
    /\ spots s' = spots s
    /\ ServiceRest.get_schedules_id s' id
       = (Reply 200 (ScheduleRow (rescheduled e b st en d days old)), s').
Proof.
  intros W H. rewrite put_schedules_id_rows in H.
  destruct (schedule_complete b) eqn:Q; [|discriminate].
  destruct (PgPromise.as_jsonb (to_sql (sb_recurring_days b))) as [days|] eqn:J;
    [|discriminate].
  apply as_jsonb_written in J.
  destruct (update_schedules _ _ _ _ _ _ _ _ _ _ _ _ _ _) as [[rows|err] s1] eqn:U;
    [|discriminate].
  destruct rows as [|k' rows]; [discriminate|].
  apply (update_schedules_done e s s1 id _ _ _ _ _ _ _ _ _ _ _ k' rows W) in U.
  destruct U as (old & st & en & d & Ho & Hid & -> & -> & Hst & Hen & Hd
                 & Hs & Hc & _ & _ & I).
  simpl in H. injection H as <- <-.
  destruct (sb_start_time b) as [| |st'] eqn:Est; try discriminate.
  destruct (sb_end_time b) as [| |en'] eqn:Een; try discriminate.
  destruct (sb_date b) as [| |d'] eqn:Ed; try discriminate.
  simpl in Hst, Hen, Hd.
  injection Hst as ->. injection Hen as ->. injection Hd as ->.
  assert (rescheduled e b st en d days old
          = mk_schedule id (to_sql (sb_user_id b)) (to_sql (sb_parking_lot_id b))
              (to_sql (sb_spot_number b)) st en d
              (to_sql (sb_is_recurring b)) days
              (to_sql (sb_location b)) (to_sql (sb_parking_lot b))
              (to_sql (sb_status b)) (s_created_at old) (now e)) as O
    by (unfold rescheduled; rewrite Hid; reflexivity).
  assert (s_id (rescheduled e b st en d days old) = id) as Ko
    by (rewrite O; reflexivity).
  assert (schedules s1
          = map (fun r => if s_id r =? id then rescheduled e b st en d days old else r)
                (schedules s)) as M
    by (rewrite Hs, O; reflexivity).
  assert (filter (fun x => s_id x =? s_id (rescheduled e b st en d days old))
                 (schedules s1)
          = [rescheduled e b st en d days old]) as F.
  { rewrite Ko, M.
    rewrite (filter_map_replace s_id (rescheduled e b st en d days old) _ id Ko).
    rewrite <- Hid.
    rewrite (distinct_filter_one s_id _ old
               (keys_ok_distinct _ _ (wf_schedules s W)) Ho).
    reflexivity. }
  pose proof (get_schedules_id_found s1 (rescheduled e b st en d days old)
                (eq_ind_r (fun k => Pg.int4_ok k = true) I Ko) F) as G.
  rewrite Ko in G.
  exists old, st, en, d, days.
  split; [exact Ho|]. split; [exact Hid|]. split; [reflexivity|].
  split; [reflexivity|]. split; [reflexivity|]. split; [reflexivity|].
  split; [reflexivity|]. split; [exact Hc|]. split; [exact J|].
  split; [exact M|].
  split; [rewrite Hs; reflexivity|]. split; [rewrite Hs; reflexivity|].
  split; [rewrite Hs; reflexivity|]. exact G.
Qed.

Lemma put_schedules_id_overwrites_witness :
  exists old st en d days,
    In old (schedules booked) /\ s_id old = 1 /\ 1 = 1
    /\ schedule_complete moved = true
    /\ Val (hm 11 0) = Val st /\ Val (hm 10 0) = Val en /\ Val 20120 = Val d
    /\ Pg.check_in status_values (Some "cancelled") = true
    /\ days = Some (JObj [])
    /\ schedules (snd (ServiceRest.put_schedules_id clock booked 1 moved))
       = map (fun r => if s_id r =? 1
                       then rescheduled clock moved st en d days old
                       else r) (schedules booked)
    /\ users (snd (ServiceRest.put_schedules_id clock booked 1 moved))
       = users booked
    /\ parking_lots (snd (ServiceRest.put_schedules_id clock booked 1 moved))
       = parking_lots booked
    /\ spots (snd (ServiceRest.put_schedules_id clock booked 1 moved))
       = spots booked
    /\ ServiceRest.get_schedules_id
         (snd (ServiceRest.put_schedules_id clock booked 1 moved)) 1
       = (Reply 200 (ScheduleRow (rescheduled clock moved st en d days old)),
          snd (ServiceRest.put_schedules_id clock booked 1 moved)).
Proof.
  exact (put_schedules_id_overwrites clock booked _ 1 1 moved eq_refl eq_refl).
Defined.

Lemma get_schedules_id_missing (s : store) (id : Z) :
  Pg.int4_ok id = true -> has_key s_id (schedules s) id = false ->
  ServiceRest.get_schedules_id s id = (SendStatus 404, s).
Proof.
  intros I H. unfold ServiceRest.get_schedules_id.
  rewrite prepare_select_schedule.
  unfold select_schedules_by_id, bind, Pg.int4.
  now rewrite I, (has_key_false_filter s_id _ _ H).
Qed.

(** The row an accepted [POST /api/schedules] of the service appends. *)
Lemma service_post_schedules_row (e : env) (s s' : store) (b : schedule_body)
    (id : Z) :
  Service.post_schedules e s b = (Reply 201 (RowId id), s') ->
  exists st en d days,
    id = schedules_id_seq s
    /\ sb_start_time b = Val st /\ sb_end_time b = Val en /\ sb_date b = Val d
    /\ s' = set_schedules s
              (schedules s
               ++ [mk_schedule id (to_sql (sb_user_id b))
                     (to_sql (sb_parking_lot_id b)) (to_sql (sb_spot_number b))
                     st en d (to_sql (sb_is_recurring b))
                     days (to_sql (sb_location b))
                     (to_sql (sb_parking_lot b)) (to_sql (sb_status b))
                     (now e) (now e)])%list
              (schedules_id_seq s + 1).
Proof.
  unfold Service.post_schedules. intro H.
  destruct (prepare_schedule_cases b) as [[Q P]|[Q [n P]]];
    rewrite P in H; cbn [bind] in H; [|discriminate].
  case_as_jsonb days J; [|discriminate].
  case_insert_schedule r err s1 X; [|discriminate].
  injection H as <- <-.
  apply insert_into_schedules_done in X.
  destruct X as (Hs & Hr & Hst & Hen & Hd & Hc).
  exists (s_start_time r), (s_end_time r), (s_date r), days.
  destruct (sb_start_time b), (sb_end_time b), (sb_date b); try discriminate.
  simpl in Hst, Hen, Hd.
  injection Hst as ->. injection Hen as ->. injection Hd as ->.
  split; [rewrite Hr; reflexivity|].
  split; [reflexivity|]. split; [reflexivity|]. split; [reflexivity|].
  assert (s_id r = schedules_id_seq s) as K by (rewrite Hr; reflexivity).
  rewrite Hs, K. f_equal. f_equal. rewrite Hr at 1. reflexivity.
Qed.

(** X13.  The life of a schedule in the pg-promise service: the id a
    creation (201) returns names a schedule that is read back with the
    user, lot, spot, times, date and status of the body, and that the
    listing of its user contains; its deletion returns the id and leaves
    the schedules that were there before; from then on reading it is
    answered 404. *)
Theorem schedule_life_cycle (e : env) (s s1 : store) (b : schedule_body)
    (id : Z) :
  wf s = true -> Pg.int4_ok (schedules_id_seq s) = true ->
  Service.post_schedules e s b = (Reply 201 (RowId id), s1) ->
  exists row s2,
    ServiceRest.get_schedules_id s1 id = (Reply 200 (ScheduleRow row), s1)
    /\ s_id row = id
    /\ s_user_id row = to_sql (sb_user_id b)
    /\ s_parking_lot_id row = to_sql (sb_parking_lot_id b)
    /\ s_spot_number row = to_sql (sb_spot_number b)
    /\ sb_start_time b = Val (s_start_time row)
    /\ sb_end_time b = Val (s_end_time row)
    /\ sb_date b = Val (s_date row)
    /\ s_status row = to_sql (sb_status b)
    /\ (forall u, s_user_id row = Some u -> Pg.int4_ok u = true ->
          exists mine,
            ServiceRest.get_schedules_user s1 u = (Answer 200 mine, s1)
            /\ In row mine)
    /\ Service.delete_schedules_id s1 id = (Reply 200 (RowId id), s2)
    /\ schedules s2 = schedules s
    /\ ServiceRest.get_schedules_id s2 id = (SendStatus 404, s2).
Proof.
  intros W I H. apply service_post_schedules_row in H.
  destruct H as (st & en & d & days & K & Hst & Hen & Hd & ->).
  pose proof (wf_fresh_schedule s W) as N. rewrite <- K in N, I.
  set (row := mk_schedule id (to_sql (sb_user_id b))
                (to_sql (sb_parking_lot_id b)) (to_sql (sb_spot_number b))
                st en d (to_sql (sb_is_recurring b))
                days (to_sql (sb_location b))
                (to_sql (sb_parking_lot b)) (to_sql (sb_status b))
                (now e) (now e)).
  set (s1 := set_schedules s (schedules s ++ [row])%list (schedules_id_seq s + 1)).
  assert (filter (fun x => s_id x =? s_id row) (schedules s1) = [row]) as F
    by (apply (filter_snoc_fresh s_id); exact N).
  assert (In row (schedules s1)) as M
    by (apply in_or_app; right; now left).
  assert (distinct Z.eqb (map s_id (schedules s1)) = true) as D.
  { apply (keys_ok_distinct (schedules_id_seq s + 1)).
    unfold s1. cbn [schedules set_schedules]. rewrite map_app. simpl map.
    change (s_id row) with id. rewrite K.
    apply keys_ok_snoc. now apply wf_schedules. }
  exists row,
    (set_schedules s1 (filter (fun r => negb (s_id r =? s_id row)) (schedules s1))
       (schedules_id_seq s1)).
  split; [exact (get_schedules_id_found s1 row I F)|].
  split; [reflexivity|]. split; [reflexivity|]. split; [reflexivity|].
  split; [reflexivity|]. split; [exact Hst|]. split; [exact Hen|].
  split; [exact Hd|]. split; [reflexivity|].
  split.
  { intros u Hu Iu. eexists. split; [now apply get_schedules_user_rows|].
    apply (Permutation_in _ (Permutation_sym (order_by_date_time_perm _))).
    apply filter_In. split; [exact M|].
    unfold of_user. rewrite Hu. apply Z.eqb_refl. }
  split; [exact (delete_schedules_id_present s1 row D M I)|].
  assert (filter (fun r => negb (s_id r =? s_id row)) (schedules s1)
          = schedules s) as G
    by (apply (filter_out_snoc_fresh s_id); exact N).
  split; [exact G|].
  apply get_schedules_id_missing; [exact I|].
  cbn [schedules set_schedules]. rewrite G. exact N.
Qed.

Lemma schedule_life_cycle_witness :
  exists row s2,
    let b := booking (hm 9 0) (hm 10 30) (Val "pending") in
    let s1 := snd (Service.post_schedules clock base b) in
    ServiceRest.get_schedules_id s1 1 = (Reply 200 (ScheduleRow row), s1)
    /\ s_id row = 1
    /\ s_user_id row = to_sql (sb_user_id b)
    /\ s_parking_lot_id row = to_sql (sb_parking_lot_id b)
    /\ s_spot_number row = to_sql (sb_spot_number b)
    /\ sb_start_time b = Val (s_start_time row)
    /\ sb_end_time b = Val (s_end_time row)
    /\ sb_date b = Val (s_date row)
    /\ s_status row = to_sql (sb_status b)
    /\ (forall u, s_user_id row = Some u -> Pg.int4_ok u = true ->
          exists mine,
            ServiceRest.get_schedules_user s1 u = (Answer 200 mine, s1)
            /\ In row mine)
    /\ Service.delete_schedules_id s1 1 = (Reply 200 (RowId 1), s2)
    /\ schedules s2 = schedules base
    /\ ServiceRest.get_schedules_id s2 1 = (SendStatus 404, s2).
Proof.
  exact (schedule_life_cycle clock base _
           (booking (hm 9 0) (hm 10 30) (Val "pending")) 1
           eq_refl eq_refl eq_refl).
Defined.

(* ================================================================== *)
(** * Issues *)
(* ================================================================== *)

Section IssueRows.

Import Issues.

Variables (e : env) (values : list sql_value) (q : update_query) (id : Z).

Lemma update_rows_none (l : list issue) :
  has_key i_id l id = false -> update_rows e values q id l = Done l.
Proof.
  induction l as [|a l IH]; simpl; intro H; [reflexivity|].
  apply orb_false_iff in H. destruct H as [Ha Hl].
  rewrite Ha. simpl. now rewrite (IH Hl).
Qed.

Lemma update_rows_one (l : list issue) (r r' : issue) :
  distinct Z.eqb (map i_id l) = true -> In r l -> i_id r = id ->
  update_row e values q r = Done r' ->
  update_rows e values q id l
  = Done (map (fun x => if i_id x =? id then r' else x) l).
Proof.
  intros D H K U. induction l as [|a l IH]; [contradiction|].
  simpl in D. apply andb_true_iff in D. destruct D as [Da Dl].
  apply negb_true_iff in Da. rewrite existsb_eqb_map in Da.
  simpl. destruct H as [->|H].
  - rewrite K, Z.eqb_refl, U. simpl.
    rewrite K in Da. rewrite (update_rows_none l Da). simpl.
    f_equal. f_equal. symmetry.
    transitivity (map (fun x : issue => x) l); [|apply map_id].
    apply map_ext_in. intros x Hx.
    destruct (i_id x =? id) eqn:E; [|reflexivity].
    apply Z.eqb_eq in E. rewrite <- E in Da.
    now rewrite (has_key_in i_id l x Hx) in Da.
  - assert ((i_id a =? id) = false) as E.
    { destruct (i_id a =? id) eqn:E; [|reflexivity].
      apply Z.eqb_eq in E. rewrite E, <- K in Da.
      now rewrite (has_key_in i_id l r H) in Da. }
    rewrite E. simpl. now rewrite (IH Dl H).
Qed.

Lemma update_rows_refused (l : list issue) (r : issue) (err : db_error) :
  In r l -> i_id r = id -> update_row e values q r = Raise err ->
  exists err', update_rows e values q id l = Raise err'.
Proof.
  intros H K U. induction l as [|a l IH]; [contradiction|].
  simpl. destruct H as [->|H].
  - rewrite K, Z.eqb_refl, U. simpl. eauto.
  - destruct (IH H) as [err' E]. rewrite E.
    destruct (if i_id a =? id then update_row e values q a else Done a);
      simpl; eauto.
Qed.

End IssueRows.

Lemma patch_issues_id_run (e : env) (t : Issues.table) (id : Z)
    (b : Issues.patch_body) :
  Issues.patch_issues_id e t id b
  = match Issues.run_update e t (fst (Issues.build_patch b id))
            (snd (Issues.build_patch b id)) with
    | (Done [], t') => (Refusal (Fail 404 "Issue not found" None), t')
    | (Done (row :: _), t') => (Answer 200 row, t')
    | (Raise err, t') =>
        (Refusal (Fail 500 "Failed to update issue" (Some err)), t')
    end.
Proof.
  unfold Issues.patch_issues_id. now destruct (Issues.build_patch b id).
Qed.

Lemma build_patch_parameters (b : Issues.patch_body) (id : Z) :
  Issues.parameters (fst (Issues.build_patch b id))
  = seq 1 (List.length (snd (Issues.build_patch b id)))
  /\ nth_error (snd (Issues.build_patch b id))
               (Issues.where_id (fst (Issues.build_patch b id)) - 1)
     = Some (Issues.VInt id).
Proof.
  case_patch b st; unfold Issues.build_patch; cbn;
    repeat match goal with
           | H : String.eqb _ _ = _ |- _ => rewrite H
           end; cbn; split; reflexivity.
Qed.

Lemma build_patch_coerce (b : Issues.patch_body) (id : Z) :
  (forall st, patch_status b = Some st -> (String.length st <=? 50)%nat = true) ->
  Issues.coerce_all (snd (Issues.build_patch b id))
    (Issues.updates (fst (Issues.build_patch b id))) = Done tt.
Proof.
  intro L.
  case_patch b st; unfold patch_status in L; cbn in L;
    repeat match goal with
           | H : String.eqb _ _ = _ |- _ => rewrite H in L
           end;
    unfold Issues.build_patch; cbn;
    repeat match goal with
           | H : String.eqb _ _ = _ |- _ => rewrite H
           end; cbn; try reflexivity;
    rewrite (L st eq_refl); reflexivity.
Qed.

Lemma build_patch_update_row (e : env) (b : Issues.patch_body) (id : Z)
    (r : Issues.issue) :
  Issues.update_row e (snd (Issues.build_patch b id))
    (fst (Issues.build_patch b id)) r
  = (guard (Pg.check_in Issues.issue_status_values (Issues.i_status (patched e b r)))
           (check_violation "issues_status_check") ;;;
     Done (patched e b r)).
Proof.
  case_patch b st; unfold Issues.update_row, patched, patch_status,
    Issues.build_patch; cbn;
    repeat match goal with
           | H : String.eqb _ _ = _ |- _ => rewrite H
           end; cbn; reflexivity.
Qed.

Lemma list_max_seq (n : nat) : list_max (seq 1 n) = n.
Proof.
  induction n as [|n IH]; [reflexivity|].
  rewrite seq_S, list_max_app, IH. simpl. lia.
Qed.

Lemma build_patch_statement (e : env) (t : Issues.table) (id : Z)
    (b : Issues.patch_body) :
  Issues.run_update e t (fst (Issues.build_patch b id))
    (snd (Issues.build_patch b id))
  = match (Pg.int4 (Some id) ;;;
           Issues.coerce_all (snd (Issues.build_patch b id))
             (Issues.updates (fst (Issues.build_patch b id))) ;;;
           Issues.update_rows e (snd (Issues.build_patch b id))
             (fst (Issues.build_patch b id)) id (Issues.issues t)) with
    | Raise err => (Raise err, t)
    | Done rows =>
        (Done (filter (fun r => Issues.i_id r =? id) rows),
         Issues.mk_table rows (Issues.issues_id_seq t))
    end.
Proof.
  unfold Issues.run_update.
  destruct (build_patch_parameters b id) as [P N].
  now rewrite P, N, list_max_seq, Nat.eqb_refl.
Qed.

Lemma build_patch_run (e : env) (t : Issues.table) (id : Z)
    (b : Issues.patch_body) :
  Pg.int4_ok id = true ->
  (forall st, patch_status b = Some st -> (String.length st <=? 50)%nat = true) ->
  Issues.run_update e t (fst (Issues.build_patch b id))
    (snd (Issues.build_patch b id))
  = match Issues.update_rows e (snd (Issues.build_patch b id))
            (fst (Issues.build_patch b id)) id (Issues.issues t) with
    | Raise err => (Raise err, t)
    | Done rows =>
        (Done (filter (fun r => Issues.i_id r =? id) rows),
         Issues.mk_table rows (Issues.issues_id_seq t))
    end.
Proof.
  intros I L. rewrite build_patch_statement, (build_patch_coerce b id L).
  unfold Pg.int4, bind. now rewrite I.
Qed.

Lemma allowed_status_fits (st : string) :
  Pg.check_in Issues.issue_status_values (Some st) = true ->
  (String.length st <=? 50)%nat = true.
Proof.
  unfold Pg.check_in, Issues.issue_status_values. simpl.
  rewrite !orb_true_iff, !String.eqb_eq.
  intros [->|[->|[->|[->|H]]]]; try reflexivity; discriminate.
Qed.

Lemma patched_id (e : env) (b : Issues.patch_body) (r : Issues.issue) :
  Issues.i_id (patched e b r) = Issues.i_id r.
Proof. reflexivity. Qed.

(** X14.  The query [PATCH /api/issues/:id] puts together is well formed
    for every body: its placeholders are [$1], ..., [$n] in this order
    with no gap, [n] being the number of values handed over, and the
    value of the last one, which the [WHERE] clause uses, is the id of
    the route. *)
Theorem patch_query_is_well_formed (b : Issues.patch_body) (id : Z) :
  Issues.parameters (fst (Issues.build_patch b id))
  = seq 1 (List.length (snd (Issues.build_patch b id)))
  /\ Issues.where_id (fst (Issues.build_patch b id))
     = List.length (snd (Issues.build_patch b id))
  /\ last (snd (Issues.build_patch b id)) (Issues.VInt 0) = Issues.VInt id
  /\ last (Issues.updates (fst (Issues.build_patch b id))) (Issues.Now "")
     = Issues.Now "updated_at".
Proof.
  case_patch b st; unfold Issues.build_patch; cbn;
    repeat match goal with
           | H : String.eqb _ _ = _ |- _ => rewrite H
           end; cbn; repeat split; reflexivity.
Qed.

(** The text of the query for a body that marks an issue read and
    resolved. *)
Lemma patch_query_text :
  Issues.query_text
    (fst (Issues.build_patch (Issues.mk_patch_body (Val true) (Val "resolved")) 7))
  = "UPDATE issues SET is_read = $1, status = $2, resolved_at = NOW(), updated_at = NOW() WHERE id = $3 RETURNING *".
Proof. reflexivity. Qed.

(** The row and the table a [PATCH] of a stored issue leaves. *)
Lemma patch_issues_id_stored (e : env) (t : Issues.table) (id : Z)
    (b : Issues.patch_body) (r : Issues.issue) :
  Issues.wf_table t = true -> In r (Issues.issues t) -> Issues.i_id r = id ->
  Pg.int4_ok id = true ->
  Pg.check_in Issues.issue_status_values (Issues.i_status (patched e b r)) = true ->
  Issues.patch_issues_id e t id b
  = (Answer 200 (patched e b r),
     Issues.mk_table
       (map (fun x => if Issues.i_id x =? id then patched e b r else x)
            (Issues.issues t))
       (Issues.issues_id_seq t)).
Proof.
  intros W H K I C.
  pose proof (keys_ok_distinct _ _ W) as D.
  assert (forall st, patch_status b = Some st ->
                     (String.length st <=? 50)%nat = true) as L.
  { intros st E. apply allowed_status_fits.
    unfold patched in C. cbn in C. now rewrite E in C. }
  rewrite patch_issues_id_run, (build_patch_run e t id b I L).
  rewrite (update_rows_one e _ _ id _ r (patched e b r) D H K).
  - rewrite (filter_map_replace Issues.i_id (patched e b r) _ id)
      by (rewrite patched_id; exact K).
    rewrite <- K. rewrite (distinct_filter_one Issues.i_id _ r D H).
    reflexivity.
  - rewrite build_patch_update_row, C. reflexivity.
Qed.

(** X15.  What [PATCH /api/issues/:id] does to a stored issue: with a
    status of the body that is empty, missing or one of the allowed ones
    the answer is 200 with the new row, in which [is_read] is the value
    of the body when the body has the property (also when it is
    [null]), the status is the one of the body when that is a non-empty
    string, [resolved_at] is set when and only when the body says
    [resolved] (a later status does not clear it), and [updated_at] is
    the time of the request, even for an empty body; no other issue
    changes. *)
Theorem patch_issues_id_effect (e : env) (t : Issues.table) (id : Z)
    (b : Issues.patch_body) (r : Issues.issue) :
  Issues.wf_table t = true -> In r (Issues.issues t) -> Issues.i_id r = id ->
  Pg.int4_ok id = true ->
  Pg.check_in Issues.issue_status_values (Issues.i_status (patched e b r)) = true ->
  Issues.patch_issues_id e t id b
  = (Answer 200 (patched e b r),
     Issues.mk_table
       (map (fun x => if Issues.i_id x =? id then patched e b r else x)
            (Issues.issues t))
       (Issues.issues_id_seq t)).
Proof. apply patch_issues_id_stored. Qed.

Lemma patch_issues_id_effect_witness :
  Issues.patch_issues_id clock inbox 1
    (Issues.mk_patch_body (Val true) (Val "resolved"))
  = (Answer 200
       (Issues.mk_issue 1 None "Max Wu" "Spot A40 is blocked" (Some "A40")
          (Some "resolved") (Some true) 28950000 (Some 29000000) 29000000),
     Issues.mk_table
       [Issues.mk_issue 1 None "Max Wu" "Spot A40 is blocked" (Some "A40")
          (Some "resolved") (Some true) 28950000 (Some 29000000) 29000000] 2).
Proof.
  exact (patch_issues_id_effect clock inbox 1
           (Issues.mk_patch_body (Val true) (Val "resolved")) blocked_spot
           eq_refl (or_introl eq_refl) eq_refl eq_refl eq_refl).
Defined.

(** X16.  [PATCH /api/issues/:id] with a status outside the four
    allowed ones is answered 500 for every stored issue, and the table is
    left as it was. *)
Theorem patch_issues_id_rejects_unknown_status (e : env) (t : Issues.table)
    (id : Z) (b : Issues.patch_body) (st : string) :
  has_key Issues.i_id (Issues.issues t) id = true ->
  patch_status b = Some st ->
  Pg.check_in Issues.issue_status_values (Some st) = false ->
  answer_code (fst (Issues.patch_issues_id e t id b)) = 500
  /\ snd (Issues.patch_issues_id e t id b) = t.
Proof.
  intros H E C.
  apply has_key_true_in in H. destruct H as (r & Hr & K).
  rewrite patch_issues_id_run, build_patch_statement.
  destruct (Pg.int4 (Some id)) as [v|err]; [|split; reflexivity].
  destruct (Issues.coerce_all _ _) as [u|err]; [|split; reflexivity].
  destruct (update_rows_refused e (snd (Issues.build_patch b id))
              (fst (Issues.build_patch b id)) id (Issues.issues t) r
              (check_violation "issues_status_check") Hr K) as [err' R].
  { rewrite build_patch_update_row. unfold patched. cbn. rewrite E.
    now rewrite C. }
  unfold bind. rewrite R. split; reflexivity.
Qed.

Lemma patch_issues_id_rejects_unknown_status_witness :
  answer_code (fst (Issues.patch_issues_id clock inbox 1
                      (Issues.mk_patch_body (Val true) (Val "done")))) = 500
  /\ snd (Issues.patch_issues_id clock inbox 1
            (Issues.mk_patch_body (Val true) (Val "done"))) = inbox.
Proof.
  exact (patch_issues_id_rejects_unknown_status clock inbox 1
           (Issues.mk_patch_body (Val true) (Val "done")) "done"
           eq_refl eq_refl eq_refl).
Defined.




Lemma delete_issues_id_present (t : Issues.table) (r : Issues.issue) :
  Pg.int4_ok (Issues.i_id r) = true ->
  filter (fun x => Issues.i_id x =? Issues.i_id r) (Issues.issues t) = [r] ->
  Issues.delete_issues_id t (Issues.i_id r)
  = (Answer 200 r,
     Issues.mk_table
       (filter (fun x => negb (Issues.i_id x =? Issues.i_id r)) (Issues.issues t))
       (Issues.issues_id_seq t)).
Proof.
  intros I F. unfold Issues.delete_issues_id, Issues.delete_from_issues, Pg.int4.
  now rewrite I, F.
Qed.

Lemma delete_issues_id_absent (t : Issues.table) (id : Z) :
  Pg.int4_ok id = true -> has_key Issues.i_id (Issues.issues t) id = false ->
  Issues.delete_issues_id t id = (Refusal (Fail 404 "Issue not found" None), t).
Proof.
  intros I H. unfold Issues.delete_issues_id, Issues.delete_from_issues, Pg.int4.
  rewrite I, (has_key_false_filter Issues.i_id _ _ H).
  rewrite (has_key_false_filter_out Issues.i_id _ _ H). now destruct t.
Qed.

Lemma patch_issues_id_absent (e : env) (t : Issues.table) (id : Z)
    (b : Issues.patch_body) :
  Pg.int4_ok id = true ->
  (forall st, patch_status b = Some st -> (String.length st <=? 50)%nat = true) ->
  has_key Issues.i_id (Issues.issues t) id = false ->
  Issues.patch_issues_id e t id b
  = (Refusal (Fail 404 "Issue not found" None), t).
Proof.
  intros I L H. rewrite patch_issues_id_run, (build_patch_run e t id b I L).
  rewrite (update_rows_none e _ _ id _ H).
  rewrite (has_key_false_filter Issues.i_id _ _ H). now destruct t.
Qed.

(** X18.  The life of an issue in [server.js]: an issue that was reported
    (201) can be marked read and resolved, which is answered 200 with
    the time of resolution set; its deletion returns the row as it then
    is and leaves the issues that were there before; from then on
    changing and deleting it are answered 404. *)
Theorem issue_life_cycle (e e' : env) (t t1 : Issues.table)
    (b : Issues.issue_body) (r : Issues.issue) :
  Issues.wf_table t = true -> Pg.int4_ok (Issues.issues_id_seq t) = true ->
  Issues.post_issues e t b = (Answer 201 r, t1) ->
  exists t2 t3,
    let done := Issues.mk_patch_body (Val true) (Val "resolved") in
    Issues.i_status r = Some "open" /\ Issues.i_is_read r = Some false
    /\ Issues.i_resolved_at r = None
    /\ Issues.patch_issues_id e' t1 (Issues.i_id r) done
       = (Answer 200 (patched e' done r), t2)
    /\ Issues.i_status (patched e' done r) = Some "resolved"
    /\ Issues.i_resolved_at (patched e' done r) = Some (now e')
    /\ Issues.delete_issues_id t2 (Issues.i_id r)
       = (Answer 200 (patched e' done r), t3)
    /\ Issues.issues t3 = Issues.issues t
    /\ Issues.patch_issues_id e' t3 (Issues.i_id r) done
       = (Refusal (Fail 404 "Issue not found" None), t3)
    /\ Issues.delete_issues_id t3 (Issues.i_id r)
       = (Refusal (Fail 404 "Issue not found" None), t3).
Proof.
  intros W I H.
  assert (exists n m spot,
            r = reported e t n m spot
            /\ t1 = Issues.mk_table (Issues.issues t ++ [r])%list
                      (Issues.issues_id_seq t + 1)) as R.
  { unfold Issues.post_issues, Issues.insert_into_issues, bind, guard,
      Pg.not_null in H.
    repeat (break_match_in H; try discriminate).
    injection H as <- <-. eexists _, _, _. split; reflexivity. }
  destruct R as (n & m & spot & -> & ->).
  set (r := reported e t n m spot).
  set (done := Issues.mk_patch_body (Val true) (Val "resolved")).
  pose proof (keys_ok_fresh Issues.i_id _ _ W) as N.
  change (Issues.issues_id_seq t) with (Issues.i_id r) in N, I.
  set (t1 := Issues.mk_table (Issues.issues t ++ [r])%list
               (Issues.issues_id_seq t + 1)).
  assert (Issues.wf_table t1 = true) as W1.
  { unfold Issues.wf_table, t1. cbn [Issues.issues Issues.issues_id_seq].
    rewrite map_app. apply keys_ok_snoc. exact W. }
  assert (In r (Issues.issues t1)) as M
    by (apply in_or_app; right; now left).
  set (t2 := Issues.mk_table
               (map (fun x => if Issues.i_id x =? Issues.i_id r
                              then patched e' done r else x) (Issues.issues t1))
               (Issues.issues_id_seq t1)).
  assert (filter (fun x => Issues.i_id x =? Issues.i_id r) (Issues.issues t2)
          = [patched e' done r]) as F.
  { unfold t2. cbn [Issues.issues].
    rewrite (filter_map_replace Issues.i_id (patched e' done r) _
               (Issues.i_id r) eq_refl).
    rewrite (distinct_filter_one Issues.i_id _ r (keys_ok_distinct _ _ W1) M).
    reflexivity. }
  assert (filter (fun x => negb (Issues.i_id x =? Issues.i_id r)) (Issues.issues t2)
          = Issues.issues t) as G.
  { unfold t2, t1. cbn [Issues.issues]. rewrite map_app. cbn [map].
    rewrite Z.eqb_refl.
    replace (map _ (Issues.issues t)) with (Issues.issues t).
    - apply (filter_out_snoc_fresh Issues.i_id _ (patched e' done r)). exact N.
    - transitivity (map (fun x : Issues.issue => x) (Issues.issues t));
        [symmetry; apply map_id|].
      apply map_ext_in. intros x Hx.
      destruct (Issues.i_id x =? Issues.i_id r) eqn:E; [|reflexivity].
      apply Z.eqb_eq in E. rewrite <- E in N.
      now rewrite (has_key_in Issues.i_id _ x Hx) in N. }
  exists t2,
    (Issues.mk_table
       (filter (fun x => negb (Issues.i_id x =? Issues.i_id r)) (Issues.issues t2))
       (Issues.issues_id_seq t2)).
  cbv zeta.
  split; [reflexivity|]. split; [reflexivity|]. split; [reflexivity|].
  split.
  { exact (patch_issues_id_stored e' t1 (Issues.i_id r) done r W1 M eq_refl I
             eq_refl). }
  split; [reflexivity|]. split; [reflexivity|].
  split.
  { exact (delete_issues_id_present t2 (patched e' done r) I F). }
  split; [exact G|].
  assert (has_key Issues.i_id
            (filter (fun x => negb (Issues.i_id x =? Issues.i_id r))
                    (Issues.issues t2)) (Issues.i_id r) = false) as K
    by apply has_key_filter_out.
  split.
  - apply patch_issues_id_absent; [exact I| |exact K].
    intros st E. injection E as <-. reflexivity.
  - apply delete_issues_id_absent; [exact I|exact K].
Qed.

Lemma issue_life_cycle_witness :
  exists t2 t3,
    let r := reported clock inbox "Max Wu" "Blocked" (Some "A40") in
    let done := Issues.mk_patch_body (Val true) (Val "resolved") in
    Issues.i_status r = Some "open" /\ Issues.i_is_read r = Some false
    /\ Issues.i_resolved_at r = None
    /\ Issues.patch_issues_id clock
         (Issues.mk_table (Issues.issues inbox ++ [r])%list 3) 2 done
       = (Answer 200 (patched clock done r), t2)
    /\ Issues.i_status (patched clock done r) = Some "resolved"
    /\ Issues.i_resolved_at (patched clock done r) = Some (now clock)
    /\ Issues.delete_issues_id t2 2 = (Answer 200 (patched clock done r), t3)
    /\ Issues.issues t3 = Issues.issues inbox
    /\ Issues.patch_issues_id clock t3 2 done
       = (Refusal (Fail 404 "Issue not found" None), t3)
    /\ Issues.delete_issues_id t3 2
       = (Refusal (Fail 404 "Issue not found" None), t3).
Proof.
  exact (issue_life_cycle clock clock inbox
           (Issues.mk_table
              (Issues.issues inbox
               ++ [reported clock inbox "Max Wu" "Blocked" (Some "A40")])%list 3)
           (Issues.mk_issue_body (Val "Max Wu") (Val "Blocked") (Val "A40"))
           (reported clock inbox "Max Wu" "Blocked" (Some "A40"))
           eq_refl eq_refl eq_refl).
Defined.

(* ================================================================== *)
(** * Invariants of the store *)
(* ================================================================== *)

Lemma references_keys {R} (key : R -> Z) (t t' : list R) (v : option Z) :
  map key t = map key t' -> references key t v = references key t' v.
Proof.
  intro E. destruct v as [k|]; [|reflexivity]. simpl.
  change (has_key key t k = has_key key t' k).
  now rewrite <- !existsb_eqb_map, E.
Qed.

Lemma references_app {R} (key : R -> Z) (t x : list R) (v : option Z) :
  references key t v = true -> references key (t ++ x) v = true.
Proof.
  destruct v as [k|]; simpl; [|auto]. rewrite existsb_app. now intros ->.
Qed.

Lemma fk_ok_tables (s s' : store) :
  (forall v, references u_id (users s) v = true ->
             references u_id (users s') v = true) ->
  (forall v, references l_id (parking_lots s) v = true ->
             references l_id (parking_lots s') v = true) ->
  schedules s' = schedules s -> fk_ok s = true -> fk_ok s' = true.
Proof.
  unfold fk_ok. intros U L ->. rewrite !forallb_forall. intros F r Hr.
  specialize (F r Hr). apply andb_true_iff in F. destruct F.
  apply andb_true_iff. split; auto.
Qed.

Lemma fk_ok_users_keys (s : store) (us : list user) (next : Z) :
  map u_id us = map u_id (users s) -> fk_ok s = true ->
  fk_ok (set_users s us next) = true.
Proof.
  intros E. apply fk_ok_tables; simpl; auto.
  intros v. now rewrite (references_keys u_id us (users s) v E).
Qed.

Lemma fk_ok_lots_keys (s : store) (ls : list parking_lot) (next : Z) :
  map l_id ls = map l_id (parking_lots s) -> fk_ok s = true ->
  fk_ok (set_parking_lots s ls next) = true.
Proof.
  intros E. apply fk_ok_tables; simpl; auto.
  intros v. now rewrite (references_keys l_id ls (parking_lots s) v E).
Qed.

Lemma fk_ok_users_snoc (s : store) (u : user) (next : Z) :
  fk_ok s = true -> fk_ok (set_users s (users s ++ [u]) next) = true.
Proof. apply fk_ok_tables; simpl; auto. intro v. apply references_app. Qed.

Lemma fk_ok_lots_snoc (s : store) (l : parking_lot) (next : Z) :
  fk_ok s = true -> fk_ok (set_parking_lots s (parking_lots s ++ [l]) next) = true.
Proof. apply fk_ok_tables; simpl; auto. intro v. apply references_app. Qed.

Lemma insert_into_parking_lots_fk (e : env) (s : store)
    (name : option string) (rows cols : option Z)
    (spaces merged_aisles : option json) :
  fk_ok s = true ->
  fk_ok (snd (insert_into_parking_lots e s name rows cols spaces merged_aisles))
  = true.
Proof.
  intro F. unfold insert_into_parking_lots, bind, guard, Pg.not_null.
  repeat (break_match; try discriminate); simpl snd; try exact F;
    try (now apply fk_ok_lots_snoc); now apply fk_ok_lots_keys.
Qed.

Lemma update_parking_lots_fk (e : env) (s : store) (id : Z)
    (name : option string) (rows cols : option Z)
    (spaces merged_aisles : option json) :
  fk_ok s = true ->
  fk_ok (snd (update_parking_lots e s id name rows cols spaces merged_aisles))
  = true.
Proof.
  intro F. unfold update_parking_lots, bind, Pg.not_null.
  repeat (break_match; try discriminate); simpl snd; try exact F.
  apply fk_ok_lots_keys; [|exact F]. now rewrite map_key_update.
Qed.

Lemma insert_into_users_fk (e : env) (s : store)
    (name email phone hash role department status avatar : option string) :
  fk_ok s = true ->
  fk_ok (snd (insert_into_users e s name email phone hash role department
                status avatar)) = true.
Proof.
  intro F. unfold insert_into_users, bind, guard, Pg.not_null.
  repeat (break_match; try discriminate); simpl snd; try exact F;
    try (now apply fk_ok_users_snoc); now apply fk_ok_users_keys.
Qed.

Lemma update_users_fk (e : env) (s : store) (id : Z)
    (name email phone role department status avatar : option string) :
  fk_ok s = true ->
  fk_ok (snd (update_users e s id name email phone role department status
                avatar)) = true.
Proof.
  intro F. unfold update_users, bind, guard, Pg.not_null.
  repeat (break_match; try discriminate); simpl snd; try exact F.
  all: apply fk_ok_users_keys; [|exact F]; now rewrite map_key_update.
Qed.

Lemma insert_into_schedules_fk (e : env) (s : store)
    (user_id parking_lot_id : option Z) (spot_number : option string)
    (start_time end_time date : option Z) (location parking_lot : option string)
    (is_recurring : option bool) (recurring_days : option json)
    (status : option string) :
  fk_ok s = true ->
  fk_ok (snd (insert_into_schedules e s user_id parking_lot_id spot_number
                start_time end_time date location parking_lot is_recurring
                recurring_days status)) = true.
Proof.
  intro F. unfold insert_into_schedules, bind, guard, Pg.not_null.
  repeat (break_match; try discriminate); simpl snd; try exact F.
  all: unfold fk_ok; cbn [users parking_lots schedules set_schedules].
  all: rewrite forallb_app; fold (fk_ok s); rewrite F; simpl.
  all: repeat match goal with
              | X : ?c = true |- context [?c] => rewrite X
              end; reflexivity.
Qed.

Lemma delete_from_schedules_fk (s : store) (id : Z) :
  fk_ok s = true -> fk_ok (snd (delete_from_schedules s id)) = true.
Proof.
  intro F. unfold delete_from_schedules.
  break_match; simpl snd; [|exact F].
  unfold fk_ok in *. cbn [users parking_lots schedules set_schedules].
  rewrite forallb_forall in *. intros r Hr. apply filter_In in Hr.
  apply F. tauto.
Qed.

Lemma update_schedules_fk (e : env) (s : store) (id : Z)
    (user_id parking_lot_id : option Z) (spot_number : option string)
    (start_time end_time date : option Z)
    (location parking_lot : option string)
    (is_recurring : option bool) (recurring_days : option json)
    (status : option string) :
  fk_ok s = true ->
  fk_ok (snd (update_schedules e s id user_id parking_lot_id spot_number
                start_time end_time date location parking_lot is_recurring
                recurring_days status)) = true.
Proof.
  intro F. unfold update_schedules, bind, guard, Pg.not_null.
  repeat (break_match; try discriminate); simpl snd; try exact F.
  all: unfold fk_ok in *; cbn [users parking_lots schedules set_schedules].
  all: rewrite forallb_forall in *; intros r Hr; apply in_map_iff in Hr.
  all: destruct Hr as (r0 & <- & Hr0).
  all: destruct (s_id r0 =? id); [|now apply F].
  all: cbn [s_user_id s_parking_lot_id].
  all: repeat match goal with
              | X : ?c = true |- context [?c] => rewrite X
              end; reflexivity.
Qed.

Lemma update_schedules_wf (e : env) (s : store) (id : Z)
    (user_id parking_lot_id : option Z) (spot_number : option string)
    (start_time end_time date : option Z)
    (location parking_lot : option string)
    (is_recurring : option bool) (recurring_days : option json)
    (status : option string) :
  wf s = true ->
  wf (snd (update_schedules e s id user_id parking_lot_id spot_number
             start_time end_time date location parking_lot is_recurring
             recurring_days status)) = true.
Proof.
  intro W. unfold update_schedules, bind, guard, Pg.not_null.
  repeat (break_match; try discriminate); simpl snd; try exact W.
  all: apply wf_set_schedules; [exact W|].
  all: rewrite map_key_update; [now apply wf_schedules|reflexivity].
Qed.

Section UniqueColumn.

Context {R : Type} (key : R -> Z) (name : R -> string).

Lemma existsb_eqb_name (l : list R) (m : string) :
  existsb (String.eqb m) (map name l)
  = existsb (fun r => String.eqb (name r) m) l.
Proof.
  induction l as [|a l IH]; simpl; [reflexivity|].
  now rewrite IH, (String.eqb_sym m).
Qed.

(** Overwriting the rows under one key with rows of one name keeps the
    names distinct when no row under another key has that name. *)
Lemma distinct_name_update (l : list R) (id : Z) (m : string) (upd : R -> R) :
  (forall u, name (upd u) = m) ->
  distinct Z.eqb (map key l) = true ->
  distinct String.eqb (map name l) = true ->
  existsb (fun u => String.eqb (name u) m && negb (key u =? id)) l = false ->
  distinct String.eqb
    (map name (map (fun u => if key u =? id then upd u else u) l)) = true.
Proof.
  intro U. induction l as [|a l IH]; [reflexivity|].
  intros Di De G. simpl in Di, De, G.
  apply andb_true_iff in Di. destruct Di as [Da Dl].
  apply andb_true_iff in De. destruct De as [Ea El].
  apply orb_false_iff in G. destruct G as [Ga Gl].
  apply negb_true_iff in Da, Ea. rewrite existsb_eqb_map in Da.
  cbn [map distinct]. apply andb_true_iff. split; [|now apply IH].
  apply negb_true_iff.
  match goal with |- ?x = false => destruct x eqn:X; [|reflexivity] end.
  exfalso. apply existsb_exists in X. destruct X as (k & Hk & Ek).
  apply String.eqb_eq in Ek.
  apply in_map_iff in Hk. destruct Hk as (y & <- & Hy).
  apply in_map_iff in Hy. destruct Hy as (x & <- & Hx).
  assert (forall z, In z l -> String.eqb (name z) m = true -> key z = id)
    as Only.
  { intros z Hz Ez.
    assert (String.eqb (name z) m && negb (key z =? id) = false) as Q.
    { destruct (String.eqb (name z) m && negb (key z =? id)) eqn:Q;
        [|reflexivity].
      assert (existsb (fun u => String.eqb (name u) m && negb (key u =? id)) l
              = true) as T by (apply existsb_exists; eauto).
      now rewrite T in Gl. }
    rewrite Ez in Q. simpl in Q. apply negb_false_iff in Q.
    now apply Z.eqb_eq. }
  assert (existsb (String.eqb (name a)) (map name l) = true -> False) as NoA
    by (rewrite Ea; discriminate).
  destruct (key a =? id) eqn:Ka; destruct (key x =? id) eqn:Kx.
  - apply Z.eqb_eq in Ka, Kx. rewrite <- Kx in Ka.
    rewrite Ka in Da. now rewrite (has_key_in key l x Hx) in Da.
  - rewrite U in Ek.
    assert (key x = id) as Q
      by (apply Only; [exact Hx|apply String.eqb_eq; now symmetry]).
    apply Z.eqb_neq in Kx. contradiction.
  - rewrite U in Ek. rewrite <- Ek, String.eqb_refl in Ga. simpl in Ga.
    discriminate.
  - apply NoA. apply existsb_exists. exists (name x).
    split; [now apply in_map|]. now apply String.eqb_eq.
Qed.

Lemma distinct_name_filter (p : R -> bool) (l : list R) :
  distinct String.eqb (map name l) = true ->
  distinct String.eqb (map name (filter p l)) = true.
Proof.
  induction l as [|a l IH]; simpl; [auto|].
  intro D. apply andb_true_iff in D. destruct D as [Da Dl].
  destruct (p a); simpl; [|now apply IH].
  rewrite (IH Dl), andb_true_r.
  apply negb_true_iff in Da. apply negb_true_iff.
  destruct (existsb (String.eqb (name a)) (map name (filter p l))) eqn:X;
    [|reflexivity].
  apply existsb_exists in X. destruct X as (k & Hk & Ek).
  apply in_map_iff in Hk. destruct Hk as (y & <- & Hy).
  apply filter_In in Hy. destruct Hy as [Hy _].
  assert (existsb (String.eqb (name a)) (map name l) = true) as T
    by (apply existsb_exists; exists (name y); split; [now apply in_map|exact Ek]).
  now rewrite T in Da.
Qed.

End UniqueColumn.

Lemma update_users_wf (e : env) (s : store) (id : Z)
    (name email phone role department status avatar : option string) :
  wf s = true ->
  wf (snd (update_users e s id name email phone role department status
             avatar)) = true.
Proof.
  intro W. unfold update_users, bind, guard, Pg.not_null.
  repeat (break_match; try discriminate); simpl snd; try exact W.
  all: apply wf_set_users; [exact W| |].
  all: try (rewrite map_key_update; [now apply wf_users|reflexivity]).
  all: match goal with
       | X : negb (existsb (fun u => String.eqb (u_email u) ?m && _) _) = true
         |- _ =>
           apply negb_true_iff in X;
           eapply (distinct_name_update u_id u_email _ _ m);
           [ intro u; reflexivity
           | exact (keys_ok_distinct _ _ (wf_users s W))
           | exact (wf_emails s W)
           | exact X ]
       end.
Qed.

Lemma delete_from_parking_lots_wf (e : env) (s : store) (id : Z) :
  wf s = true -> wf (snd (delete_from_parking_lots e s id)) = true.
Proof.
  intro W. unfold delete_from_parking_lots.
  repeat break_match; simpl snd; try exact W. now apply without_lot_wf.
Qed.

Lemma delete_from_parking_lots_fk (e : env) (s : store) (id : Z) :
  fk_ok s = true -> fk_ok (snd (delete_from_parking_lots e s id)) = true.
Proof.
  intro F. unfold delete_from_parking_lots.
  repeat break_match; simpl snd; try exact F. now apply without_lot_fk_ok.
Qed.

(** A property of the store that every statement keeps is kept by every
    request. *)
Section Preserved.

Variable P : store -> Prop.

Hypothesis insert_lot : forall e s a b c d f,
  P s -> P (snd (insert_into_parking_lots e s a b c d f)).
Hypothesis update_lot : forall e s i a b c d f,
  P s -> P (snd (update_parking_lots e s i a b c d f)).
Hypothesis delete_lot : forall e s i,
  P s -> P (snd (delete_from_parking_lots e s i)).
Hypothesis insert_schedule : forall e s a b c d f g h i j k l,
  P s -> P (snd (insert_into_schedules e s a b c d f g h i j k l)).
Hypothesis update_schedule : forall e s n a b c d f g h i j k l,
  P s -> P (snd (update_schedules e s n a b c d f g h i j k l)).
Hypothesis delete_schedule : forall s i,
  P s -> P (snd (delete_from_schedules s i)).
Hypothesis insert_user : forall e s a b c d f g h i,
  P s -> P (snd (insert_into_users e s a b c d f g h i)).
Hypothesis update_user : forall e s n a b c d f g h,
  P s -> P (snd (update_users e s n a b c d f g h)).

Lemma handle_preserves (e : env) (s : store) (r : request) :
  P s -> P (snd (handle e s r)).
Proof.
  intro W. destruct r; unfold handle.
  - unfold Server.post_parking_lots.
    destruct (_ || _); [exact W|].
    match goal with
    | |- context [insert_into_parking_lots ?e ?s ?a ?b ?c ?d ?f] =>
        pose proof (insert_lot e s a b c d f W) as Q
    end.
    case_insert_lot row err s1 X; exact Q.
  - unfold Server.put_parking_lots_id.
    match goal with
    | |- context [update_parking_lots ?e ?s ?i ?a ?b ?c ?d ?f] =>
        pose proof (update_lot e s i a b c d f W) as Q
    end.
    case_update_lot rows err s1 X; [destruct rows|]; exact Q.
  - unfold Server.post_schedules.
    match goal with
    | |- context [insert_into_schedules ?e ?s ?a ?b ?c ?d ?f ?g ?h ?i ?j ?k ?l] =>
        pose proof (insert_schedule e s a b c d f g h i j k l W) as Q
    end.
    case_insert_schedule row err s1 X; exact Q.
  - unfold Service.get_users_id. destruct (_ ;;; _); exact W.
  - unfold Service.post_users.
    destruct (_ || _); [exact W|].
    destruct (_ <- _ ;; _) as [[i|]|]; try exact W.
    destruct (PgPromise.prepare _ _); [|exact W].
    match goal with
    | |- context [insert_into_users ?e ?s ?a ?b ?c ?d ?f ?g ?h ?i] =>
        pose proof (insert_user e s a b c d f g h i W) as Q;
        destruct (insert_into_users e s a b c d f g h i) as [[row|err] s1]
    end; exact Q.
  - now rewrite delete_users_id_always_fails.
  - unfold Service.post_parking_lots.
    destruct (PgPromise.prepare _ _); cbn [bind]; [|exact W].
    case_json_columns spaces merged_aisles J; [|exact W].
    match goal with
    | |- context [insert_into_parking_lots ?e ?s ?a ?b ?c ?d ?f] =>
        pose proof (insert_lot e s a b c d f W) as Q
    end.
    case_insert_lot row err s1 X; exact Q.
  - unfold Service.put_parking_lots_id.
    destruct (PgPromise.prepare _ _); cbn [bind]; [|exact W].
    case_json_columns spaces merged_aisles J; [|exact W].
    match goal with
    | |- context [update_parking_lots ?e ?s ?i ?a ?b ?c ?d ?f] =>
        pose proof (update_lot e s i a b c d f W) as Q
    end.
    case_update_lot rows err s1 X; [|exact Q].
    destruct (PgPromise.oneOrNone rows); exact Q.
  - unfold Service.post_schedules.
    destruct (PgPromise.prepare _ _); cbn [bind]; [|exact W].
    case_as_jsonb days J; [|exact W].
    match goal with
    | |- context [insert_into_schedules ?e ?s ?a ?b ?c ?d ?f ?g ?h ?i ?j ?k ?l] =>
        pose proof (insert_schedule e s a b c d f g h i j k l W) as Q
    end.
    case_insert_schedule row err s1 X; exact Q.
  - unfold Service.delete_schedules_id.
    destruct (PgPromise.prepare _ _); [|exact W].
    pose proof (delete_schedule s id W) as Q.
    destruct (delete_from_schedules s id) as [[rows|err] s1]; [|exact Q].
    destruct (PgPromise.oneOrNone rows); exact Q.
Qed.

Lemma perform_preserves (e : env) (s : store) (o : operation) :
  P s -> P (perform e s o).
Proof.
  intro W. destruct o as [r|id b|id|id|id b]; unfold perform.
  - now apply handle_preserves.
  - rewrite put_users_id_rows.
    destruct (user_update_complete b); [|exact W].
    match goal with
    | |- context [update_users ?e ?s ?n ?a ?b ?c ?d ?f ?g ?h] =>
        pose proof (update_user e s n a b c d f g h W) as Q;
        destruct (update_users e s n a b c d f g h) as [[rows|err] s1]
    end; [|exact Q].
    destruct (PgPromise.oneOrNone rows) as [[w|]|]; exact Q.
  - unfold ServerRest.delete_parking_lots_id.
    pose proof (delete_lot e s id W) as Q.
    destruct (delete_from_parking_lots e s id) as [[[|row rows]|err] s1]; exact Q.
  - rewrite service_delete_parking_lots_id_rows.
    pose proof (delete_lot e s id W) as Q.
    destruct (delete_from_parking_lots e s id) as [[rows|err] s1]; [|exact Q].
    destruct (PgPromise.oneOrNone rows); exact Q.
  - rewrite put_schedules_id_rows.
    destruct (schedule_complete b); [|exact W].
    destruct (PgPromise.as_jsonb _) as [days|]; [|exact W].
    match goal with
    | |- context [update_schedules ?e ?s ?n ?a ?b ?c ?d ?f ?g ?h ?i ?j ?k ?l] =>
        pose proof (update_schedule e s n a b c d f g h i j k l W) as Q;
        destruct (update_schedules e s n a b c d f g h i j k l)
          as [[rows|err] s1]
    end; [|exact Q].
    destruct (PgPromise.oneOrNone rows); exact Q.
Qed.

End Preserved.

(** X19.  The invariants hold in every store that the requests of
    [operation] make of an empty database: the requests of the
    pg-promise service that write users, parking lots or schedules, and
    those of [server.js] that write parking lots or schedules (its two
    user routes are not among them).  In each such store primary keys
    are distinct and below their sequences, no two users share an e-mail
    address, and every schedule refers to a stored user and a stored
    lot, or to none. *)
Theorem attainable_stores_are_consistent (s : store) :
  attainable s -> wf s = true /\ fk_ok s = true.
Proof.
  induction 1 as [|e s o _ [W F]]; [split; reflexivity|].
  split.
  - apply (perform_preserves (fun s => wf s = true)); try exact W.
    + intros. now apply insert_into_parking_lots_wf.
    + intros. now apply update_parking_lots_wf.
    + intros. now apply delete_from_parking_lots_wf.
    + intros. now apply insert_into_schedules_wf.
    + intros. now apply update_schedules_wf.
    + intros. now apply delete_from_schedules_wf.
    + intros. now apply insert_into_users_wf.
    + intros. now apply update_users_wf.
  - apply (perform_preserves (fun s => fk_ok s = true)); try exact F.
    + intros. now apply insert_into_parking_lots_fk.
    + intros. now apply update_parking_lots_fk.
    + intros. now apply delete_from_parking_lots_fk.
    + intros. now apply insert_into_schedules_fk.
    + intros. now apply update_schedules_fk.
    + intros. now apply delete_from_schedules_fk.
    + intros. now apply insert_into_users_fk.
    + intros. now apply update_users_fk.
Qed.

Lemma attainable_stores_are_consistent_witness :
  wf (perform clock
        (perform clock empty_store
           (Routed (PostUsers (new_user "Simon T" "Simon.T@Calvin.edu"))))
        (PutUsersId 1 (rename "Max.Wu@Calvin.edu"))) = true
  /\ fk_ok (perform clock
              (perform clock empty_store
                 (Routed (PostUsers (new_user "Simon T" "Simon.T@Calvin.edu"))))
              (PutUsersId 1 (rename "Max.Wu@Calvin.edu"))) = true.
Proof.
  exact (attainable_stores_are_consistent _
           (attainable_step clock _ (PutUsersId 1 (rename "Max.Wu@Calvin.edu"))
              (attainable_step clock _
                 (Routed (PostUsers (new_user "Simon T" "Simon.T@Calvin.edu")))
                 attainable_empty))).
Defined.

(* ================================================================== *)
(** * Issues in the pg-promise service *)
(* ================================================================== *)

Lemma prepare_select_issue :
  PgPromise.prepare ServiceIssues.sql_select_issue Service.params = Done tt.
Proof. vm_compute. reflexivity. Qed.

Lemma prepare_mark_issue_read :
  PgPromise.prepare ServiceIssues.sql_mark_issue_read Service.params = Done tt.
Proof. vm_compute. reflexivity. Qed.

Lemma prepare_insert_issue (has : string -> bool) :
  PgPromise.prepare ServiceIssues.sql_insert_issue has
  = match find (fun n => negb (has n))
            ["user_id"; "user_name"; "message"; "spot_number"; "status";
             "is_read"] with
    | Some n => Raise (property_missing n)
    | None => Done tt
    end.
Proof. vm_compute. reflexivity. Qed.

Lemma prepare_update_issue (has : string -> bool) :
  PgPromise.prepare ServiceIssues.sql_update_issue (Service.id_and_body has)
  = match find (fun n => negb (Service.id_and_body has n))
            ["body.status"; "body.is_read"; "body.resolved_at"; "id"] with
    | Some n => Raise (property_missing n)
    | None => Done tt
    end.
Proof. vm_compute. reflexivity. Qed.

Lemma prepare_insert_issue_cases (b : ServiceIssues.new_issue_body) :
  (issue_complete b = true
   /\ PgPromise.prepare ServiceIssues.sql_insert_issue
        (ServiceIssues.new_issue_props b) = Done tt)
  \/ (issue_complete b = false
      /\ exists n,
           PgPromise.prepare ServiceIssues.sql_insert_issue
             (ServiceIssues.new_issue_props b)
           = Raise (property_missing n)).
Proof.
  rewrite prepare_insert_issue.
  unfold issue_complete, ServiceIssues.new_issue_props, PgPromise.has_own.
  simpl.
  repeat match goal with
         | |- context [present ?f] =>
             destruct (present f); simpl;
             [|right; split; [reflexivity|eexists; reflexivity]]
         end.
  left. split; reflexivity.
Qed.

Lemma prepare_update_issue_cases (b : ServiceIssues.issue_change_body) :
  (issue_change_complete b = true
   /\ PgPromise.prepare ServiceIssues.sql_update_issue
        (Service.id_and_body (ServiceIssues.issue_change_props b)) = Done tt)
  \/ (issue_change_complete b = false
      /\ exists n,
           PgPromise.prepare ServiceIssues.sql_update_issue
             (Service.id_and_body (ServiceIssues.issue_change_props b))
           = Raise (property_missing n)).
Proof.
  rewrite prepare_update_issue.
  unfold issue_change_complete, ServiceIssues.issue_change_props,
    Service.id_and_body, PgPromise.nested, PgPromise.has_own.
  simpl.
  repeat match goal with
         | |- context [present ?f] =>
             destruct (present f); simpl;
             [|right; split; [reflexivity|eexists; reflexivity]]
         end.
  left. split; reflexivity.
Qed.

Lemma service_get_issues_id_found (t : Issues.table) (r : Issues.issue) :
  Pg.int4_ok (Issues.i_id r) = true ->
  filter (fun x => Issues.i_id x =? Issues.i_id r) (Issues.issues t) = [r] ->
  ServiceIssues.get_issues_id t (Issues.i_id r) = (Answer 200 r, t).
Proof.
  intros I F. unfold ServiceIssues.get_issues_id.
  rewrite prepare_select_issue.
  unfold ServiceIssues.select_issues_by_id, bind, Pg.int4. now rewrite I, F.
Qed.

Lemma patch_issues_id_read_rows (e : env) (t : Issues.table) (id : Z) :
  Pg.int4_ok id = true ->
  ServiceIssues.patch_issues_id_read e t id
  = match PgPromise.oneOrNone
            (map Issues.i_id
               (filter (fun r => Issues.i_id r =? id)
                  (map (fun r => if Issues.i_id r =? id
                                 then ServiceIssues.read e r else r)
                       (Issues.issues t)))) with
    | Done data =>
        (Service.returnDataOr404 (option_map RowId data),
         Issues.mk_table
           (map (fun r => if Issues.i_id r =? id
                          then ServiceIssues.read e r else r) (Issues.issues t))
           (Issues.issues_id_seq t))
    | Raise _ =>
        (Service.handleError true,
         Issues.mk_table
           (map (fun r => if Issues.i_id r =? id
                          then ServiceIssues.read e r else r) (Issues.issues t))
           (Issues.issues_id_seq t))
    end.
Proof.
  intro I. unfold ServiceIssues.patch_issues_id_read.
  rewrite prepare_mark_issue_read.
  unfold ServiceIssues.update_issues_read, Pg.int4. now rewrite I.
Qed.

Lemma map_idempotent_update {R} (key : R -> Z) (upd : R -> R) (l : list R)
    (k : Z) :
  (forall r, key (upd r) = key r) -> (forall r, upd (upd r) = upd r) ->
  map (fun r => if key r =? k then upd r else r)
      (map (fun r => if key r =? k then upd r else r) l)
  = map (fun r => if key r =? k then upd r else r) l.
Proof.
  intros K U. rewrite map_map. apply map_ext. intro r.
  destruct (key r =? k) eqn:E; [|now rewrite E].
  now rewrite K, E, U.
Qed.

(** X20.  Marking an issue read in the service: for a stored issue
    [PATCH /api/issues/:id/read] answers 200 with the id; the issue read
    back is the old row with [is_read] true and a new [updated_at]; the
    list of unread issues loses this issue and no other, and stays in
    the order newest first; marking it once more, at the same time,
    changes nothing. *)
Theorem mark_read_leaves_unread_list (e : env) (t : Issues.table)
    (r : Issues.issue) :
  Issues.wf_table t = true -> In r (Issues.issues t) ->
  Pg.int4_ok (Issues.i_id r) = true ->
  exists t',
    ServiceIssues.patch_issues_id_read e t (Issues.i_id r)
    = (Reply 200 (RowId (Issues.i_id r)), t')
    /\ ServiceIssues.get_issues_id t' (Issues.i_id r)
       = (Answer 200 (ServiceIssues.read e r), t')
    /\ (forall x, In x (ServiceIssues.select_unread_issues t')
                  <-> In x (ServiceIssues.select_unread_issues t)
                      /\ Issues.i_id x <> Issues.i_id r)
    /\ StronglySorted (fun a b => ServiceIssues.newest_first a b = true)
         (ServiceIssues.select_unread_issues t')
    /\ ServiceIssues.patch_issues_id_read e t' (Issues.i_id r)
       = (Reply 200 (RowId (Issues.i_id r)), t').
Proof.
  intros W H I.
  pose proof (keys_ok_distinct _ _ W) as D.
  set (f := fun x => if Issues.i_id x =? Issues.i_id r
                     then ServiceIssues.read e x else x).
  set (t' := Issues.mk_table (map f (Issues.issues t)) (Issues.issues_id_seq t)).
  assert (filter (fun x => Issues.i_id x =? Issues.i_id r) (map f (Issues.issues t))
          = [ServiceIssues.read e r]) as F.
  { unfold f. rewrite (filter_map_update Issues.i_id (ServiceIssues.read e))
      by reflexivity.
    now rewrite (distinct_filter_one Issues.i_id _ r D H). }
  exists t'. split; [|split; [|split; [|split]]].
  - rewrite (patch_issues_id_read_rows e t _ I). fold f. rewrite F. reflexivity.
  - apply (service_get_issues_id_found t' (ServiceIssues.read e r) I). exact F.
  - intro x. unfold ServiceIssues.select_unread_issues.
    split.
    + intro Hx. apply (Permutation_in _ (order_by_perm _ _)) in Hx.
      apply filter_In in Hx. destruct Hx as [Hx Ux].
      unfold t' in Hx. cbn [Issues.issues] in Hx.
      apply in_map_iff in Hx. destruct Hx as (y & <- & Hy).
      unfold f in *. destruct (Issues.i_id y =? Issues.i_id r) eqn:E;
        [discriminate|].
      split; [|now apply Z.eqb_neq].
      apply (Permutation_in _ (Permutation_sym (order_by_perm _ _))).
      apply filter_In. now split.
    + intros [Hx N]. apply (Permutation_in _ (order_by_perm _ _)) in Hx.
      apply filter_In in Hx. destruct Hx as [Hx Ux].
      apply (Permutation_in _ (Permutation_sym (order_by_perm _ _))).
      apply filter_In. split; [|exact Ux].
      unfold t'. cbn [Issues.issues]. apply in_map_iff. exists x.
      split; [|exact Hx]. unfold f.
      apply Z.eqb_neq in N. now rewrite N.
  - apply order_by_sorted.
    + intros a b. unfold ServiceIssues.newest_first.
      rewrite Z.leb_gt, Z.leb_le. lia.
    + intros a b c. unfold ServiceIssues.newest_first.
      rewrite !Z.leb_le. lia.
  - rewrite (patch_issues_id_read_rows e t' _ I).
    unfold t'. cbn [Issues.issues Issues.issues_id_seq]. fold f.
    assert (map f (map f (Issues.issues t)) = map f (Issues.issues t)) as Idem
      by (unfold f;
          now apply (map_idempotent_update Issues.i_id (ServiceIssues.read e))).
    rewrite !Idem, F. reflexivity.
Qed.

Lemma mark_read_leaves_unread_list_witness :
  exists t',
    ServiceIssues.patch_issues_id_read clock inbox 1 = (Reply 200 (RowId 1), t')
    /\ ServiceIssues.get_issues_id t' 1
       = (Answer 200 (ServiceIssues.read clock blocked_spot), t')
    /\ (forall x, In x (ServiceIssues.select_unread_issues t')
                  <-> In x (ServiceIssues.select_unread_issues inbox)
                      /\ Issues.i_id x <> 1)
    /\ StronglySorted (fun a b => ServiceIssues.newest_first a b = true)
         (ServiceIssues.select_unread_issues t')
    /\ ServiceIssues.patch_issues_id_read clock t' 1 = (Reply 200 (RowId 1), t').
Proof.
  exact (mark_read_leaves_unread_list clock inbox blocked_spot
           eq_refl (or_introl eq_refl) eq_refl).
Defined.

(** X21.  An issue created through the service carries what the body
    says, defaults apart: a creation (201) is only had for a body with
    all six properties the query names and a user that is stored (or
    [null]); the row has the status and the read flag of the body, a
    [null] being stored as [NULL] and not as [open] or [false]; and the
    new issue is in the list of unread issues exactly when the body says
    [is_read: false]. *)
Theorem service_post_issues_stores_body (e : env) (users : list user)
    (t t' : Issues.table) (b : ServiceIssues.new_issue_body) (id : Z) :
  ServiceIssues.post_issues e users t b = (Reply 201 (RowId id), t') ->
  exists row,
    Issues.issues t' = (Issues.issues t ++ [row])%list
    /\ Issues.i_id row = id /\ id = Issues.issues_id_seq t
    /\ issue_complete b = true
    /\ Issues.i_user_id row = to_sql (ServiceIssues.nb_user_id b)
    /\ references u_id users (Issues.i_user_id row) = true
    /\ Issues.i_status row = to_sql (ServiceIssues.nb_status b)
    /\ Pg.check_in Issues.issue_status_values (Issues.i_status row) = true
    /\ Issues.i_is_read row = to_sql (ServiceIssues.nb_is_read b)
    /\ Issues.i_resolved_at row = None
    /\ (In row (ServiceIssues.select_unread_issues t')
        <-> ServiceIssues.nb_is_read b = Val false).
Proof.
  unfold ServiceIssues.post_issues. intro H.
  destruct (prepare_insert_issue_cases b) as [[Q P]|[Q [n P]]];
    rewrite P in H; [|discriminate].
  destruct (ServiceIssues.insert_into_issues _ _ _ _ _ _ _ _ _)
    as [[row|err] t1] eqn:X; [|discriminate].
  injection H as <- <-.
  unfold ServiceIssues.insert_into_issues, bind, guard, Pg.not_null in X.
  repeat (break_match_in X; try discriminate).
  all: injection X as <- <-.
  all: eexists; split; [reflexivity|].
  all: cbn [Issues.i_id Issues.i_user_id Issues.i_status Issues.i_is_read
            Issues.i_resolved_at].
  all: repeat match goal with
              | X : negb _ = false |- _ => apply negb_false_iff in X
              end.
  all: do 9 (split; [first [reflexivity | assumption | congruence]|]).
  all: unfold ServiceIssues.select_unread_issues; cbn [Issues.issues].
  all: split.
  all: try (intro M; apply (Permutation_in _ (order_by_perm _ _)) in M;
            apply filter_In in M; destruct M as [_ M];
            unfold ServiceIssues.unread in M; cbn [Issues.i_is_read] in M;
            destruct (ServiceIssues.nb_is_read b) as [| |[|]];
            simpl in M; try discriminate; reflexivity).
  all: intro M;
    apply (Permutation_in _ (Permutation_sym (order_by_perm _ _)));
    apply filter_In; split; [apply in_or_app; right; now left|];
    unfold ServiceIssues.unread; cbn [Issues.i_is_read]; now rewrite M.
Qed.

Lemma service_post_issues_stores_body_witness :
  exists row,
    Issues.issues (snd (ServiceIssues.post_issues clock [max_wu] inbox bare_report))
    = (Issues.issues inbox ++ [row])%list
    /\ Issues.i_id row = 2 /\ 2 = Issues.issues_id_seq inbox
    /\ issue_complete bare_report = true
    /\ Issues.i_user_id row = Some 1
    /\ references u_id [max_wu] (Issues.i_user_id row) = true
    /\ Issues.i_status row = None
    /\ Pg.check_in Issues.issue_status_values (Issues.i_status row) = true
    /\ Issues.i_is_read row = None
    /\ Issues.i_resolved_at row = None
    /\ (In row (ServiceIssues.select_unread_issues
                  (snd (ServiceIssues.post_issues clock [max_wu] inbox bare_report)))
        <-> Null = Val false).
Proof.
  exact (service_post_issues_stores_body clock [max_wu] inbox _ bare_report 2
           eq_refl).
Defined.

Lemma put_issues_id_rows (e : env) (t : Issues.table) (id : Z)
    (b : ServiceIssues.issue_change_body) :
  ServiceIssues.put_issues_id e t id b
  = if issue_change_complete b
    then match ServiceIssues.update_issues e t id
                 (to_sql (ServiceIssues.cb_status b))
                 (to_sql (ServiceIssues.cb_is_read b))
                 (to_sql (ServiceIssues.cb_resolved_at b)) with
         | (Raise _, t') => (Service.handleError true, t')
         | (Done rows, t') =>
             match PgPromise.oneOrNone rows with
             | Done data =>
                 (Service.returnDataOr404 (option_map RowId data), t')
             | Raise _ => (Service.handleError true, t')
             end
         end
    else (Service.handleError true, t).
Proof.
  unfold ServiceIssues.put_issues_id.
  destruct (prepare_update_issue_cases b) as [[Q P]|[Q [k P]]];
    rewrite P, Q; reflexivity.
Qed.

Lemma allowed_or_null_status_fits (status : option string) :
  Pg.check_in Issues.issue_status_values status = true ->
  Pg.varchar 50 status = Done status.
Proof.
  destruct status as [st|]; [|reflexivity].
  intro C. unfold Pg.varchar. now rewrite (allowed_status_fits st C).
Qed.

(** X22.  [PUT /api/issues/:id] of the service writes the three
    properties of the body as they are: for a stored issue and a body
    with [status] (one of the allowed ones or [null]), [is_read] and
    [resolved_at] the answer is 200 with the id, and the row gets exactly
    these three values and a new [updated_at], no other issue changing.
    The time of resolution is the one the body gives: with status
    [resolved] and [resolved_at: null] the issue is stored as resolved at
    no time.  A body that lacks one of the three is answered 500 and
    changes nothing. *)
Theorem put_issues_id_writes_body (e : env) (t : Issues.table)
    (r : Issues.issue) (b : ServiceIssues.issue_change_body) :
  Issues.wf_table t = true -> In r (Issues.issues t) ->
  Pg.int4_ok (Issues.i_id r) = true ->
  (issue_change_complete b = true ->
   Pg.check_in Issues.issue_status_values (to_sql (ServiceIssues.cb_status b))
   = true ->
   ServiceIssues.put_issues_id e t (Issues.i_id r) b
   = (Reply 200 (RowId (Issues.i_id r)),
      Issues.mk_table
        (map (fun x => if Issues.i_id x =? Issues.i_id r
                       then ServiceIssues.changed e
                              (to_sql (ServiceIssues.cb_status b))
                              (to_sql (ServiceIssues.cb_is_read b))
                              (to_sql (ServiceIssues.cb_resolved_at b)) r
                       else x) (Issues.issues t))
        (Issues.issues_id_seq t)))
  /\ (issue_change_complete b = false ->
      ServiceIssues.put_issues_id e t (Issues.i_id r) b
      = (Fail 500 "Internal server error" None, t)).
Proof.
  intros W H I. pose proof (keys_ok_distinct _ _ W) as D. split.
  - intros Q C. rewrite put_issues_id_rows, Q.
    unfold ServiceIssues.update_issues, Pg.int4, bind.
    rewrite I, (allowed_or_null_status_fits _ C), C.
    rewrite (has_key_in Issues.i_id _ r H). cbn [negb].
    rewrite (filter_map_update Issues.i_id
               (ServiceIssues.changed e _ _ _)) by reflexivity.
    rewrite (distinct_filter_one Issues.i_id _ r D H).
    cbn [map PgPromise.oneOrNone option_map Service.returnDataOr404
         ServiceIssues.changed Issues.i_id].
    f_equal. f_equal.
    apply (map_update_one Issues.i_id (ServiceIssues.changed e _ _ _) _ r D H).
  - intro Q. now rewrite put_issues_id_rows, Q.
Qed.

Lemma put_issues_id_writes_body_witness :
  ServiceIssues.put_issues_id clock inbox 1
    (ServiceIssues.mk_issue_change_body (Val "resolved") (Val true) Null)
  = (Reply 200 (RowId 1),
     Issues.mk_table
       [Issues.mk_issue 1 None "Max Wu" "Spot A40 is blocked" (Some "A40")
          (Some "resolved") (Some true) 28950000 None 29000000] 2)
  /\ ServiceIssues.put_issues_id clock inbox 1
       (ServiceIssues.mk_issue_change_body (Val "resolved") (Val true) Absent)
     = (Fail 500 "Internal server error" None, inbox).
Proof.
  split.
  - exact (proj1 (put_issues_id_writes_body clock inbox blocked_spot
                    (ServiceIssues.mk_issue_change_body (Val "resolved")
                       (Val true) Null)
                    eq_refl (or_introl eq_refl) eq_refl) eq_refl eq_refl).
  - exact (proj2 (put_issues_id_writes_body clock inbox blocked_spot
                    (ServiceIssues.mk_issue_change_body (Val "resolved")
                       (Val true) Absent)
                    eq_refl (or_introl eq_refl) eq_refl) eq_refl).
Defined.

(* ================================================================== *)
(** * Vehicles *)
(* ================================================================== *)

Lemma prepare_select_vehicle :
  PgPromise.prepare Vehicles.sql_select_vehicle Service.params = Done tt.
Proof. vm_compute. reflexivity. Qed.

Lemma prepare_select_vehicles_by_user :
  PgPromise.prepare Vehicles.sql_select_vehicles_by_user
    (PgPromise.has_own [("userId", true)]) = Done tt.
Proof. vm_compute. reflexivity. Qed.

Lemma prepare_delete_vehicle :
  PgPromise.prepare Vehicles.sql_delete_vehicle Service.params = Done tt.
Proof. vm_compute. reflexivity. Qed.

Lemma prepare_insert_vehicle (has : string -> bool) :
  PgPromise.prepare Vehicles.sql_insert_vehicle has
  = match find (fun n => negb (has n))
            ["user_id"; "make"; "model"; "year"; "color"; "license_plate"] with
    | Some n => Raise (property_missing n)
    | None => Done tt
    end.
Proof. vm_compute. reflexivity. Qed.

Lemma prepare_insert_vehicle_cases (b : Vehicles.vehicle_body) :
  (vehicle_complete b = true
   /\ PgPromise.prepare Vehicles.sql_insert_vehicle (Vehicles.vehicle_props b)
      = Done tt)
  \/ (vehicle_complete b = false
      /\ exists n,
           PgPromise.prepare Vehicles.sql_insert_vehicle (Vehicles.vehicle_props b)
           = Raise (property_missing n)).
Proof.
  rewrite prepare_insert_vehicle.
  unfold vehicle_complete, Vehicles.vehicle_props, PgPromise.has_own.
  simpl.
  repeat match goal with
         | |- context [present ?f] =>
             destruct (present f); simpl;
             [|right; split; [reflexivity|eexists; reflexivity]]
         end.
  left. split; reflexivity.
Qed.

Lemma post_vehicles_rows (e : env) (users : list user) (t : Vehicles.table)
    (b : Vehicles.vehicle_body) :
  Vehicles.post_vehicles e users t b
  = if vehicle_complete b
    then match Vehicles.insert_into_vehicles e users t
                 (to_sql (Vehicles.vb_user_id b)) (to_sql (Vehicles.vb_make b))
                 (to_sql (Vehicles.vb_model b)) (to_sql (Vehicles.vb_year b))
                 (to_sql (Vehicles.vb_color b))
                 (to_sql (Vehicles.vb_license_plate b)) with
         | (Done row, t') => (Reply 201 (RowId (Vehicles.c_id row)), t')
         | (Raise _, t') => (Service.handleError true, t')
         end
    else (Service.handleError true, t).
Proof.
  unfold Vehicles.post_vehicles.
  destruct (prepare_insert_vehicle_cases b) as [[Q P]|[Q [k P]]];
    rewrite P, Q; reflexivity.
Qed.

(** What an accepted [INSERT INTO vehicles] did. *)
Lemma insert_into_vehicles_done (e : env) (users : list user)
    (t t' : Vehicles.table) (user_id : option Z)
    (make model year color license_plate : option string)
    (row : Vehicles.vehicle) :
  Vehicles.insert_into_vehicles e users t user_id make model year color
    license_plate = (Done row, t') ->
  t' = Vehicles.mk_table (Vehicles.vehicles t ++ [row])%list
         (Vehicles.vehicles_id_seq t + 1)
  /\ Vehicles.c_id row = Vehicles.vehicles_id_seq t
  /\ Vehicles.c_user_id row = user_id
  /\ make = Some (Vehicles.c_make row) /\ model = Some (Vehicles.c_model row)
  /\ year = Some (Vehicles.c_year row) /\ Vehicles.c_color row = color
  /\ license_plate = Some (Vehicles.c_license_plate row)
  /\ references u_id users user_id = true
  /\ existsb (fun v => String.eqb (Vehicles.c_license_plate v)
                         (Vehicles.c_license_plate row))
             (Vehicles.vehicles t) = false.
Proof.
  unfold Vehicles.insert_into_vehicles, bind, guard, Pg.not_null. intro H.
  repeat (break_match_in H; try discriminate).
  all: injection H as <- <-; subst.
  all: repeat match goal with
              | X : negb _ = true |- _ => apply negb_true_iff in X
              end.
  all: cbn [Vehicles.c_id Vehicles.c_user_id Vehicles.c_make Vehicles.c_model
            Vehicles.c_year Vehicles.c_color Vehicles.c_license_plate].
  all: repeat split; try reflexivity; assumption.
Qed.

Lemma get_vehicles_id_found (t : Vehicles.table) (v : Vehicles.vehicle) :
  Pg.int4_ok (Vehicles.c_id v) = true ->
  filter (fun x => Vehicles.c_id x =? Vehicles.c_id v) (Vehicles.vehicles t) = [v] ->
  Vehicles.get_vehicles_id t (Vehicles.c_id v) = (Answer 200 v, t).
Proof.
  intros I F. unfold Vehicles.get_vehicles_id.
  rewrite prepare_select_vehicle.
  unfold Vehicles.select_vehicles_by_id, bind, Pg.int4. now rewrite I, F.
Qed.

Lemma get_vehicles_id_missing (t : Vehicles.table) (id : Z) :
  Pg.int4_ok id = true -> has_key Vehicles.c_id (Vehicles.vehicles t) id = false ->
  Vehicles.get_vehicles_id t id = (Refusal (SendStatus 404), t).
Proof.
  intros I H. unfold Vehicles.get_vehicles_id.
  rewrite prepare_select_vehicle.
  unfold Vehicles.select_vehicles_by_id, bind, Pg.int4.
  now rewrite I, (has_key_false_filter Vehicles.c_id _ _ H).
Qed.

Lemma delete_vehicles_id_present (t : Vehicles.table) (v : Vehicles.vehicle) :
  Pg.int4_ok (Vehicles.c_id v) = true ->
  filter (fun x => Vehicles.c_id x =? Vehicles.c_id v) (Vehicles.vehicles t) = [v] ->
  Vehicles.delete_vehicles_id t (Vehicles.c_id v)
  = (Reply 200 (RowId (Vehicles.c_id v)),
     Vehicles.mk_table
       (filter (fun x => negb (Vehicles.c_id x =? Vehicles.c_id v))
               (Vehicles.vehicles t))
       (Vehicles.vehicles_id_seq t)).
Proof.
  intros I F. unfold Vehicles.delete_vehicles_id.
  rewrite prepare_delete_vehicle.
  unfold Vehicles.delete_from_vehicles, Pg.int4. now rewrite I, F.
Qed.

Lemma wf_vehicle_keys (t : Vehicles.table) :
  Vehicles.wf_table t = true ->
  keys_ok (Vehicles.vehicles_id_seq t) (map Vehicles.c_id (Vehicles.vehicles t))
  = true.
Proof. unfold Vehicles.wf_table. intro H. apply andb_true_iff in H. tauto. Qed.

Lemma wf_vehicle_plates (t : Vehicles.table) :
  Vehicles.wf_table t = true ->
  distinct String.eqb (map Vehicles.c_license_plate (Vehicles.vehicles t)) = true.
Proof. unfold Vehicles.wf_table. intro H. apply andb_true_iff in H. tauto. Qed.

(** X23.  The life of a vehicle: the id a registration (201) returns
    names a vehicle that is read back with the owner, make, model, year,
    colour and plate of the body, and that is among the vehicles of its
    owner; its deletion returns the id and leaves the vehicles that were
    there before; from then on reading it is answered 404. *)
Theorem vehicle_life_cycle (e : env) (users : list user)
    (t t1 : Vehicles.table) (b : Vehicles.vehicle_body) (id : Z) :
  Vehicles.wf_table t = true -> Pg.int4_ok (Vehicles.vehicles_id_seq t) = true ->
  Vehicles.post_vehicles e users t b = (Reply 201 (RowId id), t1) ->
  exists row t2,
    Vehicles.get_vehicles_id t1 id = (Answer 200 row, t1)
    /\ Vehicles.c_id row = id
    /\ Vehicles.c_user_id row = to_sql (Vehicles.vb_user_id b)
    /\ Vehicles.vb_make b = Val (Vehicles.c_make row)
    /\ Vehicles.vb_model b = Val (Vehicles.c_model row)
    /\ Vehicles.vb_year b = Val (Vehicles.c_year row)
    /\ Vehicles.c_color row = to_sql (Vehicles.vb_color b)
    /\ Vehicles.vb_license_plate b = Val (Vehicles.c_license_plate row)
    /\ references u_id users (Vehicles.c_user_id row) = true
    /\ (forall u, Vehicles.c_user_id row = Some u -> Pg.int4_ok u = true ->
          exists mine,
            Vehicles.get_vehicles_user t1 u = (Answer 200 mine, t1)
            /\ In row mine)
    /\ Vehicles.delete_vehicles_id t1 id = (Reply 200 (RowId id), t2)
    /\ Vehicles.vehicles t2 = Vehicles.vehicles t
    /\ Vehicles.get_vehicles_id t2 id = (Refusal (SendStatus 404), t2).
Proof.
  intros W I H. rewrite post_vehicles_rows in H.
  destruct (vehicle_complete b); [|discriminate].
  destruct (Vehicles.insert_into_vehicles _ _ _ _ _ _ _ _ _)
    as [[row|err] t'] eqn:X; [|discriminate].
  injection H as <- <-.
  apply insert_into_vehicles_done in X.
  destruct X as (-> & K & Hu & Hmk & Hmd & Hyr & Hc & Hlp & Fk & _).
  pose proof (keys_ok_fresh Vehicles.c_id _ _ (wf_vehicle_keys t W)) as N.
  rewrite <- K in N, I.
  set (t1 := Vehicles.mk_table (Vehicles.vehicles t ++ [row])%list
               (Vehicles.vehicles_id_seq t + 1)).
  assert (filter (fun x => Vehicles.c_id x =? Vehicles.c_id row)
                 (Vehicles.vehicles t1) = [row]) as F
    by (apply (filter_snoc_fresh Vehicles.c_id); exact N).
  assert (filter (fun x => negb (Vehicles.c_id x =? Vehicles.c_id row))
                 (Vehicles.vehicles t1) = Vehicles.vehicles t) as G
    by (apply (filter_out_snoc_fresh Vehicles.c_id); exact N).
  exists row,
    (Vehicles.mk_table
       (filter (fun x => negb (Vehicles.c_id x =? Vehicles.c_id row))
               (Vehicles.vehicles t1))
       (Vehicles.vehicles_id_seq t1)).
  split; [exact (get_vehicles_id_found t1 row I F)|].
  split; [reflexivity|]. split; [exact Hu|].
  destruct (Vehicles.vb_make b) as [| |mk]; try discriminate.
  destruct (Vehicles.vb_model b) as [| |md]; try discriminate.
  destruct (Vehicles.vb_year b) as [| |yr]; try discriminate.
  destruct (Vehicles.vb_license_plate b) as [| |lp]; try discriminate.
  simpl in Hmk, Hmd, Hyr, Hlp.
  injection Hmk as ->. injection Hmd as ->. injection Hyr as ->.
  injection Hlp as ->.
  split; [reflexivity|]. split; [reflexivity|]. split; [reflexivity|].
  split; [exact Hc|]. split; [reflexivity|].
  split; [now rewrite Hu|].
  split.
  { intros u Eu Iu. eexists. split.
    - unfold Vehicles.get_vehicles_user.
      rewrite prepare_select_vehicles_by_user.
      unfold Vehicles.select_vehicles_by_user, bind, Pg.int4. rewrite Iu.
      reflexivity.
    - apply filter_In. split; [apply in_or_app; right; now left|].
      unfold Vehicles.of_owner. rewrite Eu. apply Z.eqb_refl. }
  split; [exact (delete_vehicles_id_present t1 row I F)|].
  split; [exact G|].
  apply get_vehicles_id_missing; [exact I|].
  cbn [Vehicles.vehicles]. rewrite G. exact N.
Qed.

Lemma vehicle_life_cycle_witness :
  exists row t2,
    let t1 := snd (Vehicles.post_vehicles clock [max_wu] garage
                     (registration "XYZ 789")) in
    Vehicles.get_vehicles_id t1 2 = (Answer 200 row, t1)
    /\ Vehicles.c_id row = 2
    /\ Vehicles.c_user_id row = Some 1
    /\ Val "Ford" = Val (Vehicles.c_make row)
    /\ Val "Focus" = Val (Vehicles.c_model row)
    /\ Val "2021" = Val (Vehicles.c_year row)
    /\ Vehicles.c_color row = None
    /\ Val "XYZ 789" = Val (Vehicles.c_license_plate row)
    /\ references u_id [max_wu] (Vehicles.c_user_id row) = true
    /\ (forall u, Vehicles.c_user_id row = Some u -> Pg.int4_ok u = true ->
          exists mine,
            Vehicles.get_vehicles_user t1 u = (Answer 200 mine, t1)
            /\ In row mine)
    /\ Vehicles.delete_vehicles_id t1 2 = (Reply 200 (RowId 2), t2)
    /\ Vehicles.vehicles t2 = Vehicles.vehicles garage
    /\ Vehicles.get_vehicles_id t2 2 = (Refusal (SendStatus 404), t2).
Proof.
  exact (vehicle_life_cycle clock [max_wu] garage _ (registration "XYZ 789") 2
           eq_refl eq_refl eq_refl).
Defined.

Lemma insert_into_vehicles_wf (e : env) (users : list user) (t : Vehicles.table)
    (user_id : option Z) (make model year color license_plate : option string) :
  Vehicles.wf_table t = true ->
  Vehicles.wf_table
    (snd (Vehicles.insert_into_vehicles e users t user_id make model year color
            license_plate)) = true.
Proof.
  intro W.
  pose proof (wf_vehicle_keys t W) as K. pose proof (wf_vehicle_plates t W) as P.
  unfold Vehicles.insert_into_vehicles, bind, guard, Pg.not_null.
  repeat (break_match; try discriminate); simpl snd; try exact W.
  all: unfold Vehicles.wf_table;
    cbn [Vehicles.vehicles Vehicles.vehicles_id_seq];
    apply andb_true_iff; split.
  all: try (now apply keys_ok_step).
  all: try exact P.
  all: rewrite map_app; cbn [map Vehicles.c_id Vehicles.c_license_plate].
  all: try (now apply keys_ok_snoc).
  all: apply distinct_email_snoc; [exact P|].
  all: rewrite existsb_eqb_name.
  all: match goal with
       | X : negb ?x = true |- ?y = false => apply negb_true_iff in X; exact X
       end.
Qed.

Lemma update_vehicles_wf (t : Vehicles.table) (id : Z)
    (make model year color license_plate : option string) :
  Vehicles.wf_table t = true ->
  Vehicles.wf_table
    (snd (Vehicles.update_vehicles t id make model year color license_plate))
  = true.
Proof.
  intro W.
  pose proof (wf_vehicle_keys t W) as K. pose proof (wf_vehicle_plates t W) as P.
  unfold Vehicles.update_vehicles, bind, guard, Pg.not_null.
  repeat (break_match; try discriminate); simpl snd; try exact W.
  all: unfold Vehicles.wf_table;
    cbn [Vehicles.vehicles Vehicles.vehicles_id_seq];
    apply andb_true_iff; split.
  all: try (rewrite map_key_update; [exact K|reflexivity]).
  all: match goal with
       | X : negb (existsb (fun v => String.eqb (Vehicles.c_license_plate v) ?m
                                     && _) _) = true |- _ =>
           apply negb_true_iff in X;
           eapply (distinct_name_update Vehicles.c_id Vehicles.c_license_plate
                     _ _ m);
           [ intro u; reflexivity
           | exact (keys_ok_distinct _ _ K)
           | exact P
           | exact X ]
       end.
Qed.

Lemma delete_from_vehicles_wf (t : Vehicles.table) (id : Z) :
  Vehicles.wf_table t = true ->
  Vehicles.wf_table (snd (Vehicles.delete_from_vehicles t id)) = true.
Proof.
  intro W. unfold Vehicles.delete_from_vehicles.
  break_match; simpl snd; [|exact W].
  unfold Vehicles.wf_table. cbn [Vehicles.vehicles Vehicles.vehicles_id_seq].
  apply andb_true_iff. split.
  - apply keys_ok_filter. now apply wf_vehicle_keys.
  - apply distinct_name_filter. now apply wf_vehicle_plates.
Qed.

Lemma serve_wf (e : env) (users : list user) (t : Vehicles.table)
    (r : vehicle_request) :
  Vehicles.wf_table t = true -> Vehicles.wf_table (snd (serve e users t r)) = true.
Proof.
  intro W. destruct r as [b|id b|id]; unfold serve.
  - rewrite post_vehicles_rows. destruct (vehicle_complete b); [|exact W].
    match goal with
    | |- context [Vehicles.insert_into_vehicles ?e ?u ?t ?a ?b ?c ?d ?f ?g] =>
        pose proof (insert_into_vehicles_wf e u t a b c d f g W) as Q;
        destruct (Vehicles.insert_into_vehicles e u t a b c d f g)
          as [[row|err] t1]
    end; exact Q.
  - unfold Vehicles.put_vehicles_id.
    destruct (PgPromise.prepare _ _); [|exact W].
    match goal with
    | |- context [Vehicles.update_vehicles ?t ?i ?a ?b ?c ?d ?f] =>
        pose proof (update_vehicles_wf t i a b c d f W) as Q;
        destruct (Vehicles.update_vehicles t i a b c d f) as [[rows|err] t1]
    end; [|exact Q].
    destruct (PgPromise.oneOrNone rows); exact Q.
  - unfold Vehicles.delete_vehicles_id.
    destruct (PgPromise.prepare _ _); [|exact W].
    pose proof (delete_from_vehicles_wf t id W) as Q.
    destruct (Vehicles.delete_from_vehicles t id) as [[rows|err] t1]; [|exact Q].
    destruct (PgPromise.oneOrNone rows); exact Q.
Qed.

Lemma post_vehicles_duplicate (e : env) (users : list user) (t : Vehicles.table)
    (b : Vehicles.vehicle_body) (v : Vehicles.vehicle) :
  In v (Vehicles.vehicles t) ->
  Vehicles.vb_license_plate b = Val (Vehicles.c_license_plate v) ->
  fst (Vehicles.post_vehicles e users t b) = Fail 500 "Internal server error" None
  /\ Vehicles.vehicles (snd (Vehicles.post_vehicles e users t b))
     = Vehicles.vehicles t.
Proof.
  intros H E. rewrite post_vehicles_rows.
  destruct (vehicle_complete b); [|split; reflexivity].
  destruct (Vehicles.insert_into_vehicles _ _ _ _ _ _ _ _ _)
    as [[row|err] t'] eqn:X.
  - exfalso. apply insert_into_vehicles_done in X.
    destruct X as (_ & _ & _ & _ & _ & _ & _ & Hlp & _ & U).
    rewrite E in Hlp. simpl in Hlp. injection Hlp as Hlp.
    assert (existsb (fun x => String.eqb (Vehicles.c_license_plate x)
                                (Vehicles.c_license_plate row))
                    (Vehicles.vehicles t) = true) as T.
    { apply existsb_exists. exists v. split; [exact H|].
      rewrite Hlp. apply String.eqb_refl. }
    now rewrite T in U.
  - split; [reflexivity|].
    unfold Vehicles.insert_into_vehicles, bind, guard, Pg.not_null in X.
    repeat (break_match_in X; try discriminate);
      injection X as _ <-; reflexivity.
Qed.

(** X24.  A license plate is on one vehicle at most.  Registering a
    vehicle under the plate of a stored one is answered 500 (not 409)
    and adds nothing; and whatever a registration, a change or a
    deletion does to a table whose ids are distinct and below the
    sequence and whose plates are distinct, the table it leaves is such
    a table again. *)
Theorem license_plates_stay_unique (e : env) (users : list user)
    (t : Vehicles.table) :
  Vehicles.wf_table t = true ->
  (forall r, Vehicles.wf_table (snd (serve e users t r)) = true)
  /\ (forall b v,
        In v (Vehicles.vehicles t) ->
        Vehicles.vb_license_plate b = Val (Vehicles.c_license_plate v) ->
        fst (Vehicles.post_vehicles e users t b)
        = Fail 500 "Internal server error" None
        /\ Vehicles.vehicles (snd (Vehicles.post_vehicles e users t b))
           = Vehicles.vehicles t).
Proof.
  intro W. split.
  - intro r. now apply serve_wf.
  - intros b v. apply post_vehicles_duplicate.
Qed.

Lemma license_plates_stay_unique_witness :
  Vehicles.wf_table
    (snd (serve clock [max_wu] garage
            (PutVehiclesId 1 (registration "XYZ 789")))) = true
  /\ (fst (Vehicles.post_vehicles clock [max_wu] garage (registration "ABC 123"))
      = Fail 500 "Internal server error" None
      /\ Vehicles.vehicles
           (snd (Vehicles.post_vehicles clock [max_wu] garage
                   (registration "ABC 123")))
         = Vehicles.vehicles garage).
Proof.
  split.
  - exact (proj1 (license_plates_stay_unique clock [max_wu] garage eq_refl)
             (PutVehiclesId 1 (registration "XYZ 789"))).
  - exact (proj2 (license_plates_stay_unique clock [max_wu] garage eq_refl)
             (registration "ABC 123") civic (or_introl eq_refl) eq_refl).
Defined.

(* ================================================================== *)
(** * Invariants of the issues *)
(* ================================================================== *)

Lemma assign_id (e : env) (values : list Issues.sql_value)
    (a : Issues.assignment) (r : Issues.issue) :
  Issues.i_id (Issues.assign e values a r) = Issues.i_id r.
Proof.
  unfold Issues.assign. repeat break_match; reflexivity.
Qed.

Lemma assign_all_id (e : env) (values : list Issues.sql_value)
    (l : list Issues.assignment) (r : Issues.issue) :
  Issues.i_id (fold_left (fun r a => Issues.assign e values a r) l r)
  = Issues.i_id r.
Proof.
  revert r. induction l as [|a l IH]; intro r; simpl; [reflexivity|].
  now rewrite IH, assign_id.
Qed.

Lemma update_row_done (e : env) (values : list Issues.sql_value)
    (q : Issues.update_query) (r r' : Issues.issue) :
  Issues.update_row e values q r = Done r' ->
  Issues.i_id r' = Issues.i_id r
  /\ Pg.check_in Issues.issue_status_values (Issues.i_status r') = true.
Proof.
  unfold Issues.update_row, bind, guard. cbv zeta. intro H.
  break_match_in H; [|discriminate]. injection H as <-.
  split; [|assumption].
  cbn [Issues.i_id]. apply assign_all_id.
Qed.

Lemma update_rows_done (e : env) (values : list Issues.sql_value)
    (q : Issues.update_query) (id : Z) (l rows : list Issues.issue) :
  Issues.update_rows e values q id l = Done rows ->
  map Issues.i_id rows = map Issues.i_id l
  /\ (forallb (fun r => Pg.check_in Issues.issue_status_values (Issues.i_status r)) l
      = true ->
      forallb (fun r => Pg.check_in Issues.issue_status_values (Issues.i_status r))
              rows = true).
Proof.
  revert rows. induction l as [|a l IH]; intros rows H; simpl in H.
  - injection H as <-. split; auto.
  - unfold bind in H.
    destruct (if Issues.i_id a =? id then Issues.update_row e values q a
              else Done a) as [a'|] eqn:A; [|discriminate].
    destruct (Issues.update_rows e values q id l) as [l'|]; [|discriminate].
    injection H as <-. destruct (IH l' eq_refl) as [K S].
    assert (Issues.i_id a' = Issues.i_id a
            /\ (Pg.check_in Issues.issue_status_values (Issues.i_status a) = true ->
                Pg.check_in Issues.issue_status_values (Issues.i_status a') = true))
      as [Ka Sa].
    { destruct (Issues.i_id a =? id).
      - apply update_row_done in A. tauto.
      - injection A as <-. tauto. }
    split.
    + simpl. now rewrite Ka, K.
    + simpl. rewrite !andb_true_iff. intros [X Y]. auto.
Qed.

Section IssueInvariant.

Import Issues.

Lemma consistent_step (t : table) :
  consistent t -> consistent (mk_table (issues t) (issues_id_seq t + 1)).
Proof.
  intros [W S]. split; [|exact S].
  unfold wf_table. simpl. now apply keys_ok_step.
Qed.

Lemma consistent_snoc (t : table) (r : issue) :
  consistent t -> i_id r = issues_id_seq t ->
  Pg.check_in issue_status_values (i_status r) = true ->
  consistent (mk_table (issues t ++ [r]) (issues_id_seq t + 1)).
Proof.
  intros [W S] K C. split.
  - unfold wf_table. simpl. rewrite map_app. simpl. rewrite K.
    now apply keys_ok_snoc.
  - unfold statuses_ok in *. simpl. rewrite forallb_app, S. simpl.
    now rewrite C.
Qed.

Lemma consistent_filter (t : table) (p : issue -> bool) :
  consistent t -> consistent (mk_table (filter p (issues t)) (issues_id_seq t)).
Proof.
  intros [W S]. split.
  - unfold wf_table. simpl. now apply keys_ok_filter.
  - unfold statuses_ok in *. simpl. rewrite forallb_forall in *.
    intros x Hx. apply filter_In in Hx. apply S. tauto.
Qed.

Lemma consistent_update (t : table) (id : Z) (upd : issue -> issue) :
  (forall r, i_id (upd r) = i_id r) ->
  (forall r, Pg.check_in issue_status_values (i_status r) = true ->
             Pg.check_in issue_status_values (i_status (upd r)) = true) ->
  consistent t ->
  consistent (mk_table (map (fun r => if i_id r =? id then upd r else r) (issues t))
                  (issues_id_seq t)).
Proof.
  intros K C [W S]. split.
  - unfold wf_table. simpl. now rewrite map_key_update.
  - unfold statuses_ok in *. simpl. rewrite forallb_forall in *.
    intros x Hx. apply in_map_iff in Hx. destruct Hx as (y & <- & Hy).
    destruct (i_id y =? id); auto.
Qed.

Lemma update_issues_consistent (e : env) (t : table) (id : Z)
    (status : option string) (is_read : option bool) (resolved_at : option Z) :
  consistent t ->
  consistent (snd (ServiceIssues.update_issues e t id status is_read resolved_at)).
Proof.
  intro T. unfold ServiceIssues.update_issues, bind.
  repeat (break_match; try discriminate); simpl snd; try exact T.
  all: apply consistent_update; [reflexivity| |exact T].
  all: intros r0 _; cbn [ServiceIssues.changed i_status].
  all: match goal with
       | X : negb ?c = false |- ?c = true => now apply negb_false_iff in X
       end.
Qed.

Lemma update_issues_read_consistent (e : env) (t : table) (id : Z) :
  consistent t -> consistent (snd (ServiceIssues.update_issues_read e t id)).
Proof.
  intro T. unfold ServiceIssues.update_issues_read.
  repeat (break_match; try discriminate); simpl snd; try exact T.
  all: apply consistent_update; [reflexivity|auto|exact T].
Qed.

Lemma file_consistent (e : env) (users : list user) (t : table)
    (r : issue_request) :
  consistent t -> consistent (file e users t r).
Proof.
  intro T. destruct r as [b|id b|id|b|id b|id|id]; unfold file.
  - unfold post_issues, insert_into_issues, bind, guard, Pg.not_null.
    repeat (break_match; try discriminate); simpl snd; try exact T;
      try (now apply consistent_step); now apply consistent_snoc.
  - rewrite patch_issues_id_run, build_patch_statement.
    destruct (Pg.int4 (Some id)) as [v|]; [|exact T].
    destruct (coerce_all _ _) as [u|]; [|exact T].
    unfold bind.
    destruct (update_rows _ _ _ _ _) as [rows|] eqn:U; [|exact T].
    apply update_rows_done in U. destruct U as [K S].
    assert (consistent (mk_table rows (issues_id_seq t))) as Q.
    { destruct T as [W C]. split.
      - unfold wf_table. simpl. now rewrite K.
      - now apply S. }
    destruct (filter _ rows); exact Q.
  - unfold delete_issues_id, delete_from_issues.
    destruct (Pg.int4 (Some id)); [|exact T].
    pose proof (consistent_filter t (fun r => negb (i_id r =? id)) T) as Q.
    destruct (filter (fun r => i_id r =? id) (issues t)); exact Q.
  - unfold ServiceIssues.post_issues.
    destruct (PgPromise.prepare _ _); [|exact T].
    unfold ServiceIssues.insert_into_issues, bind, guard, Pg.not_null.
    repeat (break_match; try discriminate); simpl snd; try exact T;
      try (now apply consistent_step); now apply consistent_snoc.
  - rewrite put_issues_id_rows.
    destruct (issue_change_complete b); [|exact T].
    match goal with
    | |- context [ServiceIssues.update_issues ?e ?t ?i ?a ?b ?c] =>
        pose proof (update_issues_consistent e t i a b c T) as Q;
        destruct (ServiceIssues.update_issues e t i a b c) as [[rows|err] t1]
    end; [|exact Q].
    destruct (PgPromise.oneOrNone rows); exact Q.
  - unfold ServiceIssues.patch_issues_id_read.
    destruct (PgPromise.prepare _ _); [|exact T].
    pose proof (update_issues_read_consistent e t id T) as Q.
    destruct (ServiceIssues.update_issues_read e t id) as [[rows|err] t1];
      [|exact Q].
    destruct (PgPromise.oneOrNone rows); exact Q.
  - unfold ServiceIssues.delete_issues_id.
    destruct (PgPromise.prepare _ _); [|exact T].
    unfold delete_from_issues.
    destruct (Pg.int4 (Some id)); [|exact T].
    pose proof (consistent_filter t (fun r => negb (i_id r =? id)) T) as Q.
    destruct (PgPromise.oneOrNone _); exact Q.
Qed.

End IssueInvariant.

(** X25.  The issues stay in order under both applications: in every
    table that their writing requests on issues make of an empty one,
    the ids are distinct and below the sequence, and every status is one
    of [open], [in_progress], [resolved] and [closed], or [NULL]. *)
Theorem issue_tables_stay_consistent (t : Issues.table) :
  filed t -> Issues.wf_table t = true /\ statuses_ok t = true.
Proof.
  induction 1 as [|e users t r _ IH]; [split; reflexivity|].
  now apply file_consistent.
Qed.

Lemma issue_tables_stay_consistent_witness :
  Issues.wf_table
    (file clock []
       (file clock [] (Issues.mk_table [] 1)
          (ServerPostIssues
             (Issues.mk_issue_body (Val "Max Wu") (Val "Blocked") Absent)))
       (PutIssuesId 1
          (ServiceIssues.mk_issue_change_body (Val "closed") Null Null))) = true
  /\ statuses_ok
       (file clock []
          (file clock [] (Issues.mk_table [] 1)
             (ServerPostIssues
                (Issues.mk_issue_body (Val "Max Wu") (Val "Blocked") Absent)))
          (PutIssuesId 1
             (ServiceIssues.mk_issue_change_body (Val "closed") Null Null)))
     = true.
Proof.
  exact (issue_tables_stay_consistent _
           (filed_step clock [] _
              (PutIssuesId 1
                 (ServiceIssues.mk_issue_change_body (Val "closed") Null Null))
              (filed_step clock [] _
                 (ServerPostIssues
                    (Issues.mk_issue_body (Val "Max Wu") (Val "Blocked") Absent))
                 filed_empty))).
Defined.
